(** * KeyMaster: the password derivation and the password database

    A shallow embedding of [keymaster/key_password.py]: the class [Password]
    with its method [calculate_password], and the class [PasswordDB] with its
    CRUD methods over one sqlite table.

    Conventions of the embedding.
    - A Python [str] is a [string]: the sequence of the bytes of its UTF-8
      encoding.  A [str] may hold a lone surrogate (U+D800 to U+DFFF), for
      which UTF-8 has no code: it is written as the three bytes that the
      "surrogatepass" handler gives it (ED, A0..BF, 80..BF).  Order and
      equality of [str] values are those of the byte sequences (the
      encoding keeps the order of code points).  [s.encode("utf-8")] gives
      the byte list of [s] when it is well-formed UTF-8, and raises when
      [s] holds a lone surrogate.
    - A Python [bytes] is a [list Z] of values in [0, 256).
    - A Python [int] is a [Z].
    - A raised exception is a value of [exn]; a method that can raise returns
      a [result]. *)

From Stdlib Require Import ZArith List String Ascii Lia Bool.
From Stdlib Require Import Permutation Sorted DecimalString.
From stdpp Require Import gmap strings.

Import ListNotations.
Local Open Scope Z_scope.

(** ** Exceptions and results *)

Inductive exn : Type :=
  | UnboundLocalError   (* a local variable read before any assignment *)
  | UnicodeDecodeError  (* bytes.decode on bytes that are not UTF-8 *)
  | UnicodeEncodeError  (* str.encode on a str that holds a lone surrogate *)
  | ValueError          (* str(n) for an int beyond the digit limit *)
  | OverflowError       (* sqlite3: an int beyond 64 bits as a parameter *)
  | IndexError          (* list index out of range *)
  | ProgrammingError.   (* sqlite3: operation on a closed connection *)

Inductive result (A : Type) : Type :=
  | Ok (a : A)
  | Raise (e : exn).

Arguments Ok {A} a.
Arguments Raise {A} e.

Definition bind {A B : Type} (r : result A) (k : A -> result B) : result B :=
  match r with
  | Ok a => k a
  | Raise e => Raise e
  end.

(** ** Bytes and strings *)

Module Py.

Definition byte_of_ascii (c : ascii) : Z := Z.of_N (N_of_ascii c).
Definition ascii_of_byte (b : Z) : ascii := ascii_of_N (Z.to_N b).

(** The bytes that a [str] is written as, and the [bytes] literal
    [b"..."] of ASCII characters. *)
Definition bytes_of (s : string) : list Z :=
  List.map byte_of_ascii (list_ascii_of_string s).

(** The decimal numeral of an [int], and [str(n)]: CPython 3.11 and
    later refuse, with a [ValueError], to convert an integer of more
    than [sys.int_max_str_digits] digits, 4300 unless set otherwise. *)
Definition str_of_int (n : Z) : string :=
  NilZero.string_of_int (Z.to_int n).

Definition int_max_str_digits : Z := 4300.

Definition within_str_digits (n : Z) : bool :=
  Z.of_nat (String.length (str_of_int (Z.abs n))) <=? int_max_str_digits.

Definition str (n : Z) : result string :=
  if within_str_digits n then Ok (str_of_int n) else Raise ValueError.

(** The slice [l[start:stop]] with Python's treatment of negative and
    out-of-range bounds. *)
Definition clamp_index (len i : Z) : Z :=
  if i <? 0 then Z.max (i + len) 0 else Z.min i len.

Definition slice {A : Type} (start stop : Z) (l : list A) : list A :=
  let len := Z.of_nat (List.length l) in
  let lo := clamp_index len start in
  let hi := clamp_index len stop in
  firstn (Z.to_nat (hi - lo)) (skipn (Z.to_nat lo) l).

(** [bytes.lower()]: only the ASCII letters A-Z change. *)
Definition lower_byte (b : Z) : Z :=
  if (65 <=? b) && (b <=? 90) then b + 32 else b.

Definition lower (l : list Z) : list Z := List.map lower_byte l.

(** [bytes.decode("utf-8")], strict: the well-formed byte sequences of
    the Unicode standard (no overlong form, no surrogate, at most
    U+10FFFF). *)
Definition is_cont (b : Z) : bool := (128 <=? b) && (b <=? 191).

Fixpoint utf8_valid (l : list Z) : bool :=
  match l with
  | [] => true
  | b0 :: t0 =>
      if (0 <=? b0) && (b0 <=? 127) then utf8_valid t0
      else match t0 with
      | [] => false
      | b1 :: t1 =>
          if (194 <=? b0) && (b0 <=? 223) then is_cont b1 && utf8_valid t1
          else match t1 with
          | [] => false
          | b2 :: t2 =>
              if (224 <=? b0) && (b0 <=? 239) then
                (if b0 =? 224 then (160 <=? b1) && (b1 <=? 191)
                 else if b0 =? 237 then (128 <=? b1) && (b1 <=? 159)
                 else is_cont b1)
                && is_cont b2 && utf8_valid t2
              else match t2 with
              | [] => false
              | b3 :: t3 =>
                  (240 <=? b0) && (b0 <=? 244)
                  && (if b0 =? 240 then (144 <=? b1) && (b1 <=? 191)
                      else if b0 =? 244 then (128 <=? b1) && (b1 <=? 143)
                      else is_cont b1)
                  && is_cont b2 && is_cont b3 && utf8_valid t3
              end
          end
      end
  end.

Definition decode (l : list Z) : result string :=
  if utf8_valid l
  then Ok (string_of_list_ascii (List.map ascii_of_byte l))
  else Raise UnicodeDecodeError.

(** [s.encode("utf-8")], strict: a [str] that holds a lone surrogate is
    not encoded. *)
Definition well_formed (s : string) : bool := utf8_valid (bytes_of s).

Definition encode (s : string) : result (list Z) :=
  if well_formed s then Ok (bytes_of s) else Raise UnicodeEncodeError.

(** [s.replace(old, new, 1)] for one-character [old] and [new]. *)
Fixpoint replace1 (old new : ascii) (s : string) : string :=
  match s with
  | EmptyString => EmptyString
  | String c t =>
      if Ascii.eqb c old then String new t
      else String c (replace1 old new t)
  end.

(** [str.maketrans(src, dst)] as an association list and
    [s.translate(table)]. *)
Fixpoint maketrans (src dst : string) : list (ascii * ascii) :=
  match src, dst with
  | String a s', String b d' => (a, b) :: maketrans s' d'
  | _, _ => []
  end.

Fixpoint translate_char (table : list (ascii * ascii)) (c : ascii) : ascii :=
  match table with
  | [] => c
  | (a, b) :: rest => if Ascii.eqb c a then b else translate_char rest c
  end.

Fixpoint translate (table : list (ascii * ascii)) (s : string) : string :=
  match s with
  | EmptyString => EmptyString
  | String c t => String (translate_char table c) (translate table t)
  end.

(** Position of the first occurrence of a character. *)
Fixpoint find_char (c : ascii) (s : string) : option nat :=
  match s with
  | EmptyString => None
  | String x t =>
      if Ascii.eqb x c then Some O
      else option_map S (find_char c t)
  end.

End Py.

(** ** SHA-512 (FIPS 180-4), as [hashlib.sha512(data).digest()] *)

Module SHA512.

Definition modulus : Z := 2 ^ 64.
Definition add64 (x y : Z) : Z := (x + y) mod modulus.
Definition not64 (x : Z) : Z := Z.lxor x (modulus - 1).
Definition shr (n x : Z) : Z := Z.shiftr x n.
Definition rotr (n x : Z) : Z :=
  Z.lor (Z.shiftr x n) (Z.shiftl x (64 - n) mod modulus).

Definition Ch (x y z : Z) : Z :=
  Z.lxor (Z.land x y) (Z.land (not64 x) z).
Definition Maj (x y z : Z) : Z :=
  Z.lxor (Z.lxor (Z.land x y) (Z.land x z)) (Z.land y z).
Definition bigsigma0 (x : Z) : Z :=
  Z.lxor (Z.lxor (rotr 28 x) (rotr 34 x)) (rotr 39 x).
Definition bigsigma1 (x : Z) : Z :=
  Z.lxor (Z.lxor (rotr 14 x) (rotr 18 x)) (rotr 41 x).
Definition smallsigma0 (x : Z) : Z :=
  Z.lxor (Z.lxor (rotr 1 x) (rotr 8 x)) (shr 7 x).
Definition smallsigma1 (x : Z) : Z :=
  Z.lxor (Z.lxor (rotr 19 x) (rotr 61 x)) (shr 6 x).

(** Round constants: the first 64 bits of the fractional parts of the
    cube roots of the first eighty primes. *)
Definition K : list Z :=
  [ 0x428a2f98d728ae22; 0x7137449123ef65cd; 0xb5c0fbcfec4d3b2f; 0xe9b5dba58189dbbc;
    0x3956c25bf348b538; 0x59f111f1b605d019; 0x923f82a4af194f9b; 0xab1c5ed5da6d8118;
    0xd807aa98a3030242; 0x12835b0145706fbe; 0x243185be4ee4b28c; 0x550c7dc3d5ffb4e2;
    0x72be5d74f27b896f; 0x80deb1fe3b1696b1; 0x9bdc06a725c71235; 0xc19bf174cf692694;
    0xe49b69c19ef14ad2; 0xefbe4786384f25e3; 0x0fc19dc68b8cd5b5; 0x240ca1cc77ac9c65;
    0x2de92c6f592b0275; 0x4a7484aa6ea6e483; 0x5cb0a9dcbd41fbd4; 0x76f988da831153b5;
    0x983e5152ee66dfab; 0xa831c66d2db43210; 0xb00327c898fb213f; 0xbf597fc7beef0ee4;
    0xc6e00bf33da88fc2; 0xd5a79147930aa725; 0x06ca6351e003826f; 0x142929670a0e6e70;
    0x27b70a8546d22ffc; 0x2e1b21385c26c926; 0x4d2c6dfc5ac42aed; 0x53380d139d95b3df;
    0x650a73548baf63de; 0x766a0abb3c77b2a8; 0x81c2c92e47edaee6; 0x92722c851482353b;
    0xa2bfe8a14cf10364; 0xa81a664bbc423001; 0xc24b8b70d0f89791; 0xc76c51a30654be30;
    0xd192e819d6ef5218; 0xd69906245565a910; 0xf40e35855771202a; 0x106aa07032bbd1b8;
    0x19a4c116b8d2d0c8; 0x1e376c085141ab53; 0x2748774cdf8eeb99; 0x34b0bcb5e19b48a8;
    0x391c0cb3c5c95a63; 0x4ed8aa4ae3418acb; 0x5b9cca4f7763e373; 0x682e6ff3d6b2b8a3;
    0x748f82ee5defb2fc; 0x78a5636f43172f60; 0x84c87814a1f0ab72; 0x8cc702081a6439ec;
    0x90befffa23631e28; 0xa4506cebde82bde9; 0xbef9a3f7b2c67915; 0xc67178f2e372532b;
    0xca273eceea26619c; 0xd186b8c721c0c207; 0xeada7dd6cde0eb1e; 0xf57d4f7fee6ed178;
    0x06f067aa72176fba; 0x0a637dc5a2c898a6; 0x113f9804bef90dae; 0x1b710b35131c471b;
    0x28db77f523047d84; 0x32caab7b40c72493; 0x3c9ebe0a15c9bebc; 0x431d67c49c100d4c;
    0x4cc5d4becb3e42b6; 0x597f299cfc657e2a; 0x5fcb6fab3ad6faec; 0x6c44198c4a475817 ].

(** Initial hash value: the first 64 bits of the fractional parts of the
    square roots of the first eight primes. *)
Definition H0 : list Z :=
  [ 0x6a09e667f3bcc908; 0xbb67ae8584caa73b; 0x3c6ef372fe94f82b; 0xa54ff53a5f1d36f1;
    0x510e527fade682d1; 0x9b05688c2b3e6c1f; 0x1f83d9abfb41bd6b; 0x5be0cd19137e2179 ].

(** Big-endian conversions. *)
Definition be_word (bs : list Z) : Z :=
  fold_left (fun acc b => acc * 256 + b) bs 0.

Fixpoint be_bytes (n : nat) (x : Z) : list Z :=
  match n with
  | O => []
  | S n' => be_bytes n' (x / 256) ++ [x mod 256]
  end.

(** Padding: the bit 1, zero bits up to 896 modulo 1024, then the length
    of the message in bits on 128 bits. *)
Definition pad (msg : list Z) : list Z :=
  let len := Z.of_nat (List.length msg) in
  let zeros := Z.to_nat ((- (len + 17)) mod 128) in
  msg ++ [128] ++ repeat 0 zeros ++ be_bytes 16 (8 * len).

(** Cutting a list into pieces of [n] elements; [fuel] bounds the number
    of pieces, and the length of the list is always enough. *)
Fixpoint chunks {A : Type} (n fuel : nat) (l : list A) : list (list A) :=
  match fuel with
  | O => []
  | S fuel' =>
      match l with
      | [] => []
      | _ => firstn n l :: chunks n fuel' (skipn n l)
      end
  end.

Definition words_of_block (block : list Z) : list Z :=
  List.map be_word (chunks 8 16 block).

(** Message schedule, most recent word first. *)
Definition next_word (rev_w : list Z) : Z :=
  add64 (add64 (add64 (smallsigma1 (nth 1 rev_w 0)) (nth 6 rev_w 0))
               (smallsigma0 (nth 14 rev_w 0)))
        (nth 15 rev_w 0).

Fixpoint extend (n : nat) (rev_w : list Z) : list Z :=
  match n with
  | O => rev_w
  | S n' => extend n' (next_word rev_w :: rev_w)
  end.

Definition schedule (block : list Z) : list Z :=
  rev (extend 64 (rev (words_of_block block))).

Record state : Type := mkState {
  va : Z; vb : Z; vc : Z; vd : Z; ve : Z; vf : Z; vg : Z; vh : Z
}.

Definition round (s : state) (kw : Z * Z) : state :=
  let t1 := add64 (add64 (add64 (add64 (vh s) (bigsigma1 (ve s)))
                                (Ch (ve s) (vf s) (vg s)))
                         (fst kw))
                  (snd kw) in
  let t2 := add64 (bigsigma0 (va s)) (Maj (va s) (vb s) (vc s)) in
  mkState (add64 t1 t2) (va s) (vb s) (vc s)
          (add64 (vd s) t1) (ve s) (vf s) (vg s).

Definition compress (h : state) (block : list Z) : state :=
  let s := fold_left round (combine K (schedule block)) h in
  mkState (add64 (va h) (va s)) (add64 (vb h) (vb s))
          (add64 (vc h) (vc s)) (add64 (vd h) (vd s))
          (add64 (ve h) (ve s)) (add64 (vf h) (vf s))
          (add64 (vg h) (vg s)) (add64 (vh h) (vh s)).

Definition initial : state :=
  mkState (nth 0 H0 0) (nth 1 H0 0) (nth 2 H0 0) (nth 3 H0 0)
          (nth 4 H0 0) (nth 5 H0 0) (nth 6 H0 0) (nth 7 H0 0).

Definition digest_of_state (s : state) : list Z :=
  be_bytes 8 (va s) ++ be_bytes 8 (vb s) ++ be_bytes 8 (vc s)
  ++ be_bytes 8 (vd s) ++ be_bytes 8 (ve s) ++ be_bytes 8 (vf s)
  ++ be_bytes 8 (vg s) ++ be_bytes 8 (vh s).

Definition digest (msg : list Z) : list Z :=
  let padded := pad msg in
  digest_of_state
    (fold_left compress (chunks 128 (List.length padded) padded) initial).

End SHA512.

(** ** Base 32 and base 64 (RFC 4648), as [base64.b32encode] and
       [base64.b64encode] *)

Module Base64.

Definition b32_alphabet : list Z :=
  Py.bytes_of "ABCDEFGHIJKLMNOPQRSTUVWXYZ234567".
Definition b64_alphabet : list Z :=
  Py.bytes_of "ABCDEFGHIJKLMNOPQRSTUVWXYZabcdefghijklmnopqrstuvwxyz0123456789+/".

Definition pad_char : Z := 61. (* '=' *)

Definition b32_char (i : Z) : Z := nth (Z.to_nat i) b32_alphabet pad_char.
Definition b64_char (i : Z) : Z := nth (Z.to_nat i) b64_alphabet pad_char.

(** The eight characters of one 40-bit group. *)
Definition b32_group (b0 b1 b2 b3 b4 : Z) : list Z :=
  let c := SHA512.be_word [b0; b1; b2; b3; b4] in
  List.map (fun k => b32_char (Z.shiftr c (5 * k) mod 32))
           [7; 6; 5; 4; 3; 2; 1; 0].

Definition pad_tail (keep : nat) (group : list Z) : list Z :=
  firstn keep group ++ repeat pad_char (List.length group - keep).

Fixpoint b32encode (s : list Z) : list Z :=
  match s with
  | [] => []
  | [b0] => pad_tail 2 (b32_group b0 0 0 0 0)
  | [b0; b1] => pad_tail 4 (b32_group b0 b1 0 0 0)
  | [b0; b1; b2] => pad_tail 5 (b32_group b0 b1 b2 0 0)
  | [b0; b1; b2; b3] => pad_tail 7 (b32_group b0 b1 b2 b3 0)
  | b0 :: b1 :: b2 :: b3 :: b4 :: rest =>
      b32_group b0 b1 b2 b3 b4 ++ b32encode rest
  end.

(** The four characters of one 24-bit group. *)
Definition b64_group (b0 b1 b2 : Z) : list Z :=
  let c := SHA512.be_word [b0; b1; b2] in
  List.map (fun k => b64_char (Z.shiftr c (6 * k) mod 64)) [3; 2; 1; 0].

Fixpoint b64encode (s : list Z) : list Z :=
  match s with
  | [] => []
  | [b0] => pad_tail 2 (b64_group b0 0 0)
  | [b0; b1] => pad_tail 3 (b64_group b0 b1 0)
  | b0 :: b1 :: b2 :: rest => b64_group b0 b1 b2 ++ b64encode rest
  end.

End Base64.

(** ** class Password *)

(** The value of [special_char]: the caller passes a [bool]; a row read
    back from sqlite carries the integer the boolean was stored as. *)
Inductive flag : Type :=
  | PyBool (b : bool)
  | PyInt (n : Z).

(** Truth value, as tested by [if self.special_char:]. *)
Definition truthy (f : flag) : bool :=
  match f with
  | PyBool b => b
  | PyInt n => negb (n =? 0)
  end.

(** The integer a flag compares equal to ([True == 1], [False == 0]). *)
Definition int_of_flag (f : flag) : Z :=
  match f with
  | PyBool b => Z.b2z b
  | PyInt n => n
  end.

Record Password : Type := mkPassword {
  nickname : string;
  username : string;
  hostname : string;
  special_char : flag;
  base : Z;
  iteration : Z;
  hint : string;
  start : Z;
  finish : Z
}.

(** [Password.__eq__]: equality of the two [__dict__]s, field by field
    with Python's [==]. *)
Definition Password_eq (p q : Password) : bool :=
  String.eqb (nickname p) (nickname q)
  && String.eqb (username p) (username q)
  && String.eqb (hostname p) (hostname q)
  && (int_of_flag (special_char p) =? int_of_flag (special_char q))
  && (base p =? base q)
  && (iteration p =? iteration q)
  && String.eqb (hint p) (hint q)
  && (start p =? start q)
  && (finish p =? finish q).

(** [Password.translator = str.maketrans("acers", "@(*^$")] *)
Definition translator : list (ascii * ascii) :=
  Py.maketrans "acers" "@(*^$".

(** The local [encode_fn] after the two [if] statements: unbound unless
    the base is 32 or 64. *)
Definition encode_fn (self : Password) : option (list Z -> list Z) :=
  let fn := None in
  let fn := if base self =? 32 then Some Base64.b32encode else fn in
  let fn := if base self =? 64 then Some Base64.b64encode else fn in
  fn.

(** [proto_pw = user_proto_pw + self.username + '@' + self.hostname
               + str(self.iteration)] *)
Definition proto_pw (self : Password) (user_proto_pw : string)
  : result string :=
  bind (Py.str (iteration self)) (fun iteration_str =>
  Ok (user_proto_pw +:+ username self +:+ "@" +:+ hostname self
      +:+ iteration_str)).

(** [encode_fn(sha512(str(proto_pw).encode("utf-8")).digest())], after
    [proto_pw] is computed: the name [encode_fn] is looked up before its
    argument is evaluated. *)
Definition encoded_text (self : Password) (user_proto_pw : string)
  : result (list Z) :=
  bind (proto_pw self user_proto_pw) (fun proto_pw =>
  match encode_fn self with
  | None => Raise UnboundLocalError
  | Some fn =>
      bind (Py.encode proto_pw) (fun data =>
      Ok (fn (SHA512.digest data)))
  end).

(** [password_str[self.start:self.finish+1]] *)
Definition window (self : Password) (text : list Z) : list Z :=
  Py.slice (start self) (finish self + 1) text.

(** [.replace('b', 'B', 1).replace('d', 'D', 1).replace('z', 'Z', 1)] *)
Definition change_letters (s : string) : string :=
  Py.replace1 "z" "Z" (Py.replace1 "d" "D" (Py.replace1 "b" "B" s)).

Definition calculate_password (self : Password) (user_proto_pw : string)
  : result string :=
  bind (encoded_text self user_proto_pw) (fun password_str =>
  let password_str := Py.lower (window self password_str) in
  bind (Py.decode password_str) (fun password_str =>
  let password_str := change_letters password_str in
  let password_str :=
    if truthy (special_char self)
    then Py.translate translator password_str
    else password_str in
  Ok password_str)).

(** The two passwords of [test_key_password.py]. *)
Definition basic_password (special : bool) (iteration_num : Z) : Password :=
  mkPassword "nick" "user" "host" (PyBool special)
             (if special then 64 else 32) iteration_num "hint" 0 15.

(** ** The sqlite connection *)

(** A row of the table [passwords], columns in the order of the schema:
    nickname, username, hostname (text), special_char (boolean, stored as
    an integer), base, iteration (integer), hint (text), start, finish
    (integer).  The schema declares no key and no constraint.  What a
    column can hold is decided when a value is bound to a statement, see
    [Sqlite.bind_parameters]. *)
Record Row : Type := mkRow {
  col_nickname : string;
  col_username : string;
  col_hostname : string;
  col_special_char : Z;
  col_base : Z;
  col_iteration : Z;
  col_hint : string;
  col_start : Z;
  col_finish : Z
}.

(** A [PasswordDB] object.  [disk] is the committed table; [conn] is the
    connection: [None] once closed, otherwise the table as seen through
    the connection, uncommitted changes included.  Rows are kept in rowid
    order, the order in which a [select] without [order by] yields them
    and in which [insert] appends. *)
Record PasswordDB : Type := mkDB {
  disk : list Row;
  conn : option (list Row)
}.

(** Methods read and change the object and may raise. *)
Definition M (A : Type) : Type := PasswordDB -> result A * PasswordDB.

Definition ret {A : Type} (a : A) : M A := fun db => (Ok a, db).
Definition raise {A : Type} (e : exn) : M A := fun db => (Raise e, db).
Definition bindM {A B : Type} (m : M A) (k : A -> M B) : M B :=
  fun db =>
    match m db with
    | (Ok a, db') => k a db'
    | (Raise e, db') => (Raise e, db')
    end.

Notation "x <- m ;; k" := (bindM m (fun x => k))
  (at level 100, m at next level, right associativity).
Notation "m ;;; k" := (bindM m (fun _ => k))
  (at level 100, right associativity).

Module Sqlite.

(** [cur.execute("select ...")] followed by [cur.fetchall()] *)
Definition select_where (keep : Row -> bool) : M (list Row) :=
  fun db =>
    match conn db with
    | None => (Raise ProgrammingError, db)
    | Some rows => (Ok (List.filter keep rows), db)
    end.

(** Binding the parameters of [_SQL_INS_PASS].  sqlite3 binds them in
    order and raises at the first one it cannot bind: a [str] is bound as
    its UTF-8 encoding, which a lone surrogate does not have; an [int]
    (a [bool] is the [int] 0 or 1) is bound as an sqlite integer, which
    has 64 bits with sign. *)
Definition is_int64 (n : Z) : bool := (- 2 ^ 63 <=? n) && (n <? 2 ^ 63).

Definition bind_text (s : string) : result unit :=
  bind (Py.encode s) (fun _ => Ok tt).

Definition bind_int (n : Z) : result unit :=
  if is_int64 n then Ok tt else Raise OverflowError.

Definition bind_parameters (r : Row) : result unit :=
  bind (bind_text (col_nickname r)) (fun _ =>
  bind (bind_text (col_username r)) (fun _ =>
  bind (bind_text (col_hostname r)) (fun _ =>
  bind (bind_int (col_special_char r)) (fun _ =>
  bind (bind_int (col_base r)) (fun _ =>
  bind (bind_int (col_iteration r)) (fun _ =>
  bind (bind_text (col_hint r)) (fun _ =>
  bind (bind_int (col_start r)) (fun _ =>
  bind_int (col_finish r))))))))).

(** [cur.execute("insert into passwords values(?,?,?,?,?,?,?,?,?)", r)]:
    the connection is looked at first, then the parameters are bound;
    nothing is inserted when a parameter is refused. *)
Definition insert (r : Row) : M unit :=
  fun db =>
    match conn db with
    | None => (Raise ProgrammingError, db)
    | Some rows =>
        match bind_parameters r with
        | Ok _ => (Ok tt, mkDB (disk db) (Some (rows ++ [r])))
        | Raise e => (Raise e, db)
        end
    end.

(** [cur.execute("delete from passwords where ...")] *)
Definition delete_where (drop : Row -> bool) : M unit :=
  fun db =>
    match conn db with
    | None => (Raise ProgrammingError, db)
    | Some rows =>
        (Ok tt,
         mkDB (disk db) (Some (List.filter (fun r => negb (drop r)) rows)))
    end.

(** [conn.commit()] *)
Definition commit : M unit :=
  fun db =>
    match conn db with
    | None => (Raise ProgrammingError, db)
    | Some rows => (Ok tt, mkDB rows (Some rows))
    end.

(** [conn.close()]: what is not committed is lost; closing a closed
    connection does nothing. *)
Definition close : M unit :=
  fun db => (Ok tt, mkDB (disk db) None).

End Sqlite.

(** ** class PasswordDB *)

(** The parameters of [_SQL_INS_PASS]; sqlite3 stores a [bool] as 0 or 1. *)
Definition row_of_Password (pw_obj : Password) : Row :=
  mkRow (nickname pw_obj) (username pw_obj) (hostname pw_obj)
        (int_of_flag (special_char pw_obj)) (base pw_obj)
        (iteration pw_obj) (hint pw_obj) (start pw_obj) (finish pw_obj).

(** [Password( *row )] *)
Definition Password_of_row (row : Row) : Password :=
  mkPassword (col_nickname row) (col_username row) (col_hostname row)
             (PyInt (col_special_char row)) (col_base row)
             (col_iteration row) (col_hint row) (col_start row)
             (col_finish row).

(** [where nickname = ?], for a nickname that can be bound to the
    statement. *)
Definition has_nickname (nick : string) (r : Row) : bool :=
  String.eqb (col_nickname r) nick.

(** [sorted(l)] on a list of [str]. *)
Fixpoint insert_sorted (x : string) (l : list string) : list string :=
  match l with
  | [] => [x]
  | y :: t => if String.leb x y then x :: y :: t else y :: insert_sorted x t
  end.

Definition sorted (l : list string) : list string :=
  fold_right insert_sorted [] l.

(** [{row[0]: Password( *row ) for row in rows}]: rows are taken in order,
    a later row with the same key replaces the value of an earlier one. *)
Definition dict_of_rows (rows : list Row) : gmap string Password :=
  fold_left (fun d row => <[col_nickname row := Password_of_row row]> d)
            rows ∅.

(** [PasswordDB(db_name, create_new_db)] on a file whose table holds
    [stored]. *)
Definition PasswordDB_init (stored : list Row) (create_new_db : bool)
  : PasswordDB :=
  if create_new_db then mkDB [] (Some []) else mkDB stored (Some stored).

Definition get_list_of_nicks : M (list string) :=
  rows <- Sqlite.select_where (fun _ => true) ;;
  ret (sorted (List.map col_nickname rows)).

Definition get_password_for_nick (nick : string) : M Password :=
  rows <- Sqlite.select_where (has_nickname nick) ;;
  match rows with
  | [] => raise IndexError
  | row :: _ => ret (Password_of_row row)
  end.

Definition get_all_password_objects : M (gmap string Password) :=
  rows <- Sqlite.select_where (fun _ => true) ;;
  ret (dict_of_rows rows).

Definition _run_create (pw_obj : Password) : M unit :=
  Sqlite.insert (row_of_Password pw_obj).

Definition _run_delete (nick : string) : M unit :=
  Sqlite.delete_where (has_nickname nick).

Definition create_new_password (pw_obj : Password) : M unit :=
  _run_create pw_obj ;;; Sqlite.commit.

Definition update_old_password (orig_nick : string) (pw_obj : Password)
  : M unit :=
  _run_delete orig_nick ;;; _run_create pw_obj ;;; Sqlite.commit.

(** The argument of [delete_password]: a nickname or a [Password]. *)
Inductive nickname_or_pw_obj : Type :=
  | ByNickname (nick : string)
  | ByPassword (pw_obj : Password).

Definition delete_password (arg : nickname_or_pw_obj) : M unit :=
  let nick :=
    match arg with
    | ByPassword pw_obj => nickname pw_obj
    | ByNickname nick => nick
    end in
  _run_delete nick ;;; Sqlite.commit.

Definition close_db : M unit :=
  Sqlite.commit ;;; Sqlite.close.

(** * Notions used in the statements *)

(** Bytes that are ASCII characters. *)
Definition is_ascii (b : Z) : Prop := 0 <= b <= 127.

(** [first_at c s i]: the first occurrence of [c] in [s] is at index [i]. *)
Definition first_at (c : ascii) (s : string) (i : nat) : bool :=
  match Py.find_char c s with
  | Some j => Nat.eqb j i
  | None => false
  end.

(** The order of [str]: byte-wise lexical, a proper prefix first. *)
Definition str_le (a b : string) : Prop := String.leb a b = true.


(** The first eighty primes, and the test that [k] is the first 64 bits of
    the fractional part of the [n]-th root of [p]. *)
Definition is_prime (p : nat) : bool :=
  (2 <=? p)%nat
  && forallb (fun d => negb (Nat.eqb (p mod d) 0)) (seq 2 (p - 2)).

Definition primes : list Z :=
  List.map Z.of_nat (List.filter is_prime (seq 0 410)).

Definition root_fraction (n p k : Z) : bool :=
  (0 <=? k) && (k <? 2 ^ 64)
  && existsb (fun r => let x := r * 2 ^ 64 + k in
                       (x ^ n <=? p * 2 ^ (64 * n))
                       && (p * 2 ^ (64 * n) <? (x + 1) ^ n))
             (List.map Z.of_nat (seq 0 32)).

(** An entry that sqlite can store: its text can be encoded and its
    integers are within the 64 bits of an sqlite integer. *)
Definition storable (e : Password) : bool :=
  Py.well_formed (nickname e) && Py.well_formed (username e)
  && Py.well_formed (hostname e)
  && Sqlite.is_int64 (int_of_flag (special_char e))
  && Sqlite.is_int64 (base e) && Sqlite.is_int64 (iteration e)
  && Py.well_formed (hint e)
  && Sqlite.is_int64 (start e) && Sqlite.is_int64 (finish e).

(** An empty store and two entries, for the examples below. *)
Definition empty_db : PasswordDB := PasswordDB_init [] true.

Definition alice : Password :=
  mkPassword "alice" "al" "example.org" (PyBool false) 32 1 "first" 0 15.

Definition bob : Password :=
  mkPassword "bob" "bobby" "example.com" (PyBool true) 64 2 "second" 0 15.

Definition alice_bob_db : PasswordDB :=
  snd (create_new_password alice (snd (create_new_password bob empty_db))).

Definition carol : Password :=
  mkPassword "carol" "al" "example.org" (PyBool false) 32 2 "renamed" 0 15.

Definition alice2 : Password :=
  mkPassword "alice" "alice" "example.net" (PyBool true) 64 3 "again" 2 20.

(** Entries with an iteration of 2^63, one more than an sqlite integer
    holds. *)
Definition dave : Password :=
  mkPassword "dave" "dave" "example.org" (PyBool false) 32 (2 ^ 63)
             "large" 0 15.

Definition alice3 : Password :=
  mkPassword "alice" "al" "example.org" (PyBool false) 32 (2 ^ 63)
             "large" 0 15.

(** The text that [calculate_password] hashes, when the iteration is
    within the digits that [str] converts. *)
Definition hashed_text (self : Password) (user_proto_pw : string) : string :=
  user_proto_pw +:+ username self +:+ "@" +:+ hostname self
  +:+ Py.str_of_int (iteration self).

(** The [str] that holds the lone surrogate U+D800. *)
Definition lone_surrogate : string :=
  string_of_list_ascii (List.map Py.ascii_of_byte [237; 160; 128]).


(** An entry whose window runs past the end of the 104 characters. *)
Definition late_window : Password :=
  mkPassword "nick" "user" "host" (PyBool false) 32 1 "hint" 100 200.

Definition late_window_text : list Z :=
  Base64.b32encode (SHA512.digest (Py.bytes_of "user@host1")).

(** ** The rest of class Password *)

(** [Password.__ne__] *)
Definition Password_ne (p q : Password) : bool := negb (Password_eq p q).

(** [str(x)] for the value of [special_char]. *)
Definition str_of_flag (f : flag) : string :=
  match f with
  | PyBool true => "True"
  | PyBool false => "False"
  | PyInt n => Py.str_of_int n
  end.

(** [Password.__repr__]: [REPR.format( **self.__dict__ )].  The integers
    are written as their decimal numerals: those of an entry that was
    read from the table or typed at a prompt are within the digits that
    the interpreter converts. *)
Definition Password_repr (self : Password) : string :=
  "Password(" +:+ nickname self +:+ ", " +:+ username self +:+ ", "
  +:+ hostname self +:+ ", " +:+ str_of_flag (special_char self) +:+ ", "
  +:+ Py.str_of_int (base self) +:+ ", "
  +:+ Py.str_of_int (iteration self) +:+ ", " +:+ hint self +:+ ", "
  +:+ Py.str_of_int (start self) +:+ ", "
  +:+ Py.str_of_int (finish self) +:+ ")".

(** Number of occurrences of a character, and the ASCII capital letters. *)
Fixpoint count_char (c : ascii) (s : string) : nat :=
  match s with
  | EmptyString => O
  | String x t => ((if Ascii.eqb x c then 1 else 0) + count_char c t)%nat
  end.

Definition is_upper (c : ascii) : bool :=
  (65 <=? Py.byte_of_ascii c) && (Py.byte_of_ascii c <=? 90).

(** The nicknames of the rows seen through the connection, in row order. *)
Definition stored_nicknames (db : PasswordDB) : list string :=
  match conn db with
  | Some rows => List.map col_nickname rows
  | None => []
  end.

(** * The command line: [keymaster/cli/key_cli.py] *)

(** The functions of the command line read lines from the standard input
    and from the terminal ([getpass]), print, and change the two objects
    they are given: the database [pass_db] and the dictionary [pass_dic].
    A [world] holds what is left to read, what was written so far, and the
    two objects. *)

(** Where [getpass.getpass] reads.  It opens the controlling terminal
    [/dev/tty] and reads what is typed there; when the terminal cannot be
    opened it reads the standard input instead, after a warning when it
    cannot turn the echo off there (the standard input is not a terminal,
    or has no file descriptor). *)
Inductive terminal : Type :=
  | DevTty (typed : list string)
  | NoTty (echo_controlled : bool).

Inductive error : Type :=
  | EOFError            (* input() or getpass() with nothing left to read *)
  | KeyError            (* a key that the dictionary does not hold *)
  | OutOfFuel           (* a loop cut short by its bound in the model *)
  | FileNotFoundError   (* os.makedirs of the empty path *)
  | FileExistsError     (* os.makedirs of a path that exists *)
  | NotADirectoryError  (* os.makedirs below a file *)
  | OperationalError    (* sqlite3: unable to open the file, no such table *)
  | Lib (e : exn).      (* an exception of key_password *)

Inductive outcome (A : Type) : Type :=
  | Done (a : A)
  | Fail (e : error).

Arguments Done {A} a.
Arguments Fail {A} e.

Inductive event : Type :=
  | Print (text : string)       (* print(text) *)
  | PrintErr (text : string)    (* print(text, file=sys.stderr) *)
  | Prompt (text : string)      (* the prompt of input(text) *)
  | PromptTty (text : string)   (* the prompt of getpass, on /dev/tty *)
  | PromptErr (text : string)   (* the prompt of getpass, on sys.stderr *)
  | Warn (text : string).       (* warnings.warn(text, GetPassWarning) *)

Record world : Type := mkWorld {
  stdin : list string;
  tty : terminal;
  output : list event;
  pass_db : PasswordDB;
  pass_dic : gmap string Password
}.

(** The lines that [getpass] reads next. *)
Definition secret_lines (w : world) : list string :=
  match tty w with
  | DevTty typed => typed
  | NoTty _ => stdin w
  end.

Definition C (A : Type) : Type := world -> outcome A * world.

Definition retC {A : Type} (a : A) : C A := fun w => (Done a, w).
Definition failC {A : Type} (e : error) : C A := fun w => (Fail e, w).
Definition bindC {A B : Type} (m : C A) (k : A -> C B) : C B :=
  fun w =>
    match m w with
    | (Done a, w') => k a w'
    | (Fail e, w') => (Fail e, w')
    end.

Notation "x <~ m ;; k" := (bindC m (fun x => k))
  (at level 100, m at next level, right associativity).
Notation "m ;;~ k" := (bindC m (fun _ => k))
  (at level 100, right associativity).

Definition emit (e : event) : C unit :=
  fun w => (Done tt, mkWorld (stdin w) (tty w) (output w ++ [e])
                             (pass_db w) (pass_dic w)).

Definition print (text : string) : C unit := emit (Print text).
Definition print_err (text : string) : C unit := emit (PrintErr text).

(** [sys.stdin.readline()], without the newline; nothing left to read
    is [EOFError]. *)
Definition read_line : C string :=
  fun w =>
    match stdin w with
    | [] => (Fail EOFError, w)
    | line :: rest =>
        (Done line, mkWorld rest (tty w) (output w) (pass_db w) (pass_dic w))
    end.

(** [input(prompt)] *)
Definition input (prompt : string) : C string :=
  emit (Prompt prompt) ;;~ read_line.

(** [getpass.getpass(prompt)], as [getpass.unix_getpass] does it: on the
    controlling terminal when there is one; else on the standard error
    and the standard input, through [getpass.fallback_getpass] with its
    two warnings when the echo cannot be turned off. *)
Definition _GETPASS_WARN : string := "Can not control echo on the terminal.".
Definition _GETPASS_ECHOED : string := "Warning: Password input may be echoed.".

Definition getpass (prompt : string) : C string :=
  fun w =>
    match tty w with
    | DevTty typed =>
        (emit (PromptTty prompt) ;;~
         fun w =>
           match typed with
           | [] => (Fail EOFError, w)
           | line :: rest =>
               (Done line, mkWorld (stdin w) (DevTty rest) (output w)
                                   (pass_db w) (pass_dic w))
           end) w
    | NoTty echo_controlled =>
        ((if echo_controlled then retC tt
          else emit (Warn _GETPASS_WARN) ;;~ print_err _GETPASS_ECHOED) ;;~
         emit (PromptErr prompt) ;;~
         read_line) w
    end.

(** A method of [pass_db]. *)
Definition on_db {A : Type} (m : M A) : C A :=
  fun w =>
    match m (pass_db w) with
    | (Ok a, db') =>
        (Done a, mkWorld (stdin w) (tty w) (output w) db' (pass_dic w))
    | (Raise e, db') =>
        (Fail (Lib e), mkWorld (stdin w) (tty w) (output w) db' (pass_dic w))
    end.

(** A method of [Password]. *)
Definition of_result {A : Type} (r : result A) : C A :=
  match r with
  | Ok a => retC a
  | Raise e => failC (Lib e)
  end.

(** [pass_dic] itself, [pass_dic[key] = value], [pass_dic[key]] and
    [del pass_dic[key]]. *)
Definition get_dic : C (gmap string Password) :=
  fun w => (Done (pass_dic w), w).

Definition dic_set (key : string) (value : Password) : C unit :=
  fun w => (Done tt, mkWorld (stdin w) (tty w) (output w) (pass_db w)
                             (<[key := value]> (pass_dic w))).

Definition dic_get (key : string) : C Password :=
  fun w =>
    match pass_dic w !! key with
    | Some p => (Done p, w)
    | None => (Fail KeyError, w)
    end.

Definition dic_del (key : string) : C unit :=
  fun w =>
    match pass_dic w !! key with
    | Some _ => (Done tt, mkWorld (stdin w) (tty w) (output w) (pass_db w)
                                  (delete key (pass_dic w)))
    | None => (Fail KeyError, w)
    end.

(** [sorted(pass_dic.keys())] and [sorted(pass_dic.items())]; keys are
    distinct, so the items are ordered by key. *)
Definition sorted_keys (d : gmap string Password) : list string :=
  sorted (List.map fst (map_to_list d)).

Definition sorted_items (d : gmap string Password)
  : list (string * Password) :=
  omap (fun k => (fun p => (k, p)) <$> d !! k) (sorted_keys d).

(** [str.lower()], on the ASCII letters; the other characters are kept,
    which is enough to compare the first character with "y". *)
Fixpoint str_lower (s : string) : string :=
  match s with
  | EmptyString => EmptyString
  | String c t =>
      String (Py.ascii_of_byte (Py.lower_byte (Py.byte_of_ascii c)))
             (str_lower t)
  end.

(** [(answer + "n").lower()[0] == "y"] *)
Definition answered_yes (answer : string) : bool :=
  match String.get 0 (str_lower (answer +:+ "n")) with
  | Some c => Ascii.eqb c "y"
  | None => false
  end.

Definition _MSG_NO_PASS_DB : string :=
  "Password database doesn't already exist.".
Definition _MSG_CREATE_NEW : string := "Create a new one? (y/[n])".
Definition _MSG_ERROR_OPENING_DB : string :=
  "Error opening passwords db. Exiting.".
Definition _MSG_NICK_IN_USE : string :=
  "Nickname already in use. Please try again.".
Definition _MSG_NICK_NOT_FOUND (nick : string) : string :=
  "Nickname " +:+ nick +:+ " not found.".
Definition _MSG_SELECT_NICK : string := "Choose identity: ".
Definition _MSG_ENTER_PROTO_PW_1 : string :=
  "Proto-password (won't be displayed): ".
Definition _MSG_ENTER_PROTO_PW_2 : string :=
  "Again, please (to avoid mistakes): ".
Definition _MSG_PROTO_PW_MISMATCH : string :=
  "The two proto-passwords don't match.  Please try again.".

Section CommandLine.

(** [int(text)] inside [try ... except ValueError]: the integer, or
    [None] when [int] raises [ValueError].  The functions below are
    written for any such conversion. *)
Variable int_of_str : string -> option Z.

(** The loops below read at least one line in each iteration, so the
    number of lines left, plus one, bounds their iterations; [OutOfFuel]
    stands for a loop that would go beyond the bound. *)

(** [_read_default_int]: [default] is [None] or an integer. *)
Fixpoint read_default_int_loop (fuel : nat) (prompt : string)
         (default : option Z) : C Z :=
  match fuel with
  | O => failC OutOfFuel
  | S fuel' =>
      user_input <~ input prompt ;;
      let num := if String.eqb user_input "" then default
                 else int_of_str user_input in
      match num with
      | Some n => retC n
      | None => read_default_int_loop fuel' prompt default
      end
  end.

Definition _read_default_int (prompt : string) (default : option Z) : C Z :=
  fun w => read_default_int_loop (S (List.length (stdin w))) prompt default w.

(** [_create_pass_get_nick] *)
Fixpoint nick_in_use_loop (fuel : nat) (nick : string) : C string :=
  match fuel with
  | O => failC OutOfFuel
  | S fuel' =>
      d <~ get_dic ;;
      match d !! nick with
      | Some _ =>
          print_err _MSG_NICK_IN_USE ;;~
          nick' <~ input "Nickname: " ;;
          nick_in_use_loop fuel' nick'
      | None => retC nick
      end
  end.

Definition _create_pass_get_nick (nick : option string) : C string :=
  nick <~ match nick with
          | None => input "Nickname: "
          | Some nick => retC nick
          end ;;
  fun w => nick_in_use_loop (S (List.length (stdin w))) nick w.

(** [_create_pass_get_new_pass] *)
Definition _create_pass_get_new_pass (nick : option string) : C Password :=
  nick <~ _create_pass_get_nick nick ;;
  username <~ input "Username: " ;;
  hostname <~ input "Hostname: " ;;
  answer <~ input "special characters (y/[n]): " ;;
  let special_char := answered_yes answer in
  base <~ _read_default_int "Base ([32]/64): " (Some 32) ;;
  iteration <~ _read_default_int "Iteration [1]: " (Some 1) ;;
  hint <~ input "Hint: " ;;
  start_char <~ _read_default_int "Start char index (default: 0): " (Some 0) ;;
  end_char <~ _read_default_int "End char index (default: 15): " (Some 15) ;;
  retC (mkPassword nick username hostname (PyBool special_char) base
                   iteration hint start_char end_char).

(** [create_pass] *)
Definition create_pass (nick : option string) : C string :=
  new_pass <~ _create_pass_get_new_pass nick ;;
  dic_set (nickname new_pass) new_pass ;;~
  on_db (create_new_password new_pass) ;;~
  retC (nickname new_pass).

(** [list_pass] *)
Fixpoint print_numbered (i : Z) (items : list (string * Password)) : C unit :=
  match items with
  | [] => retC tt
  | pass_pair :: rest =>
      print (Py.str_of_int (i + 1) +:+ ": " +:+ Password_repr (snd pass_pair)) ;;~
      print_numbered (i + 1) rest
  end.

Definition list_pass (orig_nick : option string) : C unit :=
  d <~ get_dic ;;
  match orig_nick with
  | Some orig_nick =>
      match d !! orig_nick with
      | Some p => print (Password_repr p)
      | None => print_err (_MSG_NICK_NOT_FOUND orig_nick)
      end
  | None => print_numbered 0 (sorted_items d)
  end.

(** [_select_pass] *)
Fixpoint select_pos_loop (fuel : nat) (keys : list string) : C Z :=
  match fuel with
  | O => failC OutOfFuel
  | S fuel' =>
      pos <~ _read_default_int _MSG_SELECT_NICK None ;;
      if (0 <=? pos - 1) && (pos - 1 <? Z.of_nat (List.length keys))
      then retC pos
      else select_pos_loop fuel' keys
  end.

Definition select_from_list : C Password :=
  list_pass None ;;~
  d <~ get_dic ;;
  let keys := sorted_keys d in
  pos <~ (fun w => select_pos_loop (S (List.length (stdin w))) keys w) ;;
  match nth_error keys (Z.to_nat (pos - 1)) with
  | Some key => dic_get key
  | None => failC (Lib IndexError)
  end.

Definition _select_pass (nick : option string) : C Password :=
  match nick with
  | Some nick =>
      d <~ get_dic ;;
      match d !! nick with
      | Some p => retC p
      | None => print_err (_MSG_NICK_NOT_FOUND nick) ;;~ select_from_list
      end
  | None => select_from_list
  end.

(** [hint_pass] *)
Definition hint_pass (nick : option string) : C unit :=
  pass_obj <~ _select_pass nick ;;
  print ("Hint: " +:+ hint pass_obj).

(** [delete_pass] *)
Definition delete_pass (nick : option string) : C unit :=
  pass_obj <~ _select_pass nick ;;
  on_db (delete_password (ByPassword pass_obj)) ;;~
  dic_del (nickname pass_obj).

(** [update_pass] *)
Definition update_pass (nick : option string) : C string :=
  old_pw <~ _select_pass nick ;;
  print "About to update the following password object:" ;;~
  list_pass (Some (nickname old_pw)) ;;~
  print "Please enter new password information:" ;;~
  new_pass <~ _create_pass_get_new_pass nick ;;
  delete_pass (Some (nickname old_pw)) ;;~
  dic_set (nickname new_pass) new_pass ;;~
  on_db (create_new_password new_pass) ;;~
  retC (nickname new_pass).

(** [get_pass] *)
Definition _get_proto_password : C (option string) :=
  proto_pw1 <~ getpass _MSG_ENTER_PROTO_PW_1 ;;
  proto_pw2 <~ getpass _MSG_ENTER_PROTO_PW_2 ;;
  retC (if String.eqb proto_pw1 proto_pw2 then Some proto_pw1 else None).

Fixpoint proto_pw_loop (fuel : nat) (proto_pw : option string) : C string :=
  match fuel with
  | O => failC OutOfFuel
  | S fuel' =>
      match proto_pw with
      | Some proto_pw => retC proto_pw
      | None =>
          print_err _MSG_PROTO_PW_MISMATCH ;;~
          proto_pw <~ _get_proto_password ;;
          proto_pw_loop fuel' proto_pw
      end
  end.

Definition get_pass (nick : option string) : C unit :=
  pass_obj <~ _select_pass nick ;;
  proto_pw <~ _get_proto_password ;;
  proto_pw <~ (fun w => proto_pw_loop (S (List.length (secret_lines w)))
                                      proto_pw w) ;;
  password <~ of_result (calculate_password pass_obj proto_pw) ;;
  print ("Password: " +:+ password).

End CommandLine.
(** * Opening the database: [PasswordDB.get_data] *)

(** The file system, as far as [get_data] looks at it: the paths that
    exist, compared as they are written, each of them a directory or a
    file; a file may be a database that holds the table [passwords], and
    then has its rows.  Symbolic links and access rights are not
    represented: every directory can be written to. *)
Inductive node : Type :=
  | Dir
  | File (table : option (list Row)).

Record filesystem : Type := mkFs {
  fs_nodes : gmap string node
}.

Definition fs_paths (fs : filesystem) : gset string := dom (fs_nodes fs).

Definition fs_tables (fs : filesystem) : gmap string (list Row) :=
  omap (fun n => match n with
                 | File (Some stored) => Some stored
                 | _ => None
                 end) (fs_nodes fs).

Definition is_dir (fs : filesystem) (path : string) : bool :=
  match fs_nodes fs !! path with
  | Some Dir => true
  | _ => false
  end.

(** [os.path.dirname] for POSIX paths: the part up to the last slash,
    without the slashes that end it unless it consists of slashes only. *)
Fixpoint upto_last_slash (p : string) : string :=
  match p with
  | EmptyString => EmptyString
  | String c t =>
      match upto_last_slash t with
      | EmptyString => if Ascii.eqb c "/" then String c EmptyString
                       else EmptyString
      | r => String c r
      end
  end.

Fixpoint all_slashes (p : string) : bool :=
  match p with
  | EmptyString => true
  | String c t => Ascii.eqb c "/" && all_slashes t
  end.

Fixpoint rstrip_slashes (p : string) : string :=
  match p with
  | EmptyString => EmptyString
  | String c t =>
      match rstrip_slashes t with
      | EmptyString => if Ascii.eqb c "/" then EmptyString
                       else String c EmptyString
      | r => String c r
      end
  end.

Definition dirname (p : string) : string :=
  let head := upto_last_slash p in
  if negb (String.eqb head "") && negb (all_slashes head)
  then rstrip_slashes head
  else head.

(** [os.path.basename] for POSIX paths: the part after the last slash. *)
Fixpoint basename (p : string) : string :=
  match p with
  | EmptyString => EmptyString
  | String c t =>
      match upto_last_slash t with
      | EmptyString => if Ascii.eqb c "/" then t else String c t
      | _ => basename t
      end
  end.

(** The last part of a path names a file or a directory of its own: it
    is not empty (the path does not end with a slash) and is neither
    "." nor "..". *)
Definition is_name (s : string) : bool :=
  negb (String.eqb s "") && negb (String.eqb s ".")
  && negb (String.eqb s "..").

(** The directories above a path, nearest first, for [os.makedirs]. *)
Fixpoint ancestors (fuel : nat) (p : string) : list string :=
  match fuel with
  | O => []
  | S fuel' =>
      let d := dirname p in
      if String.eqb d "" || String.eqb d p then []
      else d :: ancestors fuel' d
  end.

(** The directories above a path that are missing, nearest first; [None]
    when the nearest one that exists is a file. *)
Fixpoint missing_above (fs : filesystem) (above : list string)
  : option (list string) :=
  match above with
  | [] => Some []
  | a :: rest =>
      match fs_nodes fs !! a with
      | Some Dir => Some []
      | Some (File _) => None
      | None => cons a <$> missing_above fs rest
      end
  end.

Definition add_dirs (dirs : list string) (fs : filesystem) : filesystem :=
  mkFs (fold_right (fun d nodes => <[d := Dir]> nodes) (fs_nodes fs) dirs).

(** The directory in which a path is created exists: the current
    directory for a path without directory part, the root, or a
    directory of the file system. *)
Definition parent_is_dir (fs : filesystem) (path : string) : bool :=
  let parent := dirname path in
  String.eqb parent "" || all_slashes parent || is_dir fs parent.

Section GetData.

(** The callbacks of [get_data] talk to the user; [U] is the state they
    work on. *)
Context {U : Type}.

Definition G (A : Type) : Type :=
  filesystem * U -> outcome A * (filesystem * U).

Definition retG {A : Type} (a : A) : G A := fun x => (Done a, x).
Definition failG {A : Type} (e : error) : G A := fun x => (Fail e, x).
Definition bindG {A B : Type} (m : G A) (k : A -> G B) : G B :=
  fun x =>
    match m x with
    | (Done a, x') => k a x'
    | (Fail e, x') => (Fail e, x')
    end.

Local Notation "x <@ m ;; k" := (bindG m (fun x => k))
  (at level 100, m at next level, right associativity).
Local Notation "m ;;@ k" := (bindG m (fun _ => k))
  (at level 100, right associativity).

Definition callback {A : Type} (f : U -> outcome A * U) : G A :=
  fun x =>
    match f (snd x) with
    | (r, u') => (r, (fst x, u'))
    end.

(** [os.path.exists(path)]; the empty path never exists. *)
Definition path_exists (path : string) : G bool :=
  fun x =>
    (Done (negb (String.eqb path "")
           && bool_decide (path ∈ fs_paths (fst x))), x).

(** [os.makedirs(path)]: the missing directories above [path] are made,
    the topmost first, and then [path] itself.  Nothing can be made below
    a file.  A path that ends in ".." is found to exist once the
    directories above it are made. *)
Definition makedirs (path : string) : G unit :=
  fun x =>
    let fs := fst x in
    if String.eqb path "" then (Fail FileNotFoundError, x)
    else if bool_decide (path ∈ fs_paths fs)
    then (Fail FileExistsError, x)
    else
      match missing_above fs (ancestors (String.length path) path) with
      | None => (Fail NotADirectoryError, x)
      | Some dirs =>
          if String.eqb (basename path) ".."
          then (Fail FileExistsError, (add_dirs dirs fs, snd x))
          else (Done tt, (add_dirs (path :: dirs) fs, snd x))
      end.

(** [sqlite3.connect(db_name)]: a file that exists is opened, a missing
    one is created, empty, in the directory that is to hold it; a
    directory cannot be opened, and nothing is created under a name that
    is not a file name or in a directory that does not exist. *)
Definition connect (db_name : string) : G unit :=
  fun x =>
    let fs := fst x in
    match fs_nodes fs !! db_name with
    | Some Dir => (Fail OperationalError, x)
    | Some (File _) => (Done tt, x)
    | None =>
        if is_name (basename db_name) && parent_is_dir fs db_name
        then (Done tt, (mkFs (<[db_name := File None]> (fs_nodes fs)), snd x))
        else (Fail OperationalError, x)
    end.

(** [PasswordDB(db_name, create_new_db)]: after [sqlite3.connect], with
    [create_new_db] the table is dropped and created again, empty, and
    committed.  On a file without the table the error of the first
    statement run on the object ("no such table") is raised here:
    [get_data] does nothing with the object in between. *)
Definition PasswordDB_new (db_name : string) (create_new_db : bool)
  : G PasswordDB :=
  connect db_name ;;@
  fun x =>
    if create_new_db then
      (Done (PasswordDB_init [] true),
       (mkFs (<[db_name := File (Some [])]> (fs_nodes (fst x))), snd x))
    else
      match fs_tables (fst x) !! db_name with
      | Some stored => (Done (PasswordDB_init stored false), x)
      | None => (Fail OperationalError, x)
      end.

(** [PasswordDB.get_data].  [opened] is [None] after the early
    [return None, None], and else the value of [pass_db], which the
    constructor never leaves [None]. *)
Definition get_data (ask_to_create_new_func : U -> outcome bool * U)
           (error_getting_db_func : U -> outcome unit * U)
           (db_name : string)
  : G (option (PasswordDB * gmap string Password)) :=
  let root := dirname db_name in
  found <@ path_exists db_name ;;
  opened <@ (if found then
               pass_db <@ PasswordDB_new db_name false ;;
               retG (Some (Some pass_db))
             else
               create_new_db <@ callback ask_to_create_new_func ;;
               if create_new_db then
                 root_found <@ path_exists root ;;
                 (if negb root_found then makedirs root else retG tt) ;;@
                 pass_db <@ PasswordDB_new db_name true ;;
                 retG (Some (Some pass_db))
               else retG None) ;;
  match opened with
  | None => retG None
  | Some None => callback error_getting_db_func ;;@ retG None
  | Some (Some pass_db) =>
      match get_all_password_objects pass_db with
      | (Ok passwords_dic, pass_db') => retG (Some (pass_db', passwords_dic))
      | (Raise e, _) => failG (Lib e)
      end
  end.

End GetData.

(** [_get_data] of the command line, with its two callbacks. *)
Definition ask_to_create_new : C bool :=
  print _MSG_NO_PASS_DB ;;~
  answer <~ input _MSG_CREATE_NEW ;;
  retC (answered_yes answer).

Definition error_getting_db : C unit :=
  print_err _MSG_ERROR_OPENING_DB.

Definition _get_data (db_path : string)
  : G (option (PasswordDB * gmap string Password)) :=
  get_data ask_to_create_new error_getting_db db_path.

(** Whether a line starts with y or Y. *)
Definition starts_with_y (line : string) : bool :=
  match line with
  | String c _ => Ascii.eqb c "y" || Ascii.eqb c "Y"
  | EmptyString => false
  end.

(** * Notions used in the statements about the command line *)

(** A path written plainly: along [os.path.split], every last part is a
    name of its own, down to a path without directory part or to the
    root.  Such a path has no part "." or ".." and no slash at its
    end. *)
Fixpoint plain (fuel : nat) (p : string) : bool :=
  match fuel with
  | O => false
  | S fuel' =>
      is_name (basename p)
      && (let d := dirname p in
          String.eqb d "" || all_slashes d || plain fuel' d)
  end.

Definition plain_path (p : string) : bool := plain (String.length p) p.

(** The directories above a path, nearest first, and a file system in
    which none of those that exist is a file. *)
Definition dirs_above (path : string) : list string :=
  let d := dirname path in d :: ancestors (String.length d) d.

Definition no_file_above (fs : filesystem) (path : string) : Prop :=
  Forall (fun a => a ∈ fs_paths fs -> is_dir fs a = true) (dirs_above path).

(** What [_read_default_int] makes of one line: the default for an empty
    line, else the integer that the line converts to, if any. *)
Definition int_or_default (int_of_str : string -> option Z)
           (default : option Z) (line : string) : option Z :=
  if String.eqb line "" then default else int_of_str line.

(** A world with another input and more output. *)
Definition reading (w : world) (lines : list string) (events : list event)
  : world :=
  mkWorld lines (tty w) (output w ++ events) (pass_db w) (pass_dic w).

(** The dictionary agrees with the store: the connection is open, the
    rows carry distinct nicknames, and the dictionary holds under each
    nickname a password equal to the one of its row, and nothing else. *)
Definition consistent (w : world) : Prop :=
  exists rows,
    conn (pass_db w) = Some rows
    /\ List.NoDup (List.map col_nickname rows)
    /\ forall k,
         match pass_dic w !! k, dict_of_rows rows !! k with
         | Some p, Some q => Password_eq p q = true
         | None, None => True
         | _, _ => False
         end.

(** A step that only reads and writes: it leaves the database and the
    dictionary as they are, fails with [EOFError] only, and its result
    satisfies [P], stated over the dictionary. *)
Definition same_store (w w' : world) : Prop :=
  pass_db w' = pass_db w /\ pass_dic w' = pass_dic w.

Definition keeps {A : Type} (m : C A)
           (P : gmap string Password -> A -> Prop) : Prop :=
  forall w,
    match m w with
    | (Done a, w') => same_store w w' /\ P (pass_dic w) a
    | (Fail e, w') => e = EOFError /\ same_store w w'
    end.

(** A conversion for the examples: the decimal numerals, with an optional
    sign.  [int] accepts more (blanks around the numeral, underscores
    between digits, the digits of other scripts); the statements below
    hold for any conversion. *)
Definition decimal_of_str (s : string) : option Z :=
  Z.of_int <$> NilZero.int_of_string s.

(** The inputs of [cli/tests/test_key_cli.py]. *)
Definition TEST_CREATE_INPUT : list string :=
  ["nick"; "user"; "host"; "y"; ""; ""; "hint"; ""; "20"].
Definition TEST_CREATE_INPUT_WITH_ERR : list string :=
  ["nick"; "user"; "host"; "y"; "abcd"; ""; ""; "hint"; ""; "20"].
Definition TEST2_CREATE_INPUT : list string :=
  ["nick2"; "user2"; "host2"; "y"; ""; ""; "hint2"; "5"; "15"].

Definition empty_world (lines : list string) : world :=
  mkWorld lines (DevTty []) [] (PasswordDB_init [] true) ∅.
(** The password and the state of [test_create]. *)
Definition test_password : Password :=
  mkPassword "nick" "user" "host" (PyBool true) 32 1 "hint" 0 20.

Definition test_world (lines typed : list string) : world :=
  mkWorld lines (DevTty typed) []
          (mkDB [row_of_Password test_password]
                (Some [row_of_Password test_password]))
          (<[nickname test_password := test_password]> ∅).

(** The world after [getpass] has read down to [left] and written
    [events], and what one call writes. *)
Definition secret_read (w : world) (left : list string)
           (events : list event) : world :=
  match tty w with
  | DevTty _ =>
      mkWorld (stdin w) (DevTty left) (output w ++ events)
              (pass_db w) (pass_dic w)
  | NoTty echo_controlled =>
      mkWorld left (NoTty echo_controlled) (output w ++ events)
              (pass_db w) (pass_dic w)
  end.

Definition getpass_events (t : terminal) (prompt : string) : list event :=
  match t with
  | DevTty _ => [PromptTty prompt]
  | NoTty true => [PromptErr prompt]
  | NoTty false =>
      [Warn _GETPASS_WARN; PrintErr _GETPASS_ECHOED; PromptErr prompt]
  end.

(** What the user types at the two proto-password prompts, attempt after
    attempt, what [get_pass] writes to ask once, and what it writes for
    each attempt that failed. *)
Definition typed_pairs (attempts : list (string * string)) : list string :=
  flat_map (fun ab => [fst ab; snd ab]) attempts.

Definition ask_events (t : terminal) : list event :=
  getpass_events t _MSG_ENTER_PROTO_PW_1
  ++ getpass_events t _MSG_ENTER_PROTO_PW_2.

Definition retry_events (t : terminal) (attempts : list (string * string))
  : list event :=
  flat_map (fun _ => PrintErr _MSG_PROTO_PW_MISMATCH :: ask_events t)
           attempts.
(** The lines that [list_pass(None, ...)] prints for the items, numbered
    from [i + 1]. *)
Fixpoint numbered_lines (i : Z) (items : list (string * Password))
  : list event :=
  match items with
  | [] => []
  | item :: rest =>
      Print (Py.str_of_int (i + 1) +:+ ": " +:+ Password_repr (snd item))
      :: numbered_lines (i + 1) rest
  end.

(** * Properties of the derivation *)

(** ** Known answers of the library functions *)

Lemma K_cube_roots :
  List.length primes = 80%nat
  /\ forallb (fun pk => root_fraction 3 (fst pk) (snd pk))
             (combine primes SHA512.K) = true
  /\ forallb (fun pk => root_fraction 2 (fst pk) (snd pk))
             (combine (firstn 8 primes) SHA512.H0) = true.
Proof. split; [|split]; vm_compute; reflexivity. Qed.

Example sha512_empty :
  SHA512.be_word (SHA512.digest [])
  = 0xcf83e1357eefb8bdf1542850d66d8007d620e4050b5715dc83f4a921d36ce9ce47d0d13c5d85f2b0ff8318d2877eec2f63b931bd47417a81a538327af927da3e.
Proof. vm_compute. reflexivity. Qed.

Example sha512_abc :
  SHA512.be_word (SHA512.digest (Py.bytes_of "abc"))
  = 0xddaf35a193617abacc417349ae20413112e6fa4e89a97ea20a9eeee64b55d39a2192992a274fc1a836ba3c23a3feebbd454d4423643ce80e2a9ac94fa54ca49f.
Proof. vm_compute. reflexivity. Qed.

(** Two blocks: 111 bytes still fit one block with the padding, 112 do
    not. *)
Example sha512_two_blocks :
  SHA512.be_word (SHA512.digest (repeat 97 111))
  = 0xfa9121c7b32b9e01733d034cfc78cbf67f926c7ed83e82200ef86818196921760b4beff48404df811b953828274461673c68d04e297b0eb7b2b4d60fc6b566a2
  /\ SHA512.be_word (SHA512.digest (repeat 97 112))
     = 0xc01d080efd492776a1c43bd23dd99d0a2e626d481e16782e75d54c2503b5dc32bd05f0f1ba33e568b88fd2d970929b719ecbb152f58f130a407c8830604b70ca
  /\ SHA512.be_word (SHA512.digest (repeat 97 128))
     = 0xb73d1929aa615934e61a871596b3f3b33359f42b8175602e89f7e06e5f658a243667807ed300314b95cacdd579f3e33abdfbe351909519a846d465c59582f321.
Proof. split; [|split]; vm_compute; reflexivity. Qed.

Example b32encode_rfc4648 :
  List.map (fun s => Py.decode (Base64.b32encode (Py.bytes_of s)))
           ["f"; "fo"; "foo"; "foob"; "fooba"; "foobar"]%string
  = List.map Ok ["MY======"; "MZXQ===="; "MZXW6==="; "MZXW6YQ=";
                 "MZXW6YTB"; "MZXW6YTBOI======"]%string.
Proof. vm_compute. reflexivity. Qed.

Example b64encode_rfc4648 :
  List.map (fun s => Py.decode (Base64.b64encode (Py.bytes_of s)))
           ["f"; "fo"; "foo"; "foob"; "fooba"; "foobar"]%string
  = List.map Ok ["Zg=="; "Zm8="; "Zm9v"; "Zm9vYg=="; "Zm9vYmE=";
                 "Zm9vYmFy"]%string.
Proof. vm_compute. reflexivity. Qed.

Example slice_examples :
  let l := [0; 1; 2; 3; 4; 5; 6; 7; 8; 9] in
  Py.slice (-3) 100 l = [7; 8; 9]
  /\ Py.slice 2 (-2) l = [2; 3; 4; 5; 6; 7]
  /\ Py.slice (-100) 3 l = [0; 1; 2]
  /\ Py.slice 5 2 l = []
  /\ Py.slice 12 20 l = []
  /\ Py.slice 3 4 l = [3].
Proof. vm_compute. tauto. Qed.

Example str_of_int_examples :
  Py.str_of_int 0 = "0"%string
  /\ Py.str_of_int 12 = "12"%string
  /\ Py.str_of_int (-7) = "-7"%string.
Proof. vm_compute. tauto. Qed.

(** The encoded texts behind the two passwords of the test suite. *)
Example encoded_text_examples :
  bind (encoded_text (basic_password false 1) "") Py.decode
  = Ok "5WJDNWDYJ4UXZD6GFX7AFJVXFHE5YPVEXF6WNN2TAJHXM5OFOZ2KMQRPG56RKTTXTGJEBRRY2GTSFZ2HSAV3KOBLKWGK6OB7BVD63HY="%string
  /\ bind (encoded_text (basic_password true 2) "") Py.decode
     = Ok "SIfz6kVAp9xMyfc1hr5omodIKprh2E4H/AvsPZd1kux83FWyR8fub32rdBKACxgNGMpC6cXObflVZACLIAfmnA=="%string.
Proof. split; vm_compute; reflexivity. Qed.

(** ** Bytes that stay within ASCII *)

Lemma utf8_valid_ascii (l : list Z) :
  Forall is_ascii l -> Py.utf8_valid l = true.
Proof.
  induction 1 as [|b l Hb _ IH]; [reflexivity|].
  unfold is_ascii in Hb. simpl.
  replace (0 <=? b) with true by (symmetry; apply Z.leb_le; lia).
  replace (b <=? 127) with true by (symmetry; apply Z.leb_le; lia).
  exact IH.
Qed.

Lemma lower_byte_ascii (b : Z) : is_ascii b -> is_ascii (Py.lower_byte b).
Proof.
  unfold is_ascii, Py.lower_byte. intros Hb.
  destruct (65 <=? b) eqn:H1; destruct (b <=? 90) eqn:H2; simpl; try lia.
Qed.

Lemma lower_ascii (l : list Z) : Forall is_ascii l -> Forall is_ascii (Py.lower l).
Proof.
  unfold Py.lower. induction 1; simpl; constructor; auto using lower_byte_ascii.
Qed.

Lemma Forall_firstn_list {A : Type} (P : A -> Prop) (n : nat) (l : list A) :
  Forall P l -> Forall P (firstn n l).
Proof.
  intros H. revert n. induction H; intros [|n]; simpl; constructor; auto.
Qed.

Lemma Forall_skipn_list {A : Type} (P : A -> Prop) (n : nat) (l : list A) :
  Forall P l -> Forall P (skipn n l).
Proof.
  intros H. revert n. induction H; intros [|n]; simpl; auto.
Qed.

Lemma slice_Forall {A : Type} (P : A -> Prop) (lo hi : Z) (l : list A) :
  Forall P l -> Forall P (Py.slice lo hi l).
Proof.
  intros H. unfold Py.slice.
  apply Forall_firstn_list, Forall_skipn_list, H.
Qed.

Lemma nth_Forall_default (P : Z -> Prop) (l : list Z) (d : Z) (n : nat) :
  Forall P l -> P d -> P (nth n l d).
Proof.
  intros Hl Hd. destruct (nth_in_or_default n l d) as [Hin | ->]; [|exact Hd].
  rewrite Forall_forall in Hl. apply Hl.
  apply list_elem_of_In. exact Hin.
Qed.

Lemma pad_char_ascii : is_ascii Base64.pad_char.
Proof. unfold is_ascii, Base64.pad_char. lia. Qed.

Lemma b32_char_ascii (i : Z) : is_ascii (Base64.b32_char i).
Proof.
  unfold Base64.b32_char. apply nth_Forall_default; [|apply pad_char_ascii].
  unfold is_ascii. vm_compute. repeat constructor; discriminate.
Qed.

Lemma b64_char_ascii (i : Z) : is_ascii (Base64.b64_char i).
Proof.
  unfold Base64.b64_char. apply nth_Forall_default; [|apply pad_char_ascii].
  unfold is_ascii. vm_compute. repeat constructor; discriminate.
Qed.

Lemma pad_tail_ascii (keep : nat) (g : list Z) :
  Forall is_ascii g -> Forall is_ascii (Base64.pad_tail keep g).
Proof.
  intros H. unfold Base64.pad_tail. apply Forall_app. split.
  - apply Forall_firstn_list, H.
  - apply Forall_forall. intros x Hx. apply list_elem_of_In in Hx.
    apply repeat_spec in Hx. subst x. apply pad_char_ascii.
Qed.

Lemma b32_group_ascii (b0 b1 b2 b3 b4 : Z) :
  Forall is_ascii (Base64.b32_group b0 b1 b2 b3 b4).
Proof.
  unfold Base64.b32_group. simpl List.map.
  repeat constructor; apply b32_char_ascii.
Qed.

Lemma b64_group_ascii (b0 b1 b2 : Z) :
  Forall is_ascii (Base64.b64_group b0 b1 b2).
Proof.
  unfold Base64.b64_group. simpl List.map.
  repeat constructor; apply b64_char_ascii.
Qed.

Lemma b32encode_ascii (s : list Z) : Forall is_ascii (Base64.b32encode s).
Proof.
  assert (H : forall n s, (List.length s <= n)%nat ->
                          Forall is_ascii (Base64.b32encode s)).
  { clear s. induction n as [|n IH]; intros s Hn.
    - destruct s; [constructor | simpl in Hn; lia].
    - destruct s as [|b0 [|b1 [|b2 [|b3 [|b4 rest]]]]];
        try (apply pad_tail_ascii, b32_group_ascii); [constructor|].
      change (Forall is_ascii
                (Base64.b32_group b0 b1 b2 b3 b4 ++ Base64.b32encode rest)).
      apply Forall_app. split; [apply b32_group_ascii|].
      apply IH. simpl in Hn. lia. }
  apply (H (List.length s)). lia.
Qed.

Lemma b64encode_ascii (s : list Z) : Forall is_ascii (Base64.b64encode s).
Proof.
  assert (H : forall n s, (List.length s <= n)%nat ->
                          Forall is_ascii (Base64.b64encode s)).
  { clear s. induction n as [|n IH]; intros s Hn.
    - destruct s; [constructor | simpl in Hn; lia].
    - destruct s as [|b0 [|b1 [|b2 rest]]];
        try (apply pad_tail_ascii, b64_group_ascii); [constructor|].
      change (Forall is_ascii
                (Base64.b64_group b0 b1 b2 ++ Base64.b64encode rest)).
      apply Forall_app. split; [apply b64_group_ascii|].
      apply IH. simpl in Hn. lia. }
  apply (H (List.length s)). lia.
Qed.

(** The text handed to [decode] is always decodable. *)
Lemma decode_lower_window (self : Password) (text : list Z) :
  Forall is_ascii text ->
  exists s, Py.decode (Py.lower (window self text)) = Ok s.
Proof.
  intros H. unfold Py.decode.
  rewrite utf8_valid_ascii; [eauto|].
  apply lower_ascii, slice_Forall, H.
Qed.

Lemma encode_fn_ascii (self : Password) (fn : list Z -> list Z) (l : list Z) :
  encode_fn self = Some fn -> Forall is_ascii (fn l).
Proof.
  unfold encode_fn.
  destruct (base self =? 64); [intros [= <-]; apply b64encode_ascii|].
  destruct (base self =? 32); [intros [= <-]; apply b32encode_ascii|].
  discriminate.
Qed.

(** ** The two passwords of the test suite *)

(** C1: the entry (user, host, no special characters, base 32,
    iteration 1, window 0..15) with the empty proto-password derives
    "5wjDnwdyj4uxZd6g", and the entry (user, host, special characters,
    base 64, iteration 2, window 0..15) derives "$ifZ6kv@p9xmyf(1";
    nickname and hint play no part. *)
Theorem calculate_password_test_vectors (nick hnt : string) :
  calculate_password
    (mkPassword nick "user" "host" (PyBool false) 32 1 hnt 0 15) ""
  = Ok "5wjDnwdyj4uxZd6g"%string
  /\ calculate_password
       (mkPassword nick "user" "host" (PyBool true) 64 2 hnt 0 15) ""
     = Ok "$ifZ6kv@p9xmyf(1"%string.
Proof. split; vm_compute; reflexivity. Qed.

(** ** Totality on the bases 32 and 64 *)

Lemma encode_fn_selected (self : Password) :
  base self = 32 \/ base self = 64 <-> encode_fn self <> None.
Proof.
  unfold encode_fn. split.
  - intros [H | H]; rewrite H; simpl; discriminate.
  - destruct (base self =? 64) eqn:H64; [apply Z.eqb_eq in H64; auto|].
    destruct (base self =? 32) eqn:H32; [apply Z.eqb_eq in H32; auto|].
    intros H. contradiction H. reflexivity.
Qed.

(** *** Strings that can be encoded *)

Lemma utf8_valid_app (l1 l2 : list Z) :
  Py.utf8_valid l1 = true -> Py.utf8_valid l2 = true ->
  Py.utf8_valid (l1 ++ l2) = true.
Proof.
  intros H1 H2. remember (List.length l1) as n eqn:Hn.
  revert l1 Hn H1. induction n as [n IH] using lt_wf_ind. intros l1 Hn H1.
  destruct l1 as [|b0 t0]; [exact H2|].
  cbn [app]. cbn [Py.utf8_valid] in H1 |- *.
  destruct ((0 <=? b0) && (b0 <=? 127)).
  { apply (IH (List.length t0)); [subst n; simpl; lia | reflexivity | exact H1]. }
  destruct t0 as [|b1 t1]; [discriminate H1|]. cbn [app].
  destruct ((194 <=? b0) && (b0 <=? 223)).
  { apply andb_true_iff in H1 as [Hc Ht]. rewrite Hc. cbn [andb].
    apply (IH (List.length t1)); [subst n; simpl; lia | reflexivity | exact Ht]. }
  destruct t1 as [|b2 t2]; [discriminate H1|]. cbn [app].
  destruct ((224 <=? b0) && (b0 <=? 239)).
  { apply andb_true_iff in H1 as [Hc Ht]. rewrite Hc. cbn [andb].
    apply (IH (List.length t2)); [subst n; simpl; lia | reflexivity | exact Ht]. }
  destruct t2 as [|b3 t3]; [discriminate H1|]. cbn [app].
  apply andb_true_iff in H1 as [Hc Ht]. rewrite Hc. cbn [andb].
  apply (IH (List.length t3)); [subst n; simpl; lia | reflexivity | exact Ht].
Qed.

Lemma bytes_of_append (a b : string) :
  Py.bytes_of (a +:+ b) = Py.bytes_of a ++ Py.bytes_of b.
Proof.
  unfold Py.bytes_of. induction a as [|c a IH]; [reflexivity|].
  change (String c a +:+ b) with (String c (a +:+ b)).
  cbn [list_ascii_of_string List.map app]. rewrite IH. reflexivity.
Qed.

Lemma well_formed_append (a b : string) :
  Py.well_formed a = true -> Py.well_formed b = true ->
  Py.well_formed (a +:+ b) = true.
Proof.
  unfold Py.well_formed. rewrite bytes_of_append. apply utf8_valid_app.
Qed.

Lemma is_ascii_digit (c : ascii) :
  In c ["0"; "1"; "2"; "3"; "4"; "5"; "6"; "7"; "8"; "9"; "-"]%char ->
  is_ascii (Py.byte_of_ascii c).
Proof.
  intros H. repeat (destruct H as [<- | H]; [vm_compute; split; discriminate|]).
  destruct H.
Qed.

Lemma string_of_uint_digits (d : Decimal.uint) :
  Forall is_ascii (Py.bytes_of (NilEmpty.string_of_uint d)).
Proof.
  unfold Py.bytes_of.
  induction d; cbn [NilEmpty.string_of_uint list_ascii_of_string List.map];
    constructor; try assumption; apply is_ascii_digit; simpl; tauto.
Qed.

Lemma string_of_uint_ascii (d : Decimal.uint) :
  Forall is_ascii (Py.bytes_of (NilZero.string_of_uint d)).
Proof.
  destruct d; try apply string_of_uint_digits.
  constructor; [apply is_ascii_digit; simpl; tauto | constructor].
Qed.

Lemma well_formed_str_of_int (n : Z) : Py.well_formed (Py.str_of_int n) = true.
Proof.
  unfold Py.well_formed, Py.str_of_int. apply utf8_valid_ascii.
  destruct (Z.to_int n) as [d | d]; cbn [NilZero.string_of_int].
  - apply string_of_uint_ascii.
  - unfold Py.bytes_of. cbn [list_ascii_of_string List.map].
    constructor; [apply is_ascii_digit; simpl; tauto|].
    apply string_of_uint_ascii.
Qed.

(** The text that is hashed can be encoded when its three free parts
    can. *)
Lemma hashed_text_well_formed (self : Password) (user_proto_pw : string) :
  Py.well_formed user_proto_pw = true ->
  Py.well_formed (username self) = true ->
  Py.well_formed (hostname self) = true ->
  Py.well_formed (hashed_text self user_proto_pw) = true.
Proof.
  intros Hp Hu Hh. unfold hashed_text.
  repeat apply well_formed_append; try assumption;
    [reflexivity | apply well_formed_str_of_int].
Qed.

Lemma proto_pw_within (self : Password) (user_proto_pw : string) :
  Py.within_str_digits (iteration self) = true ->
  proto_pw self user_proto_pw = Ok (hashed_text self user_proto_pw).
Proof. intros H. unfold proto_pw, Py.str. rewrite H. reflexivity. Qed.

Lemma proto_pw_Ok (self : Password) (user_proto_pw text : string) :
  proto_pw self user_proto_pw = Ok text ->
  Py.within_str_digits (iteration self) = true
  /\ text = hashed_text self user_proto_pw.
Proof.
  unfold proto_pw, Py.str.
  destruct (Py.within_str_digits (iteration self)); [|discriminate].
  intros [= <-]. auto.
Qed.

Lemma calculate_password_returns (self : Password) (user_proto_pw : string) :
  base self = 32 \/ base self = 64 ->
  Py.within_str_digits (iteration self) = true ->
  Py.well_formed (hashed_text self user_proto_pw) = true ->
  exists s, calculate_password self user_proto_pw = Ok s.
Proof.
  intros Hbase Hdig Hwf. apply encode_fn_selected in Hbase.
  unfold calculate_password, encoded_text.
  rewrite (proto_pw_within _ _ Hdig). cbn [bind]. unfold Py.encode.
  destruct (encode_fn self) as [fn|] eqn:Hfn; [|contradiction].
  rewrite Hwf. cbn [bind].
  destruct (decode_lower_window self
              (fn (SHA512.digest
                     (Py.bytes_of (hashed_text self user_proto_pw)))))
    as [s Hs]; [eapply encode_fn_ascii, Hfn|].
  rewrite Hs. simpl. eauto.
Qed.

(** C2, as stated, fails: the base is 32, the proto-password is a string,
    and [calculate_password] raises, at the encoding of the text to hash:
    the proto-password holds a lone surrogate, which UTF-8 cannot
    encode.  It also raises, at [str(self.iteration)], for an iteration
    of 4301 digits. *)
Lemma calculate_password_lone_surrogate :
  base (basic_password false 1) = 32
  /\ calculate_password (basic_password false 1) lone_surrogate
     = Raise UnicodeEncodeError
  /\ (~ exists s,
         calculate_password (basic_password false 1) lone_surrogate = Ok s)
  /\ calculate_password (basic_password false (10 ^ 4300)) ""
     = Raise ValueError.
Proof.
  split; [reflexivity|].
  assert (H : calculate_password (basic_password false 1) lone_surrogate
              = Raise UnicodeEncodeError) by (vm_compute; reflexivity).
  split; [exact H|]. split; [|vm_compute; reflexivity].
  intros [s Hs]. rewrite H in Hs. discriminate Hs.
Qed.

(** C2, amended: for every entry whose base is 32 or 64 and every
    proto-password, when the proto-password, the user name and the host
    name can be encoded as UTF-8 (they hold no lone surrogate) and the
    iteration is within the digits that [str] converts, an encoding
    function is selected and [calculate_password] returns a string: no
    exception is raised, in particular not the one of the unbound
    [encode_fn]. *)
Theorem calculate_password_total (self : Password) (user_proto_pw : string) :
  base self = 32 \/ base self = 64 ->
  Py.well_formed user_proto_pw = true ->
  Py.well_formed (username self) = true ->
  Py.well_formed (hostname self) = true ->
  Py.within_str_digits (iteration self) = true ->
  encode_fn self <> None
  /\ exists s, calculate_password self user_proto_pw = Ok s.
Proof.
  intros Hbase Hp Hu Hh Hdig. split; [apply encode_fn_selected, Hbase|].
  apply calculate_password_returns; [exact Hbase | exact Hdig |].
  apply hashed_text_well_formed; assumption.
Qed.

Lemma calculate_password_total_witness :
  encode_fn (basic_password true 7) <> None
  /\ exists s, calculate_password (basic_password true 7) "secret" = Ok s.
Proof.
  apply (calculate_password_total (basic_password true 7) "secret").
  - right. reflexivity.
  - reflexivity.
  - reflexivity.
  - reflexivity.
  - reflexivity.
Defined.

(** Outside the two bases the method raises at the use of [encode_fn]. *)
Lemma calculate_password_unbound (self : Password) (user_proto_pw : string) :
  base self <> 32 -> base self <> 64 ->
  Py.within_str_digits (iteration self) = true ->
  calculate_password self user_proto_pw = Raise UnboundLocalError.
Proof.
  intros H32 H64 Hdig. unfold calculate_password, encoded_text, encode_fn.
  rewrite (proto_pw_within _ _ Hdig). cbn [bind].
  apply Z.eqb_neq in H32, H64. rewrite H32, H64. reflexivity.
Qed.

(** ** The window *)

Lemma slice_length {A : Type} (lo hi : Z) (l : list A) :
  0 <= lo <= hi ->
  Z.of_nat (List.length (Py.slice lo hi l))
  = Z.max 0 (Z.min hi (Z.of_nat (List.length l)) - lo).
Proof.
  intros H. unfold Py.slice, Py.clamp_index.
  rewrite length_firstn, length_skipn.
  destruct (lo <? 0) eqn:Hlo; [apply Z.ltb_lt in Hlo; lia|].
  destruct (hi <? 0) eqn:Hhi; [apply Z.ltb_lt in Hhi; lia|].
  lia.
Qed.

(** The encoded text of a 64-byte digest: 104 characters in base 32 and
    88 in base 64, padding included. *)
Lemma length_be_bytes (n : nat) (x : Z) :
  List.length (SHA512.be_bytes n x) = n.
Proof.
  revert x. induction n as [|n IH]; intros x; [reflexivity|].
  simpl. rewrite length_app, IH. simpl. lia.
Qed.

Lemma length_digest (msg : list Z) : List.length (SHA512.digest msg) = 64%nat.
Proof.
  unfold SHA512.digest, SHA512.digest_of_state.
  rewrite !length_app, !length_be_bytes. reflexivity.
Qed.

Lemma length_pad_tail (keep : nat) (g : list Z) :
  (keep <= List.length g)%nat ->
  List.length (Base64.pad_tail keep g) = List.length g.
Proof.
  intros H. unfold Base64.pad_tail.
  rewrite length_app, length_firstn, repeat_length. lia.
Qed.

Lemma length_b32encode (s : list Z) :
  List.length (Base64.b32encode s) = (8 * ((List.length s + 4) / 5))%nat.
Proof.
  assert (H : forall n s, (List.length s <= n)%nat ->
    List.length (Base64.b32encode s) = (8 * ((List.length s + 4) / 5))%nat).
  { clear s. induction n as [|n IH]; intros s Hn.
    - destruct s; [reflexivity | simpl in Hn; lia].
    - destruct s as [|b0 [|b1 [|b2 [|b3 [|b4 rest]]]]]; try reflexivity.
      change (List.length
                (Base64.b32_group b0 b1 b2 b3 b4 ++ Base64.b32encode rest)
              = (8 * ((S (S (S (S (S (List.length rest))))) + 4) / 5))%nat).
      rewrite length_app, IH by (simpl in Hn; lia).
      change (List.length (Base64.b32_group b0 b1 b2 b3 b4)) with 8%nat.
      replace (S (S (S (S (S (List.length rest))))) + 4)%nat
        with (1 * 5 + (List.length rest + 4))%nat by lia.
      rewrite Nat.div_add_l by lia. lia. }
  apply (H (List.length s)). lia.
Qed.

Lemma length_b64encode (s : list Z) :
  List.length (Base64.b64encode s) = (4 * ((List.length s + 2) / 3))%nat.
Proof.
  assert (H : forall n s, (List.length s <= n)%nat ->
    List.length (Base64.b64encode s) = (4 * ((List.length s + 2) / 3))%nat).
  { clear s. induction n as [|n IH]; intros s Hn.
    - destruct s; [reflexivity | simpl in Hn; lia].
    - destruct s as [|b0 [|b1 [|b2 rest]]]; try reflexivity.
      change (List.length (Base64.b64_group b0 b1 b2 ++ Base64.b64encode rest)
              = (4 * ((S (S (S (List.length rest))) + 2) / 3))%nat).
      rewrite length_app, IH by (simpl in Hn; lia).
      change (List.length (Base64.b64_group b0 b1 b2)) with 4%nat.
      replace (S (S (S (List.length rest))) + 2)%nat
        with (1 * 3 + (List.length rest + 2))%nat by lia.
      rewrite Nat.div_add_l by lia. lia. }
  apply (H (List.length s)). lia.
Qed.

Lemma encoded_text_length (self : Password) (user_proto_pw : string)
      (text : list Z) :
  encoded_text self user_proto_pw = Ok text ->
  List.length text = if base self =? 64 then 88%nat else 104%nat.
Proof.
  unfold encoded_text, Py.encode.
  destruct (proto_pw self user_proto_pw) as [text0|]; [|discriminate].
  cbn [bind].
  destruct (encode_fn self) as [fn|] eqn:Hfn; [|discriminate].
  destruct (Py.well_formed _); [|discriminate]. cbn [bind].
  set (d := SHA512.digest _). intros H.
  replace text with (fn d) by congruence. clear H.
  revert Hfn. unfold encode_fn.
  destruct (base self =? 64); cbv zeta.
  - intros H. replace fn with Base64.b64encode by congruence.
    rewrite length_b64encode. unfold d. rewrite length_digest. reflexivity.
  - destruct (base self =? 32); [|discriminate].
    intros H. replace fn with Base64.b32encode by congruence.
    rewrite length_b32encode. unfold d. rewrite length_digest. reflexivity.
Qed.

(** C3: with [0 <= start <= finish], the substring taken from the encoded
    text has [finish - start + 1] characters, clamped to what the text
    holds after [start]: none when [start] is at or beyond the length of
    the text, and [length - start] when [finish] exceeds the length.  The
    text itself has 104 characters in base 32 and 88 in base 64. *)
Theorem window_length (self : Password) (user_proto_pw : string)
        (text : list Z) :
  encoded_text self user_proto_pw = Ok text ->
  0 <= start self <= finish self ->
  let len := Z.of_nat (List.length text) in
  let n := Z.of_nat (List.length (window self text)) in
  len = (if base self =? 64 then 88 else 104)
  /\ n = Z.max 0 (Z.min (finish self - start self + 1) (len - start self))
  /\ (len <= start self -> n = 0)
  /\ (start self < len -> len < finish self -> n = len - start self)
  /\ (finish self < len -> n = finish self - start self + 1).
Proof.
  intros Henc H len n. subst len n. unfold window.
  rewrite slice_length by lia. split; [|lia].
  rewrite (encoded_text_length _ _ _ Henc).
  destruct (base self =? 64); reflexivity.
Qed.

Lemma window_length_witness :
  encoded_text late_window "" = Ok late_window_text
  /\ 0 <= start late_window <= finish late_window
  /\ Z.of_nat (List.length (window late_window late_window_text)) = 4.
Proof.
  assert (Henc : encoded_text late_window "" = Ok late_window_text)
    by reflexivity.
  assert (Hwin : 0 <= start late_window <= finish late_window)
    by (simpl; lia).
  split; [exact Henc|]. split; [exact Hwin|].
  destruct (window_length late_window "" late_window_text Henc Hwin)
    as (Hlen & _ & _ & H & _).
  rewrite H; rewrite Hlen; simpl; lia.
Defined.

(** ** Changing a few letters *)

Lemma first_at_cons (c x : ascii) (t : string) (i : nat) :
  first_at c (String x t) i
  = if Ascii.eqb x c then Nat.eqb 0 i
    else match i with O => false | S i' => first_at c t i' end.
Proof.
  unfold first_at. simpl. destruct (Ascii.eqb x c); [reflexivity|].
  destruct (Py.find_char c t); simpl; [|destruct i; reflexivity].
  destruct i; reflexivity.
Qed.

Lemma get_replace1 (old new : ascii) (s : string) (i : nat) :
  String.get i (Py.replace1 old new s)
  = if first_at old s i then Some new else String.get i s.
Proof.
  revert i. induction s as [|x t IH]; intros i; [reflexivity|].
  rewrite first_at_cons. simpl.
  destruct (Ascii.eqb x old) eqn:Hx.
  - destruct i; reflexivity.
  - destruct i; simpl; [reflexivity|]. apply IH.
Qed.

Lemma find_char_replace1 (c old new : ascii) (s : string) :
  c <> old -> c <> new ->
  Py.find_char c (Py.replace1 old new s) = Py.find_char c s.
Proof.
  intros Hold Hnew. induction s as [|x t IH]; [reflexivity|]. simpl.
  destruct (Ascii.eqb x old) eqn:Hx.
  - apply Ascii.eqb_eq in Hx. subst x. simpl.
    apply not_eq_sym in Hold, Hnew.
    apply Ascii.eqb_neq in Hold, Hnew. rewrite Hold, Hnew. reflexivity.
  - simpl. rewrite IH. reflexivity.
Qed.

Lemma first_at_get (c : ascii) (s : string) (i : nat) :
  first_at c s i = true -> String.get i s = Some c.
Proof.
  revert i. induction s as [|x t IH]; intros i; [discriminate|].
  rewrite first_at_cons. destruct (Ascii.eqb x c) eqn:Hx.
  - apply Ascii.eqb_eq in Hx. subst x. destruct i; [reflexivity|discriminate].
  - destruct i; [discriminate|]. simpl. apply IH.
Qed.

Lemma first_at_exclusive (c d : ascii) (s : string) (i : nat) :
  c <> d -> first_at c s i = true -> first_at d s i = false.
Proof.
  intros Hcd Hc. destruct (first_at d s i) eqn:Hd; [|reflexivity].
  apply first_at_get in Hc, Hd. congruence.
Qed.

Lemma length_replace1 (old new : ascii) (s : string) :
  String.length (Py.replace1 old new s) = String.length s.
Proof.
  induction s as [|x t IH]; [reflexivity|]. simpl.
  destruct (Ascii.eqb x old); simpl; congruence.
Qed.

(** C4: in the result of the three replacements, applied in the order b,
    d, z, the character at an index is B, D or Z where the string given
    to the first replacement has its first b, its first d or its first z,
    and the given character everywhere else: each replacement acts on the
    first occurrence of its letter in the original string, whatever the
    earlier replacements changed. *)
Theorem change_letters_spec (s : string) (i : nat) :
  change_letters s
  = Py.replace1 "z" "Z" (Py.replace1 "d" "D" (Py.replace1 "b" "B" s))
  /\ String.length (change_letters s) = String.length s
  /\ String.get i (change_letters s)
     = if first_at "b" s i then Some "B"%char
       else if first_at "d" s i then Some "D"%char
       else if first_at "z" s i then Some "Z"%char
       else String.get i s.
Proof.
  split; [reflexivity|]. split.
  - unfold change_letters. rewrite !length_replace1. reflexivity.
  - unfold change_letters. rewrite !get_replace1. unfold first_at at 1 2.
    rewrite !find_char_replace1 by discriminate.
    fold (first_at "z" s i). fold (first_at "d" s i).
    destruct (first_at "b" s i) eqn:Hb.
    + rewrite (first_at_exclusive "b" "z" s i) by (discriminate || exact Hb).
      rewrite (first_at_exclusive "b" "d" s i) by (discriminate || exact Hb).
      reflexivity.
    + destruct (first_at "d" s i) eqn:Hd; [|reflexivity].
      rewrite (first_at_exclusive "d" "z" s i) by (discriminate || exact Hd).
      reflexivity.
Qed.

(** The order of the three replacements does not matter. *)
Lemma replace1_commute (a a' b b' : ascii) (s : string) :
  a <> b -> a <> b' -> b <> a' ->
  Py.replace1 a a' (Py.replace1 b b' s) = Py.replace1 b b' (Py.replace1 a a' s).
Proof.
  intros Hab Hab' Hba'. induction s as [|x t IH]; [reflexivity|]. simpl.
  destruct (Ascii.eqb x b) eqn:Hxb; destruct (Ascii.eqb x a) eqn:Hxa; simpl.
  - apply Ascii.eqb_eq in Hxb, Hxa. congruence.
  - apply not_eq_sym, Ascii.eqb_neq in Hab'. rewrite Hab', Hxb. reflexivity.
  - apply not_eq_sym, Ascii.eqb_neq in Hba'. rewrite Hba', Hxa.
    apply Ascii.eqb_eq in Hxa. subst x. reflexivity.
  - rewrite Hxa, Hxb, IH. reflexivity.
Qed.

(** * Properties of the database *)

Lemma filter_all {A : Type} (l : list A) : List.filter (fun _ => true) l = l.
Proof. induction l as [|x l IH]; simpl; congruence. Qed.

(** ** What sqlite stores *)

Lemma bind_text_Ok (s : string) :
  Sqlite.bind_text s = Ok tt <-> Py.well_formed s = true.
Proof.
  unfold Sqlite.bind_text, Py.encode.
  destruct (Py.well_formed s); simpl; split; congruence.
Qed.

Lemma bind_int_Ok (n : Z) :
  Sqlite.bind_int n = Ok tt <-> Sqlite.is_int64 n = true.
Proof.
  unfold Sqlite.bind_int. destruct (Sqlite.is_int64 n); split; congruence.
Qed.

Lemma bind_unit_Ok (r : result unit) (k : unit -> result unit) :
  bind r k = Ok tt <-> r = Ok tt /\ k tt = Ok tt.
Proof.
  destruct r as [[]|e]; simpl; split.
  - auto.
  - intros [_ H]. exact H.
  - discriminate.
  - intros [H _]. discriminate H.
Qed.

Lemma bind_parameters_storable (e : Password) :
  storable e = true <-> Sqlite.bind_parameters (row_of_Password e) = Ok tt.
Proof.
  unfold storable, Sqlite.bind_parameters, row_of_Password.
  cbn [col_nickname col_username col_hostname col_special_char col_base
       col_iteration col_hint col_start col_finish].
  rewrite !bind_unit_Ok, !bind_text_Ok, !bind_int_Ok, !andb_true_iff.
  tauto.
Qed.

(** What is refused is refused for its text or for an integer. *)
Lemma bind_parameters_refused (r : Row) (e : exn) :
  Sqlite.bind_parameters r = Raise e ->
  e = UnicodeEncodeError \/ e = OverflowError.
Proof.
  unfold Sqlite.bind_parameters, Sqlite.bind_text, Sqlite.bind_int, Py.encode.
  repeat match goal with
         | |- context [if ?b then _ else _] => destruct b; cbn [bind]
         end;
    intros H; try discriminate H; injection H as <-; auto.
Qed.

Lemma not_storable_refused (e : Password) :
  storable e = false ->
  exists x, Sqlite.bind_parameters (row_of_Password e) = Raise x
            /\ (x = UnicodeEncodeError \/ x = OverflowError).
Proof.
  intros Hst.
  destruct (Sqlite.bind_parameters (row_of_Password e)) as [[]|x] eqn:Hb.
  - apply bind_parameters_storable in Hb. congruence.
  - exists x. split; [reflexivity|]. eapply bind_parameters_refused, Hb.
Qed.

Section Store.

Variable db : PasswordDB.
Variable rows : list Row.
Hypothesis Hopen : conn db = Some rows.

(** ** The statements run on an open connection *)

Lemma select_open (keep : Row -> bool) :
  Sqlite.select_where keep db = (Ok (List.filter keep rows), db).
Proof using Hopen. unfold Sqlite.select_where. rewrite Hopen. reflexivity. Qed.

Lemma run_create_open (pw_obj : Password) :
  storable pw_obj = true ->
  _run_create pw_obj db
  = (Ok tt, mkDB (disk db) (Some (rows ++ [row_of_Password pw_obj]))).
Proof using Hopen.
  intros Hst. unfold _run_create, Sqlite.insert.
  rewrite Hopen, (proj1 (bind_parameters_storable pw_obj) Hst). reflexivity.
Qed.

Lemma run_create_refused (pw_obj : Password) (e : exn) :
  Sqlite.bind_parameters (row_of_Password pw_obj) = Raise e ->
  _run_create pw_obj db = (Raise e, db).
Proof using Hopen.
  intros Hst. unfold _run_create, Sqlite.insert.
  rewrite Hopen, Hst. reflexivity.
Qed.

Lemma run_delete_open (nick : string) :
  _run_delete nick db
  = (Ok tt,
     mkDB (disk db)
          (Some (List.filter (fun r => negb (has_nickname nick r)) rows))).
Proof using Hopen.
  unfold _run_delete, Sqlite.delete_where. rewrite Hopen. reflexivity.
Qed.

Lemma create_new_password_open (pw_obj : Password) :
  storable pw_obj = true ->
  create_new_password pw_obj db
  = (Ok tt, mkDB (rows ++ [row_of_Password pw_obj])
                 (Some (rows ++ [row_of_Password pw_obj]))).
Proof using Hopen.
  intros Hst. unfold create_new_password, bindM.
  rewrite run_create_open by exact Hst. reflexivity.
Qed.

Lemma create_new_password_refused (pw_obj : Password) (e : exn) :
  Sqlite.bind_parameters (row_of_Password pw_obj) = Raise e ->
  create_new_password pw_obj db = (Raise e, db).
Proof using Hopen.
  intros Hst. unfold create_new_password, bindM.
  rewrite (run_create_refused pw_obj e Hst). reflexivity.
Qed.

Lemma delete_password_open (arg : nickname_or_pw_obj) :
  let nick := match arg with
              | ByPassword pw_obj => nickname pw_obj
              | ByNickname nick => nick
              end in
  let rows' := List.filter (fun r => negb (has_nickname nick r)) rows in
  delete_password arg db = (Ok tt, mkDB rows' (Some rows')).
Proof using Hopen.
  unfold delete_password, bindM. rewrite run_delete_open. reflexivity.
Qed.

Lemma update_old_password_open (orig_nick : string) (pw_obj : Password) :
  storable pw_obj = true ->
  let rows' := List.filter (fun r => negb (has_nickname orig_nick r)) rows
               ++ [row_of_Password pw_obj] in
  update_old_password orig_nick pw_obj db = (Ok tt, mkDB rows' (Some rows')).
Proof using Hopen.
  intros Hst. unfold update_old_password, bindM. rewrite run_delete_open.
  unfold _run_create, Sqlite.insert. cbn [conn].
  rewrite (proj1 (bind_parameters_storable pw_obj) Hst). reflexivity.
Qed.

(** A refused entry leaves the rows of [orig_nick] deleted in the view of
    the connection, and nothing committed. *)
Lemma update_old_password_refused (orig_nick : string) (pw_obj : Password)
      (e : exn) :
  Sqlite.bind_parameters (row_of_Password pw_obj) = Raise e ->
  update_old_password orig_nick pw_obj db
  = (Raise e,
     mkDB (disk db)
          (Some (List.filter (fun r => negb (has_nickname orig_nick r)) rows))).
Proof using Hopen.
  intros Hst. unfold update_old_password, bindM. rewrite run_delete_open.
  unfold _run_create, Sqlite.insert. cbn [conn]. rewrite Hst. reflexivity.
Qed.

Lemma get_all_password_objects_open :
  get_all_password_objects db = (Ok (dict_of_rows rows), db).
Proof using Hopen.
  unfold get_all_password_objects, bindM.
  rewrite select_open, filter_all. reflexivity.
Qed.

Lemma get_list_of_nicks_open :
  get_list_of_nicks db = (Ok (sorted (List.map col_nickname rows)), db).
Proof using Hopen.
  unfold get_list_of_nicks, bindM.
  rewrite select_open, filter_all. reflexivity.
Qed.

Lemma close_db_open : close_db db = (Ok tt, mkDB rows None).
Proof using Hopen.
  unfold close_db, bindM, Sqlite.commit. rewrite Hopen. reflexivity.
Qed.

End Store.

(** The store after a write, whether the entry is stored or refused. *)
Lemma create_new_password_state (db : PasswordDB) (rows : list Row)
      (e : Password) :
  conn db = Some rows ->
  snd (create_new_password e db)
  = if storable e
    then mkDB (rows ++ [row_of_Password e]) (Some (rows ++ [row_of_Password e]))
    else db.
Proof.
  intros Hopen. destruct (storable e) eqn:Hst.
  - rewrite (create_new_password_open db rows Hopen e Hst). reflexivity.
  - destruct (not_storable_refused e Hst) as (x & Hx & _).
    rewrite (create_new_password_refused db rows Hopen e x Hx). reflexivity.
Qed.

Lemma update_old_password_state (db : PasswordDB) (rows : list Row)
      (nick : string) (e : Password) :
  conn db = Some rows ->
  let kept := List.filter (fun r => negb (has_nickname nick r)) rows in
  snd (update_old_password nick e db)
  = if storable e
    then mkDB (kept ++ [row_of_Password e]) (Some (kept ++ [row_of_Password e]))
    else mkDB (disk db) (Some kept).
Proof.
  intros Hopen kept. destruct (storable e) eqn:Hst.
  - rewrite (update_old_password_open db rows Hopen nick e Hst). reflexivity.
  - destruct (not_storable_refused e Hst) as (x & Hx & _).
    rewrite (update_old_password_refused db rows Hopen nick e x Hx).
    reflexivity.
Qed.

Lemma close_db_closed (db : PasswordDB) :
  conn db = None -> close_db db = (Raise ProgrammingError, db).
Proof.
  intros H. unfold close_db, bindM, Sqlite.commit. rewrite H. reflexivity.
Qed.

(** ** The dictionary built from the rows *)

Lemma has_nickname_true (nick : string) (r : Row) :
  has_nickname nick r = true <-> col_nickname r = nick.
Proof. unfold has_nickname. apply String.eqb_eq. Qed.

Lemma has_nickname_false (nick : string) (r : Row) :
  has_nickname nick r = false <-> col_nickname r <> nick.
Proof. unfold has_nickname. apply String.eqb_neq. Qed.

Lemma dict_of_rows_snoc (rows : list Row) (r : Row) :
  dict_of_rows (rows ++ [r])
  = <[col_nickname r := Password_of_row r]> (dict_of_rows rows).
Proof. unfold dict_of_rows. rewrite fold_left_app. reflexivity. Qed.

(** The value under a key is the last row with that nickname. *)
Lemma dict_of_rows_lookup (rows : list Row) (nick : string) :
  dict_of_rows rows !! nick
  = Password_of_row <$> last (List.filter (has_nickname nick) rows).
Proof.
  induction rows as [|r rows IH] using rev_ind; [reflexivity|].
  rewrite dict_of_rows_snoc, List.filter_app. simpl.
  destruct (has_nickname nick r) eqn:Hr.
  - apply has_nickname_true in Hr. subst nick.
    rewrite lookup_insert_eq, last_snoc. reflexivity.
  - apply has_nickname_false in Hr.
    rewrite lookup_insert_ne, app_nil_r by exact Hr. exact IH.
Qed.

Lemma dict_of_rows_absent (rows : list Row) (nick : string) :
  ~ In nick (List.map col_nickname rows) -> dict_of_rows rows !! nick = None.
Proof.
  intros H. rewrite dict_of_rows_lookup.
  replace (List.filter (has_nickname nick) rows) with (@nil Row); [reflexivity|].
  symmetry. induction rows as [|r rows IH]; [reflexivity|]. simpl in *.
  destruct (has_nickname nick r) eqn:Hr.
  - apply has_nickname_true in Hr. tauto.
  - apply IH. tauto.
Qed.

Lemma dict_of_rows_present (rows : list Row) (nick : string) :
  In nick (List.map col_nickname rows) -> is_Some (dict_of_rows rows !! nick).
Proof.
  induction rows as [|r rows IH] using rev_ind; [intros []|].
  rewrite List.map_app, in_app_iff, dict_of_rows_snoc. simpl. intros H.
  destruct (decide (col_nickname r = nick)) as [<- | Hne].
  - rewrite lookup_insert_eq. eauto.
  - rewrite lookup_insert_ne by exact Hne. apply IH. tauto.
Qed.

Lemma nicknames_after_delete (rows : list Row) (nick : string) :
  ~ In nick
      (List.map col_nickname
                (List.filter (fun r => negb (has_nickname nick r)) rows)).
Proof.
  rewrite in_map_iff. intros (r & Hr & Hin).
  apply List.filter_In in Hin. destruct Hin as [_ Hin].
  apply negb_true_iff, has_nickname_false in Hin. contradiction.
Qed.


(** A password read back equals, for [Password.__eq__], the one stored. *)
Lemma Password_eq_stored (e : Password) :
  Password_eq (Password_of_row (row_of_Password e)) e = true.
Proof.
  unfold Password_eq. simpl.
  rewrite !String.eqb_refl, !Z.eqb_refl. reflexivity.
Qed.

(** ** Sorting nicknames *)

Lemma ascii_compare_spec (a b : ascii) :
  CompareSpec (a = b) (N_of_ascii a < N_of_ascii b)%N
              (N_of_ascii b < N_of_ascii a)%N (Ascii.compare a b).
Proof.
  unfold Ascii.compare.
  destruct (N.compare_spec (N_of_ascii a) (N_of_ascii b)) as [H | H | H];
    constructor; try exact H.
  rewrite <- (ascii_N_embedding a), <- (ascii_N_embedding b), H. reflexivity.
Qed.

Lemma str_le_trans (a b c : string) : str_le a b -> str_le b c -> str_le a c.
Proof.
  unfold str_le, String.leb. revert b c.
  induction a as [|x a IH]; intros [|y b] [|z c]; simpl;
    try reflexivity; try discriminate.
  destruct (ascii_compare_spec x y) as [-> | Hxy | Hxy]; try discriminate.
  - destruct (ascii_compare_spec y z) as [-> | Hyz | Hyz]; try discriminate.
    + apply IH.
    + reflexivity.
  - intros _.
    destruct (ascii_compare_spec y z) as [-> | Hyz | Hyz]; try discriminate.
    + intros _. destruct (ascii_compare_spec x z) as [-> | Hxz | Hxz];
        [lia | reflexivity | lia].
    + intros _. destruct (ascii_compare_spec x z) as [-> | Hxz | Hxz];
        [lia | reflexivity | lia].
Qed.

(** [str_le] is the lexical order: the empty string first, then by the
    first character, then by the rest. *)
Lemma str_le_lexical (x y : ascii) (a b : string) :
  str_le EmptyString b
  /\ ~ str_le (String x a) EmptyString
  /\ (str_le (String x a) (String y b)
      <-> (N_of_ascii x < N_of_ascii y)%N \/ (x = y /\ str_le a b)).
Proof.
  unfold str_le, String.leb. simpl. split; [destruct b; reflexivity|].
  split; [discriminate|].
  destruct (ascii_compare_spec x y) as [-> | H | H]; split.
  - intros Hle. right. split; [reflexivity | exact Hle].
  - intros [Hlt | [_ Hle]]; [lia | exact Hle].
  - intros _. left. exact H.
  - reflexivity.
  - discriminate.
  - intros [Hlt | [-> _]]; lia.
Qed.

Lemma str_le_total (a b : string) : str_le a b \/ str_le b a.
Proof. apply String.leb_total. Qed.

Lemma str_le_antisym (a b : string) : str_le a b -> str_le b a -> a = b.
Proof. apply String.leb_antisym. Qed.

Lemma str_le_false (a b : string) : String.leb a b = false -> str_le b a.
Proof.
  intros H. destruct (str_le_total a b) as [H' | H']; [|exact H'].
  unfold str_le in H'. congruence.
Qed.

Lemma insert_sorted_perm (x : string) (l : list string) :
  Permutation (insert_sorted x l) (x :: l).
Proof.
  induction l as [|y l IH]; simpl; [reflexivity|].
  destruct (String.leb x y); [reflexivity|].
  rewrite IH. apply perm_swap.
Qed.

Lemma sorted_perm (l : list string) : Permutation (sorted l) l.
Proof.
  induction l as [|x l IH]; simpl; [reflexivity|].
  rewrite insert_sorted_perm. constructor. exact IH.
Qed.

Lemma insert_sorted_HdRel (a x : string) (l : list string) :
  str_le a x -> HdRel str_le a l -> HdRel str_le a (insert_sorted x l).
Proof.
  intros Hax Hl. destruct l as [|y l]; simpl; [constructor; exact Hax|].
  destruct (String.leb x y); constructor; [exact Hax|].
  inversion Hl; assumption.
Qed.

Lemma insert_sorted_Sorted (x : string) (l : list string) :
  Sorted str_le l -> Sorted str_le (insert_sorted x l).
Proof.
  induction 1 as [|y l Hl IH Hy]; simpl; [repeat constructor|].
  destruct (String.leb x y) eqn:Hxy.
  - constructor; [constructor; assumption|]. constructor. exact Hxy.
  - constructor; [exact IH|].
    apply insert_sorted_HdRel; [|exact Hy]. apply str_le_false, Hxy.
Qed.

Lemma sorted_Sorted (l : list string) : Sorted str_le (sorted l).
Proof.
  induction l as [|x l IH]; simpl; [constructor|].
  apply insert_sorted_Sorted, IH.
Qed.

Lemma insert_sorted_commute (a b : string) (l : list string) :
  insert_sorted a (insert_sorted b l) = insert_sorted b (insert_sorted a l).
Proof.
  induction l as [|h l IH]; simpl.
  - destruct (String.leb a b) eqn:Hab; destruct (String.leb b a) eqn:Hba;
      try reflexivity.
    + rewrite (str_le_antisym a b Hab Hba). reflexivity.
    + apply str_le_false in Hab. unfold str_le in Hab. congruence.
  - destruct (String.leb b h) eqn:Hbh; destruct (String.leb a h) eqn:Hah; simpl.
    + destruct (String.leb a b) eqn:Hab; destruct (String.leb b a) eqn:Hba;
        rewrite ?Hah, ?Hbh; try reflexivity.
      * rewrite (str_le_antisym a b Hab Hba). reflexivity.
      * apply str_le_false in Hab. unfold str_le in Hab. congruence.
    + destruct (String.leb a b) eqn:Hab.
      * pose proof (str_le_trans a b h Hab Hbh) as H.
        unfold str_le in H. congruence.
      * rewrite Hah, Hbh. reflexivity.
    + rewrite Hah. destruct (String.leb b a) eqn:Hba.
      * pose proof (str_le_trans b a h Hba Hah) as H.
        unfold str_le in H. congruence.
      * rewrite Hbh. reflexivity.
    + rewrite Hah, Hbh, IH. reflexivity.
Qed.

(** The sorted list depends on the elements only, not on their order. *)
Lemma sorted_Permutation (l l' : list string) :
  Permutation l l' -> sorted l = sorted l'.
Proof.
  induction 1 as [| x l l' _ IH | x y l | l l' l'' _ IH1 _ IH2]; simpl.
  - reflexivity.
  - rewrite IH. reflexivity.
  - apply insert_sorted_commute.
  - congruence.
Qed.

(** ** Create, load, delete *)




(** Deleting by object is deleting by the nickname of the object. *)
Lemma delete_password_by_object (pw_obj : Password) (db : PasswordDB) :
  delete_password (ByPassword pw_obj) db
  = delete_password (ByNickname (nickname pw_obj)) db.
Proof. reflexivity. Qed.

(** ** Update *)

(** C6, as stated, fails: the store holds alice, dave is an entry with
    another nickname, and [update_old_password "alice" dave] raises, at
    the binding of the iteration 2^63, after the rows of alice are
    deleted: afterwards dave is not present. *)
Lemma update_out_of_range_not_present :
  In "alice"%string (List.map col_nickname
                       [row_of_Password bob; row_of_Password alice])
  /\ conn alice_bob_db = Some [row_of_Password bob; row_of_Password alice]
  /\ nickname dave <> "alice"%string
  /\ exists db' d,
       update_old_password "alice" dave alice_bob_db
       = (Raise OverflowError, db')
       /\ get_all_password_objects db' = (Ok d, db')
       /\ d !! nickname dave = None.
Proof.
  split; [simpl; tauto|]. split; [reflexivity|]. split; [discriminate|].
  eexists _, _. split; [vm_compute; reflexivity|].
  split; [apply get_all_password_objects_open; reflexivity|].
  reflexivity.
Qed.

(** C6, amended: on an open store, [update_old_password old e2] with
    [e2.nickname != old] and an entry [e2] that sqlite can store (text
    without lone surrogate, integers within 64 bits) removes every row
    whose nickname is [old] and appends the row of [e2], and commits;
    afterwards no row and no dictionary entry is keyed [old], and the
    dictionary holds [e2] under [e2.nickname]. *)
Theorem update_old_password_changes_key (db : PasswordDB) (rows : list Row)
        (old : string) (e2 : Password) :
  conn db = Some rows ->
  In old (List.map col_nickname rows) ->
  nickname e2 <> old ->
  storable e2 = true ->
  exists db' rows' d,
    update_old_password old e2 db = (Ok tt, db')
    /\ conn db' = Some rows' /\ disk db' = rows'
    /\ rows' = List.filter (fun r => negb (has_nickname old r)) rows
               ++ [row_of_Password e2]
    /\ ~ In old (List.map col_nickname rows')
    /\ In (row_of_Password e2) rows'
    /\ get_all_password_objects db' = (Ok d, db')
    /\ d !! old = None
    /\ d !! nickname e2 = Some (Password_of_row (row_of_Password e2))
    /\ Password_eq (Password_of_row (row_of_Password e2)) e2 = true.
Proof.
  intros Hopen _ Hne Hst.
  assert (Hgone : ~ In old
            (List.map col_nickname
               (List.filter (fun r => negb (has_nickname old r)) rows
                ++ [row_of_Password e2]))).
  { rewrite List.map_app, in_app_iff. intros [H | [H | []]].
    - exact (nicknames_after_delete rows old H).
    - apply Hne. exact H. }
  eexists _, _, _.
  split; [apply (update_old_password_open db rows Hopen old e2 Hst)|].
  split; [reflexivity|]. split; [reflexivity|]. split; [reflexivity|].
  split; [exact Hgone|].
  split; [apply in_app_iff; right; left; reflexivity|].
  split; [apply get_all_password_objects_open; reflexivity|].
  split; [apply dict_of_rows_absent, Hgone|].
  split; [|apply Password_eq_stored].
  rewrite dict_of_rows_snoc. apply lookup_insert_eq.
Qed.

Lemma update_old_password_changes_key_witness :
  exists db' rows' d,
    update_old_password "alice" carol alice_bob_db = (Ok tt, db')
    /\ conn db' = Some rows' /\ disk db' = rows'
    /\ rows' = List.filter (fun r => negb (has_nickname "alice" r))
                           [row_of_Password bob; row_of_Password alice]
               ++ [row_of_Password carol]
    /\ ~ In "alice"%string (List.map col_nickname rows')
    /\ In (row_of_Password carol) rows'
    /\ get_all_password_objects db' = (Ok d, db')
    /\ d !! "alice" = None
    /\ d !! nickname carol = Some (Password_of_row (row_of_Password carol))
    /\ Password_eq (Password_of_row (row_of_Password carol)) carol = true.
Proof.
  apply (update_old_password_changes_key alice_bob_db
           [row_of_Password bob; row_of_Password alice] "alice" carol).
  - reflexivity.
  - simpl. right. left. reflexivity.
  - discriminate.
  - reflexivity.
Defined.

(** ** The list of nicknames *)

(** C7: on an open store [get_list_of_nicks] returns the nicknames of the
    stored rows, each as often as it is stored, in ascending lexical
    order; stores that hold the same rows in a different order give the
    same list. *)
Theorem get_list_of_nicks_sorted (db : PasswordDB) (rows : list Row) :
  conn db = Some rows ->
  exists l,
    get_list_of_nicks db = (Ok l, db)
    /\ Permutation l (List.map col_nickname rows)
    /\ Sorted str_le l
    /\ forall db2 rows2,
         conn db2 = Some rows2 -> Permutation rows rows2 ->
         get_list_of_nicks db2 = (Ok l, db2).
Proof.
  intros Hopen. exists (sorted (List.map col_nickname rows)).
  split; [apply get_list_of_nicks_open, Hopen|].
  split; [apply sorted_perm|]. split; [apply sorted_Sorted|].
  intros db2 rows2 Hopen2 Hperm.
  rewrite (get_list_of_nicks_open db2 rows2 Hopen2).
  rewrite (sorted_Permutation (List.map col_nickname rows)
                              (List.map col_nickname rows2));
    [reflexivity|].
  apply Permutation_map, Hperm.
Qed.

Lemma get_list_of_nicks_sorted_witness :
  exists l,
    get_list_of_nicks alice_bob_db = (Ok l, alice_bob_db)
    /\ Permutation l ["bob"; "alice"]%string
    /\ Sorted str_le l
    /\ forall db2 rows2,
         conn db2 = Some rows2 ->
         Permutation [row_of_Password bob; row_of_Password alice] rows2 ->
         get_list_of_nicks db2 = (Ok l, db2).
Proof.
  apply (get_list_of_nicks_sorted alice_bob_db
           [row_of_Password bob; row_of_Password alice]).
  reflexivity.
Defined.

(** The store scenario of the specification: create alice and bob, list,
    delete alice, list. *)
Example store_scenario :
  fst (get_list_of_nicks alice_bob_db) = Ok ["alice"; "bob"]%string
  /\ fst (get_list_of_nicks
            (snd (delete_password (ByNickname "alice") alice_bob_db)))
     = Ok ["bob"%string].
Proof. split; reflexivity. Qed.

(** [test_basic_pwdb_usage] of the test suite. *)
Example test_basic_pwdb_usage :
  let password := basic_password true 2 in
  let pdb := PasswordDB_init [] true in
  let pdb1 := snd (create_new_password password pdb) in
  let pdb2 := snd (delete_password (ByNickname "nick") pdb1) in
  fst (get_list_of_nicks pdb) = Ok []
  /\ bind (fst (get_password_for_nick "nick" pdb1))
          (fun p => Ok (Password_eq p password)) = Ok true
  /\ bind (fst (get_all_password_objects pdb1))
          (fun d => Ok (size d, Password_eq password <$> d !! "nick"))
     = Ok (1%nat, Some true)
  /\ fst (get_list_of_nicks pdb1) = Ok ["nick"%string]
  /\ fst (get_list_of_nicks pdb2) = Ok [].
Proof. vm_compute. tauto. Qed.

(** ** Deleting a nickname that is not stored *)




(** ** Closing *)

(** C9, as stated, fails: the second [close_db] raises. *)
Lemma close_db_twice_raises :
  fst (close_db alice_bob_db) = Ok tt
  /\ fst (close_db (snd (close_db alice_bob_db))) = Raise ProgrammingError.
Proof. split; reflexivity. Qed.

(** C9, amended: [close_db] on an open store commits and closes the
    connection; a second [close_db] raises the error of a commit on a
    closed connection and leaves the store as the first one left it. *)
Theorem close_db_once (db : PasswordDB) (rows : list Row) :
  conn db = Some rows ->
  exists db1,
    close_db db = (Ok tt, db1)
    /\ disk db1 = rows /\ conn db1 = None
    /\ close_db db1 = (Raise ProgrammingError, db1).
Proof.
  intros Hopen. exists (mkDB rows None).
  split; [apply close_db_open, Hopen|].
  split; [reflexivity|]. split; [reflexivity|].
  apply close_db_closed. reflexivity.
Qed.

Lemma close_db_once_witness :
  exists db1,
    close_db alice_bob_db = (Ok tt, db1)
    /\ disk db1 = [row_of_Password bob; row_of_Password alice]
    /\ conn db1 = None
    /\ close_db db1 = (Raise ProgrammingError, db1).
Proof.
  apply (close_db_once alice_bob_db
           [row_of_Password bob; row_of_Password alice]).
  reflexivity.
Defined.

(** ** Duplicate nicknames *)

Lemma count_snoc (nick : string) (rows : list Row) (r : Row) :
  col_nickname r = nick ->
  List.length (List.filter (has_nickname nick) (rows ++ [r]))
  = S (List.length (List.filter (has_nickname nick) rows)).
Proof.
  intros H. apply has_nickname_true in H.
  rewrite List.filter_app, length_app. simpl. rewrite H. simpl. lia.
Qed.

Lemma count_present (nick : string) (rows : list Row) :
  In nick (List.map col_nickname rows) ->
  (1 <= List.length (List.filter (has_nickname nick) rows))%nat.
Proof.
  induction rows as [|r rows IH]; [intros []|]. simpl.
  destruct (has_nickname nick r) eqn:Hr; simpl; [lia|].
  apply has_nickname_false in Hr. intros [H | H]; [contradiction|].
  apply IH, H.
Qed.

(** C10, as stated, fails: the store holds a row with the nickname of
    alice3, and [create_new_password alice3] does not succeed: the
    iteration 2^63 is refused, and no second row is inserted. *)
Lemma create_duplicate_out_of_range :
  conn alice_bob_db = Some [row_of_Password bob; row_of_Password alice]
  /\ In (nickname alice3)
        (List.map col_nickname [row_of_Password bob; row_of_Password alice])
  /\ create_new_password alice3 alice_bob_db
     = (Raise OverflowError, alice_bob_db)
  /\ List.length
       (List.filter (has_nickname (nickname alice3))
                    [row_of_Password bob; row_of_Password alice]) = 1%nat.
Proof.
  split; [reflexivity|]. split; [simpl; tauto|].
  split; [vm_compute; reflexivity | reflexivity].
Qed.

(** C10, amended: on an open store that already holds a row with the
    nickname of [e], for an entry [e] that sqlite can store (text without
    lone surrogate, integers within 64 bits), [create_new_password e]
    succeeds and appends one more row with that nickname, so that at
    least two rows carry it; the dictionary loaded afterwards has as many
    keys as before, and under that nickname it holds the password of the
    last such row, the new one; in general the value under any key is
    read from the last row with that nickname. *)
Theorem create_duplicate_shadows (db : PasswordDB) (rows : list Row)
        (e : Password) :
  conn db = Some rows ->
  In (nickname e) (List.map col_nickname rows) ->
  storable e = true ->
  exists db' rows' d,
    create_new_password e db = (Ok tt, db')
    /\ conn db' = Some rows'
    /\ rows' = rows ++ [row_of_Password e]
    /\ (2 <= List.length (List.filter (has_nickname (nickname e)) rows'))%nat
    /\ get_all_password_objects db' = (Ok d, db')
    /\ size d = size (dict_of_rows rows)
    /\ d !! nickname e = Some (Password_of_row (row_of_Password e))
    /\ forall k,
         d !! k = Password_of_row <$> last (List.filter (has_nickname k) rows').
Proof.
  intros Hopen Hdup Hst. eexists _, _, _.
  split; [apply (create_new_password_open db rows Hopen e Hst)|].
  split; [reflexivity|]. split; [reflexivity|].
  split.
  { rewrite count_snoc by reflexivity.
    pose proof (count_present _ _ Hdup). lia. }
  split; [apply get_all_password_objects_open; reflexivity|].
  split.
  { rewrite dict_of_rows_snoc.
    apply map_size_insert_Some, dict_of_rows_present, Hdup. }
  split; [rewrite dict_of_rows_snoc; apply lookup_insert_eq|].
  intros k. apply dict_of_rows_lookup.
Qed.

Lemma create_duplicate_shadows_witness :
  exists db' rows' d,
    create_new_password alice2 alice_bob_db = (Ok tt, db')
    /\ conn db' = Some rows'
    /\ rows' = [row_of_Password bob; row_of_Password alice]
               ++ [row_of_Password alice2]
    /\ (2 <= List.length (List.filter (has_nickname (nickname alice2)) rows'))%nat
    /\ get_all_password_objects db' = (Ok d, db')
    /\ size d
       = size (dict_of_rows [row_of_Password bob; row_of_Password alice])
    /\ d !! nickname alice2 = Some (Password_of_row (row_of_Password alice2))
    /\ forall k,
         d !! k = Password_of_row <$> last (List.filter (has_nickname k) rows').
Proof.
  apply (create_duplicate_shadows alice_bob_db
           [row_of_Password bob; row_of_Password alice] alice2).
  - reflexivity.
  - simpl. right. left. reflexivity.
  - reflexivity.
Defined.

(** * Further properties of class Password *)

(** ** Equality *)

Lemma Password_eq_true (p q : Password) :
  Password_eq p q = true <->
  nickname p = nickname q /\ username p = username q
  /\ hostname p = hostname q
  /\ int_of_flag (special_char p) = int_of_flag (special_char q)
  /\ base p = base q /\ iteration p = iteration q /\ hint p = hint q
  /\ start p = start q /\ finish p = finish q.
Proof.
  unfold Password_eq.
  rewrite !andb_true_iff, !String.eqb_eq, !Z.eqb_eq. tauto.
Qed.

Lemma truthy_int_of_flag (f : flag) : truthy f = negb (int_of_flag f =? 0).
Proof. destruct f as [[|]|n]; reflexivity. Qed.

(** X1: [Password.__eq__] is an equivalence relation, although a flag
    may be a [bool] on one side and an [int] on the other, and
    [Password.__ne__] is its negation. *)
Theorem Password_eq_equivalence :
  Equivalence (fun p q => Password_eq p q = true)
  /\ forall p q, Password_ne p q = negb (Password_eq p q).
Proof.
  split; [|reflexivity]. split.
  - intros p. apply Password_eq_true. tauto.
  - intros p q H. apply Password_eq_true in H. apply Password_eq_true.
    intuition congruence.
  - intros p q r H1 H2. apply Password_eq_true in H1, H2.
    apply Password_eq_true. intuition congruence.
Qed.

(** The password depends on the derivation input, the base, the window
    and the truth value of the flag only. *)
Lemma calculate_password_ext (p q : Password) (a b : string) :
  proto_pw p a = proto_pw q b ->
  base p = base q -> start p = start q -> finish p = finish q ->
  truthy (special_char p) = truthy (special_char q) ->
  calculate_password p a = calculate_password q b.
Proof.
  intros Hpw Hbase Hstart Hfinish Hflag.
  unfold calculate_password, encoded_text, encode_fn, window.
  rewrite Hpw, Hbase, Hstart, Hfinish, Hflag. reflexivity.
Qed.

(** X2: two passwords that are equal for [Password.__eq__] derive the
    same password from every proto-password. *)
Theorem calculate_password_eq (p q : Password) (user_proto_pw : string) :
  Password_eq p q = true ->
  calculate_password p user_proto_pw = calculate_password q user_proto_pw.
Proof.
  intros H. apply Password_eq_true in H.
  destruct H as (_ & Hu & Hh & Hf & Hb & Hi & _ & Hs & He).
  apply calculate_password_ext; try assumption.
  - unfold proto_pw. rewrite Hu, Hh, Hi. reflexivity.
  - rewrite !truthy_int_of_flag, Hf. reflexivity.
Qed.

Lemma calculate_password_eq_witness :
  calculate_password (Password_of_row (row_of_Password bob)) "secret"
  = calculate_password bob "secret".
Proof.
  apply (calculate_password_eq (Password_of_row (row_of_Password bob)) bob).
  reflexivity.
Defined.
(** ** Length and letters of the derived password *)

Lemma length_string_of_list_ascii (l : list ascii) :
  String.length (string_of_list_ascii l) = List.length l.
Proof. induction l as [|c l IH]; simpl; congruence. Qed.

Lemma length_decode (l : list Z) (s : string) :
  Py.decode l = Ok s -> String.length s = List.length l.
Proof.
  unfold Py.decode. destruct (Py.utf8_valid l); [|discriminate].
  intros [= <-]. rewrite length_string_of_list_ascii, length_map. reflexivity.
Qed.

Lemma length_translate (table : list (ascii * ascii)) (s : string) :
  String.length (Py.translate table s) = String.length s.
Proof. induction s as [|c s IH]; simpl; congruence. Qed.

Lemma length_change_letters (s : string) :
  String.length (change_letters s) = String.length s.
Proof. unfold change_letters. rewrite !length_replace1. reflexivity. Qed.

(** What [calculate_password] returns, step by step. *)
Lemma calculate_password_Ok (self : Password) (user_proto_pw s : string) :
  calculate_password self user_proto_pw = Ok s ->
  exists fn text s0,
    encode_fn self = Some fn
    /\ Py.within_str_digits (iteration self) = true
    /\ Py.well_formed (hashed_text self user_proto_pw) = true
    /\ text = fn (SHA512.digest
                    (Py.bytes_of (hashed_text self user_proto_pw)))
    /\ Py.decode (Py.lower (window self text)) = Ok s0
    /\ s = (if truthy (special_char self)
            then Py.translate translator (change_letters s0)
            else change_letters s0).
Proof.
  unfold calculate_password, encoded_text, Py.encode.
  destruct (proto_pw self user_proto_pw) as [text0|] eqn:Hpw;
    [|discriminate].
  apply proto_pw_Ok in Hpw as [Hdig ->]. cbn [bind].
  destruct (encode_fn self) as [fn|]; [|discriminate].
  destruct (Py.well_formed _) eqn:Hwf; [|discriminate]. cbn [bind].
  destruct (Py.decode _) as [s0|] eqn:Hdec; [|discriminate]. simpl.
  intros [= <-]. eexists fn, _, s0. auto 10.
Qed.

Lemma calculate_password_window_length (self : Password)
      (user_proto_pw s : string) :
  calculate_password self user_proto_pw = Ok s ->
  exists text,
    encoded_text self user_proto_pw = Ok text
    /\ String.length s = List.length (window self text).
Proof.
  intros H. pose proof H as H'.
  apply calculate_password_Ok in H'
    as (fn & text & s0 & Hfn & Hdig & Hwf & -> & Hdec & ->).
  eexists. split.
  { unfold encoded_text, Py.encode. rewrite (proto_pw_within _ _ Hdig).
    cbn [bind]. rewrite Hfn, Hwf. reflexivity. }
  apply length_decode in Hdec. unfold Py.lower in Hdec.
  rewrite length_map in Hdec. rewrite <- Hdec.
  destruct (truthy (special_char self));
    rewrite ?length_translate, length_change_letters; reflexivity.
Qed.

(** X3: with [0 <= start <= finish], a password that
    [calculate_password] returns has [finish - start + 1] characters, but
    no more than the encoded text (104 characters in base 32, 88 in base
    64) holds from [start] on, and none when [start] is beyond it: the
    letter and special-character steps keep the length of the window. *)
Theorem calculate_password_length (self : Password)
        (user_proto_pw s : string) :
  calculate_password self user_proto_pw = Ok s ->
  0 <= start self <= finish self ->
  Z.of_nat (String.length s)
  = Z.max 0 (Z.min (finish self - start self + 1)
                   ((if base self =? 64 then 88 else 104) - start self)).
Proof.
  intros Hs Hwin.
  destruct (calculate_password_window_length _ _ _ Hs) as (text & Henc & ->).
  unfold window. rewrite slice_length by lia.
  rewrite (encoded_text_length _ _ _ Henc).
  destruct (base self =? 64); lia.
Qed.

Lemma calculate_password_length_witness :
  Z.of_nat (String.length "3hy=")
  = Z.max 0 (Z.min (200 - 100 + 1) (104 - 100)).
Proof.
  apply (calculate_password_length late_window "" "3hy=").
  - vm_compute. reflexivity.
  - simpl. lia.
Defined.

(** X4: an end index of -1 does not mean "up to the last character":
    the slice stops at [finish + 1 = 0], and the derived password is
    empty whatever the start index.  Stated for what can be hashed:
    proto-password, user name and host name without lone surrogate, and
    an iteration within the digits that [str] converts. *)
Theorem calculate_password_finish_minus_one (self : Password)
        (user_proto_pw : string) :
  base self = 32 \/ base self = 64 ->
  finish self = -1 ->
  Py.well_formed user_proto_pw = true ->
  Py.well_formed (username self) = true ->
  Py.well_formed (hostname self) = true ->
  Py.within_str_digits (iteration self) = true ->
  calculate_password self user_proto_pw = Ok ""%string.
Proof.
  intros Hbase Hfin Hp Hu Hh Hdig.
  destruct (calculate_password_returns self user_proto_pw Hbase Hdig)
    as [s Hs]; [apply hashed_text_well_formed; assumption|].
  rewrite Hs. f_equal.
  destruct (calculate_password_window_length _ _ _ Hs) as (text & _ & Hlen).
  assert (Hnil : List.length (window self text) = 0%nat).
  { unfold window, Py.slice. rewrite Hfin, length_firstn.
    change (-1 + 1) with 0. unfold Py.clamp_index at 1.
    change (0 <? 0) with false. cbv iota.
    unfold Py.clamp_index.
    destruct (start self <? 0) eqn:Hneg;
      [apply Z.ltb_lt in Hneg | apply Z.ltb_ge in Hneg]; lia. }
  rewrite Hnil in Hlen. destruct s; [reflexivity | discriminate].
Qed.

Lemma calculate_password_finish_minus_one_witness :
  calculate_password
    (mkPassword "nick" "user" "host" (PyBool false) 32 1 "hint" 3 (-1)) ""
  = Ok ""%string.
Proof.
  apply (calculate_password_finish_minus_one
           (mkPassword "nick" "user" "host" (PyBool false) 32 1 "hint" 3 (-1))
           "").
  - left. reflexivity.
  - reflexivity.
  - reflexivity.
  - reflexivity.
  - reflexivity.
  - reflexivity.
Defined.

Lemma byte_of_ascii_of_byte (b : Z) :
  0 <= b <= 255 -> Py.byte_of_ascii (Py.ascii_of_byte b) = b.
Proof.
  intros H. unfold Py.byte_of_ascii, Py.ascii_of_byte.
  rewrite N_ascii_embedding by lia. lia.
Qed.

Lemma lower_byte_not_upper (b : Z) :
  is_ascii b -> is_upper (Py.ascii_of_byte (Py.lower_byte b)) = false.
Proof.
  intros Hb. pose proof (lower_byte_ascii b Hb) as Hl.
  unfold is_upper. unfold is_ascii in *.
  rewrite byte_of_ascii_of_byte by lia.
  unfold Py.lower_byte in *.
  destruct (65 <=? b) eqn:H1; destruct (b <=? 90) eqn:H2; simpl in *; lia.
Qed.

Lemma count_char_decoded (c : ascii) (l : list Z) :
  Forall is_ascii l -> is_upper c = true ->
  count_char c (string_of_list_ascii
                  (List.map Py.ascii_of_byte (Py.lower l))) = 0%nat.
Proof.
  intros Hl Hc. induction Hl as [|b l Hb _ IH]; [reflexivity|].
  simpl. rewrite IH.
  destruct (Ascii.eqb_spec (Py.ascii_of_byte (Py.lower_byte b)) c) as [E|_];
    [|reflexivity].
  rewrite <- E, lower_byte_not_upper in Hc by exact Hb. discriminate.
Qed.

Lemma count_char_replace1 (c old new : ascii) (s : string) :
  (count_char c (Py.replace1 old new s)
   <= count_char c s + (if Ascii.eqb new c then 1 else 0))%nat.
Proof.
  induction s as [|x t IH]; simpl; [lia|].
  destruct (Ascii.eqb x old); simpl.
  - destruct (Ascii.eqb new c), (Ascii.eqb x c); lia.
  - destruct (Ascii.eqb x c); lia.
Qed.

Lemma translate_char_upper (x c : ascii) :
  is_upper c = true ->
  Ascii.eqb (Py.translate_char translator x) c = Ascii.eqb x c.
Proof.
  intros Hc. unfold translator. simpl.
  repeat match goal with
  | |- context [Ascii.eqb x ?k] =>
      lazymatch k with
      | c => fail
      | _ => destruct (Ascii.eqb_spec x k) as [-> | _]
      end
  end;
  try reflexivity;
  match goal with
  | |- Ascii.eqb ?a c = Ascii.eqb ?b c =>
      destruct (Ascii.eqb_spec a c) as [<- | _];
      [discriminate Hc|];
      destruct (Ascii.eqb_spec b c) as [<- | _];
      [discriminate Hc | reflexivity]
  end.
Qed.

Lemma count_char_translate (c : ascii) (s : string) :
  is_upper c = true ->
  count_char c (Py.translate translator s) = count_char c s.
Proof.
  intros Hc. induction s as [|x t IH]; [reflexivity|].
  change (Py.translate translator (String x t))
    with (String (Py.translate_char translator x)
                 (Py.translate translator t)).
  cbn [count_char].
  rewrite translate_char_upper, IH by exact Hc. reflexivity.
Qed.

(** X5: a derived password holds no capital letter other than B, D and
    Z, and each of these at most once: the window is lower-cased, only
    the first b, d and z are raised, and the special characters replace
    lower-case letters. *)
Theorem calculate_password_capitals (self : Password)
        (user_proto_pw s : string) (c : ascii) :
  calculate_password self user_proto_pw = Ok s ->
  is_upper c = true ->
  (count_char c s
   <= if Ascii.eqb c "B" || Ascii.eqb c "D" || Ascii.eqb c "Z"
      then 1 else 0)%nat.
Proof.
  intros Hs Hc.
  apply calculate_password_Ok in Hs
    as (fn & text & s0 & Hfn & _ & _ & -> & Hdec & ->).
  assert (Hs0 : count_char c s0 = 0%nat).
  { unfold Py.decode in Hdec. destruct (Py.utf8_valid _); [|discriminate].
    injection Hdec as <-. apply count_char_decoded; [|exact Hc].
    apply slice_Forall. eapply encode_fn_ascii, Hfn. }
  assert (Hch : (count_char c (change_letters s0)
                 <= (if Ascii.eqb "B" c then 1 else 0)
                    + (if Ascii.eqb "D" c then 1 else 0)
                    + (if Ascii.eqb "Z" c then 1 else 0))%nat).
  { unfold change_letters.
    pose proof (count_char_replace1 c "z" "Z"
                  (Py.replace1 "d" "D" (Py.replace1 "b" "B" s0))).
    pose proof (count_char_replace1 c "d" "D" (Py.replace1 "b" "B" s0)).
    pose proof (count_char_replace1 c "b" "B" s0). lia. }
  assert (Hle : (count_char c (change_letters s0)
                 <= if Ascii.eqb c "B" || Ascii.eqb c "D" || Ascii.eqb c "Z"
                    then 1 else 0)%nat).
  { rewrite (Ascii.eqb_sym c "B"), (Ascii.eqb_sym c "D"),
      (Ascii.eqb_sym c "Z").
    revert Hch.
    destruct (Ascii.eqb_spec "B" c) as [EB|_];
      destruct (Ascii.eqb_spec "D" c) as [ED|_];
      destruct (Ascii.eqb_spec "Z" c) as [EZ|_];
      simpl; try lia; congruence. }
  destruct (truthy (special_char self)); [|exact Hle].
  rewrite count_char_translate by exact Hc. exact Hle.
Qed.

Lemma calculate_password_capitals_witness :
  (count_char "D" "5wjDnwdyj4uxZd6g" <= 1)%nat.
Proof.
  apply (calculate_password_capitals (basic_password false 1) ""
           "5wjDnwdyj4uxZd6g" "D").
  - vm_compute. reflexivity.
  - reflexivity.
Defined.

(** ** The boundaries inside the derivation input *)

Lemma append_assoc (a b c : string) : (a +:+ b) +:+ c = a +:+ (b +:+ c).
Proof.
  induction a as [|x a IH]; [reflexivity|].
  change (String x ((a +:+ b) +:+ c) = String x (a +:+ (b +:+ c))).
  rewrite IH. reflexivity.
Qed.

(** X6: the derivation input is the plain concatenation of
    proto-password, user name, "@", host name and iteration, so text can
    move across a boundary without changing the password: from the end of
    the proto-password to the start of the user name, and, together with
    an "@", from the end of the user name to the start of the host name. *)
Theorem calculate_password_boundaries (self : Password)
        (user_proto_pw a : string) :
  let with_names u h :=
    mkPassword (nickname self) u h (special_char self) (base self)
               (iteration self) (hint self) (start self) (finish self) in
  calculate_password (with_names (a +:+ username self) (hostname self))
                     user_proto_pw
  = calculate_password (with_names (username self) (hostname self))
                       (user_proto_pw +:+ a)
  /\ calculate_password
       (with_names (username self +:+ "@" +:+ a) (hostname self))
       user_proto_pw
     = calculate_password
         (with_names (username self) (a +:+ "@" +:+ hostname self))
         user_proto_pw.
Proof.
  intros with_names. split; apply calculate_password_ext; try reflexivity;
    unfold proto_pw, with_names; cbn [iteration username hostname];
    destruct (Py.str (iteration self)); cbn [bind];
    rewrite ?append_assoc; reflexivity.
Qed.

(** * Further properties of class PasswordDB *)

(** ** Looking up one nickname *)

Lemma get_password_for_nick_open (db : PasswordDB) (rows : list Row)
      (nick : string) :
  conn db = Some rows ->
  get_password_for_nick nick db
  = match List.filter (has_nickname nick) rows with
    | [] => (Raise IndexError, db)
    | row :: _ => (Ok (Password_of_row row), db)
    end.
Proof.
  intros Hopen. unfold get_password_for_nick, bindM.
  rewrite (select_open db rows Hopen).
  destruct (List.filter (has_nickname nick) rows); reflexivity.
Qed.

Lemma filter_nickname_absent (rows : list Row) (nick : string) :
  ~ In nick (List.map col_nickname rows) ->
  List.filter (has_nickname nick) rows = [].
Proof.
  intros H. induction rows as [|r rows IH]; [reflexivity|]. simpl in *.
  destruct (has_nickname nick r) eqn:Hr.
  - apply has_nickname_true in Hr. tauto.
  - apply IH. tauto.
Qed.

Lemma filter_nickname_present (rows : list Row) (nick : string) :
  In nick (List.map col_nickname rows) ->
  exists row rest, List.filter (has_nickname nick) rows = row :: rest.
Proof.
  intros H. destruct (List.filter (has_nickname nick) rows) eqn:Hf; [|eauto].
  exfalso. apply in_map_iff in H as (r & Hr & Hin).
  assert (Hin' : In r (List.filter (has_nickname nick) rows)).
  { apply List.filter_In. split; [exact Hin|]. apply has_nickname_true, Hr. }
  rewrite Hf in Hin'. exact Hin'.
Qed.

Lemma last_default_irrelevant {A : Type} (z d d' : A) (l : list A) :
  List.last (z :: l) d = List.last (z :: l) d'.
Proof.
  revert z. induction l as [|y l IH]; intros z; [reflexivity|].
  change (List.last (y :: l) d = List.last (y :: l) d'). apply IH.
Qed.

Lemma last_cons_default {A : Type} (x : A) (l : list A) :
  last (x :: l) = Some (List.last l x).
Proof.
  revert x. induction l as [|y l IH]; intros x; [reflexivity|].
  change (last (x :: y :: l)) with (last (y :: l)). rewrite IH. f_equal.
  destruct l as [|z l]; [reflexivity|].
  change (List.last (y :: z :: l) x) with (List.last (z :: l) x).
  apply last_default_irrelevant.
Qed.



(** X8: when several rows carry a nickname, [get_password_for_nick]
    returns the first of them while the dictionary of
    [get_all_password_objects] holds the last; the two agree when the
    nickname occurs once. *)
Theorem get_password_for_nick_first (db : PasswordDB) (rows : list Row)
        (nick : string) :
  conn db = Some rows ->
  In nick (List.map col_nickname rows) ->
  exists row rest d,
    List.filter (has_nickname nick) rows = row :: rest
    /\ get_password_for_nick nick db = (Ok (Password_of_row row), db)
    /\ get_all_password_objects db = (Ok d, db)
    /\ d !! nick = Some (Password_of_row (List.last rest row)).
Proof.
  intros Hopen Hin.
  destruct (filter_nickname_present rows nick Hin) as (row & rest & Hf).
  exists row, rest, (dict_of_rows rows). split; [exact Hf|].
  split; [rewrite (get_password_for_nick_open db rows nick Hopen), Hf;
          reflexivity|].
  split; [apply get_all_password_objects_open, Hopen|].
  rewrite dict_of_rows_lookup, Hf, last_cons_default. reflexivity.
Qed.

Lemma get_password_for_nick_first_witness :
  exists row rest d,
    List.filter (has_nickname "alice")
                [row_of_Password bob; row_of_Password alice] = row :: rest
    /\ get_password_for_nick "alice" alice_bob_db
       = (Ok (Password_of_row row), alice_bob_db)
    /\ get_all_password_objects alice_bob_db = (Ok d, alice_bob_db)
    /\ d !! "alice" = Some (Password_of_row (List.last rest row)).
Proof.
  apply (get_password_for_nick_first alice_bob_db
           [row_of_Password bob; row_of_Password alice] "alice").
  - reflexivity.
  - simpl. right. left. reflexivity.
Defined.

(** X9: after [create_new_password e], for an entry that sqlite can
    store, on a store that already holds the nickname of [e],
    [get_password_for_nick] still returns the oldest entry with that
    nickname, not [e]. *)
Theorem get_password_for_nick_stale (db : PasswordDB) (rows : list Row)
        (e : Password) :
  conn db = Some rows ->
  In (nickname e) (List.map col_nickname rows) ->
  storable e = true ->
  exists db' old rest,
    List.filter (has_nickname (nickname e)) rows = old :: rest
    /\ create_new_password e db = (Ok tt, db')
    /\ get_password_for_nick (nickname e) db'
       = (Ok (Password_of_row old), db').
Proof.
  intros Hopen Hin Hst.
  destruct (filter_nickname_present rows _ Hin) as (old & rest & Hf).
  eexists _, old, rest. split; [exact Hf|].
  split; [apply (create_new_password_open db rows Hopen e Hst)|].
  rewrite (get_password_for_nick_open _ (rows ++ [row_of_Password e]))
    by reflexivity.
  rewrite List.filter_app, Hf. reflexivity.
Qed.

Lemma get_password_for_nick_stale_witness :
  exists db' old rest,
    List.filter (has_nickname (nickname alice2))
                [row_of_Password bob; row_of_Password alice] = old :: rest
    /\ create_new_password alice2 alice_bob_db = (Ok tt, db')
    /\ get_password_for_nick (nickname alice2) db'
       = (Ok (Password_of_row old), db').
Proof.
  apply (get_password_for_nick_stale alice_bob_db
           [row_of_Password bob; row_of_Password alice] alice2).
  - reflexivity.
  - simpl. right. left. reflexivity.
  - reflexivity.
Defined.

(** X10: after [create_new_password e], for an entry that sqlite can
    store, with a nickname that the store did not hold,
    [get_password_for_nick] returns the password read back from the row
    of [e], equal to [e] for [Password.__eq__]. *)
Theorem get_password_for_nick_created (db : PasswordDB) (rows : list Row)
        (e : Password) :
  conn db = Some rows ->
  ~ In (nickname e) (List.map col_nickname rows) ->
  storable e = true ->
  exists db',
    create_new_password e db = (Ok tt, db')
    /\ get_password_for_nick (nickname e) db'
       = (Ok (Password_of_row (row_of_Password e)), db')
    /\ Password_eq (Password_of_row (row_of_Password e)) e = true.
Proof.
  intros Hopen Hfresh Hst. eexists.
  split; [apply (create_new_password_open db rows Hopen e Hst)|].
  split; [|apply Password_eq_stored].
  rewrite (get_password_for_nick_open _ (rows ++ [row_of_Password e]))
    by reflexivity.
  rewrite List.filter_app, filter_nickname_absent by exact Hfresh.
  simpl. unfold has_nickname. simpl. rewrite String.eqb_refl. reflexivity.
Qed.

Lemma get_password_for_nick_created_witness :
  exists db',
    create_new_password carol alice_bob_db = (Ok tt, db')
    /\ get_password_for_nick (nickname carol) db'
       = (Ok (Password_of_row (row_of_Password carol)), db')
    /\ Password_eq (Password_of_row (row_of_Password carol)) carol = true.
Proof.
  apply (get_password_for_nick_created alice_bob_db
           [row_of_Password bob; row_of_Password alice] carol).
  - reflexivity.
  - simpl. intros [H | [H | []]]; discriminate H.
  - reflexivity.
Defined.

(** ** A closed store *)

(** X11: once the connection is closed every method of [PasswordDB]
    raises [ProgrammingError] and leaves the object as it is. *)
Theorem closed_store_raises (db : PasswordDB) (nick : string) (e : Password)
        (arg : nickname_or_pw_obj) :
  conn db = None ->
  get_list_of_nicks db = (Raise ProgrammingError, db)
  /\ get_password_for_nick nick db = (Raise ProgrammingError, db)
  /\ get_all_password_objects db = (Raise ProgrammingError, db)
  /\ create_new_password e db = (Raise ProgrammingError, db)
  /\ update_old_password nick e db = (Raise ProgrammingError, db)
  /\ delete_password arg db = (Raise ProgrammingError, db)
  /\ close_db db = (Raise ProgrammingError, db).
Proof.
  intros H.
  unfold get_list_of_nicks, get_password_for_nick, get_all_password_objects,
    create_new_password, update_old_password, delete_password, close_db,
    _run_create, _run_delete, bindM, Sqlite.select_where, Sqlite.insert,
    Sqlite.delete_where, Sqlite.commit.
  rewrite H. repeat split.
Qed.

Lemma closed_store_raises_witness :
  get_list_of_nicks (snd (close_db alice_bob_db))
  = (Raise ProgrammingError, snd (close_db alice_bob_db)).
Proof.
  apply (closed_store_raises (snd (close_db alice_bob_db)) "alice" alice
           (ByNickname "alice")).
  reflexivity.
Defined.

(** ** What is committed, and what is left alone *)



(** ** Other nicknames are left alone *)

Lemma filter_other_nickname (rows : list Row) (nick k : string) :
  k <> nick ->
  List.filter (has_nickname k)
              (List.filter (fun r => negb (has_nickname nick r)) rows)
  = List.filter (has_nickname k) rows.
Proof.
  intros Hne. induction rows as [|r rows IH]; [reflexivity|]. simpl.
  destruct (has_nickname nick r) eqn:Hn; simpl.
  - apply has_nickname_true in Hn.
    replace (has_nickname k r) with false; [exact IH|].
    symmetry. apply has_nickname_false. congruence.
  - destruct (has_nickname k r); rewrite IH; reflexivity.
Qed.

Lemma dict_of_rows_delete_other (rows : list Row) (nick k : string) :
  k <> nick ->
  dict_of_rows (List.filter (fun r => negb (has_nickname nick r)) rows) !! k
  = dict_of_rows rows !! k.
Proof.
  intros Hne. rewrite !dict_of_rows_lookup, filter_other_nickname by exact Hne.
  reflexivity.
Qed.

(** X13: [create_new_password e], [delete_password nick] and
    [update_old_password nick e] change the dictionary loaded from the
    store at the nicknames they name only: under any other key [k] it
    holds what it held before. *)
Theorem other_nicknames_kept (db : PasswordDB) (rows : list Row)
        (nick k : string) (e : Password) :
  conn db = Some rows ->
  k <> nick -> k <> nickname e ->
  exists d d1 d2 d3,
    fst (get_all_password_objects db) = Ok d
    /\ fst (get_all_password_objects (snd (create_new_password e db))) = Ok d1
    /\ fst (get_all_password_objects
              (snd (delete_password (ByNickname nick) db))) = Ok d2
    /\ fst (get_all_password_objects
              (snd (update_old_password nick e db))) = Ok d3
    /\ d1 !! k = d !! k /\ d2 !! k = d !! k /\ d3 !! k = d !! k.
Proof.
  intros Hopen Hnick He.
  rewrite (get_all_password_objects_open db rows Hopen).
  rewrite (create_new_password_state db rows e Hopen).
  rewrite (delete_password_open db rows Hopen (ByNickname nick)).
  rewrite (update_old_password_state db rows nick e Hopen).
  cbn [snd]. cbv zeta.
  destruct (storable e).
  - eexists _, _, _, _.
    split; [reflexivity|].
    split; [erewrite get_all_password_objects_open by reflexivity;
            reflexivity|].
    split; [erewrite get_all_password_objects_open by reflexivity;
            reflexivity|].
    split; [erewrite get_all_password_objects_open by reflexivity;
            reflexivity|].
    split; [|split].
    + rewrite dict_of_rows_snoc. apply lookup_insert_ne. simpl. congruence.
    + apply dict_of_rows_delete_other, Hnick.
    + rewrite dict_of_rows_snoc, lookup_insert_ne by (simpl; congruence).
      apply dict_of_rows_delete_other, Hnick.
  - eexists _, _, _, _.
    split; [reflexivity|].
    split; [rewrite (get_all_password_objects_open db rows Hopen);
            reflexivity|].
    split; [erewrite get_all_password_objects_open by reflexivity;
            reflexivity|].
    split; [erewrite get_all_password_objects_open by reflexivity;
            reflexivity|].
    split; [reflexivity|].
    split; apply dict_of_rows_delete_other, Hnick.
Qed.

Lemma other_nicknames_kept_witness :
  exists d d1 d2 d3,
    fst (get_all_password_objects alice_bob_db) = Ok d
    /\ fst (get_all_password_objects
              (snd (create_new_password carol alice_bob_db))) = Ok d1
    /\ fst (get_all_password_objects
              (snd (delete_password (ByNickname "alice") alice_bob_db)))
       = Ok d2
    /\ fst (get_all_password_objects
              (snd (update_old_password "alice" carol alice_bob_db))) = Ok d3
    /\ d1 !! "bob" = d !! "bob" /\ d2 !! "bob" = d !! "bob"
    /\ d3 !! "bob" = d !! "bob".
Proof.
  apply (other_nicknames_kept alice_bob_db
           [row_of_Password bob; row_of_Password alice] "alice" "bob" carol).
  - reflexivity.
  - discriminate.
  - discriminate.
Defined.

(** ** Create then delete, delete twice *)





(** ** Distinct nicknames *)

Lemma NoDup_filter_nicknames (rows : list Row) (keep : Row -> bool) :
  List.NoDup (List.map col_nickname rows) ->
  List.NoDup (List.map col_nickname (List.filter keep rows)).
Proof.
  induction rows as [|r rows IH]; simpl; [auto|].
  intros H. apply List.NoDup_cons_iff in H as [Hnot Hnd].
  destruct (keep r); simpl; [|auto].
  apply List.NoDup_cons_iff. split; [|auto].
  intros Hin. apply Hnot. apply in_map_iff in Hin as (x & Hx & Hin).
  apply in_map_iff. exists x. split; [exact Hx|].
  apply List.filter_In in Hin. tauto.
Qed.

Lemma NoDup_snoc_nicknames (rows : list Row) (r : Row) :
  List.NoDup (List.map col_nickname rows) ->
  ~ In (col_nickname r) (List.map col_nickname rows) ->
  List.NoDup (List.map col_nickname (rows ++ [r])).
Proof.
  intros Hnd Hfresh. rewrite List.map_app. simpl.
  apply List.NoDup_app; [exact Hnd | |].
  - constructor; [simpl; tauto | constructor].
  - intros x Hx [Hx' | []]. subst x. contradiction.
Qed.

Lemma In_filter_nicknames (rows : list Row) (keep : Row -> bool) (k : string) :
  In k (List.map col_nickname (List.filter keep rows)) ->
  In k (List.map col_nickname rows).
Proof.
  rewrite !in_map_iff. intros (x & Hx & Hin).
  exists x. split; [exact Hx|]. apply List.filter_In in Hin. tauto.
Qed.

Lemma dict_of_rows_size (rows : list Row) :
  List.NoDup (List.map col_nickname rows) ->
  size (dict_of_rows rows) = List.length rows.
Proof.
  induction rows as [|r rows IH] using rev_ind; [reflexivity|].
  rewrite List.map_app. simpl. intros H.
  pose proof (List.NoDup_remove_1 _ _ _ H) as Hnd.
  pose proof (List.NoDup_remove_2 _ _ _ H) as Hnot.
  rewrite app_nil_r in Hnd, Hnot.
  rewrite dict_of_rows_snoc, length_app. simpl.
  rewrite map_size_insert_None.
  - rewrite IH by exact Hnd. lia.
  - apply dict_of_rows_absent, Hnot.
Qed.

(** X15: a store whose rows carry distinct nicknames keeps them distinct
    under [create_new_password e] and [update_old_password nick e] when
    no row carries the nickname of [e], and under [delete_password]; and
    the dictionary loaded from such a store has one entry per row. *)
Theorem distinct_nicknames_kept (db : PasswordDB) (rows : list Row)
        (nick : string) (e : Password) (arg : nickname_or_pw_obj) :
  conn db = Some rows ->
  List.NoDup (List.map col_nickname rows) ->
  ~ In (nickname e) (List.map col_nickname rows) ->
  List.NoDup (stored_nicknames (snd (create_new_password e db)))
  /\ List.NoDup (stored_nicknames (snd (update_old_password nick e db)))
  /\ List.NoDup (stored_nicknames (snd (delete_password arg db)))
  /\ exists d, get_all_password_objects db = (Ok d, db)
               /\ size d = List.length rows.
Proof.
  intros Hopen Hnd Hfresh.
  rewrite (create_new_password_state db rows e Hopen).
  rewrite (update_old_password_state db rows nick e Hopen).
  rewrite (delete_password_open db rows Hopen arg).
  unfold stored_nicknames. cbv zeta.
  assert (Hlast : exists d, get_all_password_objects db = (Ok d, db)
                            /\ size d = List.length rows).
  { exists (dict_of_rows rows).
    split; [apply get_all_password_objects_open, Hopen|].
    apply dict_of_rows_size, Hnd. }
  destruct (storable e); cbn [snd conn]; rewrite ?Hopen.
  - split; [apply NoDup_snoc_nicknames; assumption|].
    split; [|split; [apply NoDup_filter_nicknames, Hnd | exact Hlast]].
    apply NoDup_snoc_nicknames; [apply NoDup_filter_nicknames, Hnd|].
    intros Hin. apply Hfresh. eapply In_filter_nicknames, Hin.
  - split; [exact Hnd|].
    split; [apply NoDup_filter_nicknames, Hnd|].
    split; [apply NoDup_filter_nicknames, Hnd | exact Hlast].
Qed.

Lemma distinct_nicknames_kept_witness :
  List.NoDup (stored_nicknames (snd (create_new_password carol alice_bob_db))).
Proof.
  apply (distinct_nicknames_kept alice_bob_db
           [row_of_Password bob; row_of_Password alice] "alice" carol
           (ByNickname "bob")).
  - reflexivity.
  - simpl. repeat constructor; simpl; intuition discriminate.
  - simpl. intros [H | [H | []]]; discriminate H.
Defined.

(** ** The list of nicknames and the keys of the dictionary *)

Lemma In_keys_map_to_list (d : gmap string Password) (k : string) :
  In k (List.map fst (map_to_list d)) <-> is_Some (d !! k).
Proof.
  rewrite in_map_iff. split.
  - intros ([k' p] & Hk & Hin). simpl in Hk. subst k'.
    apply list_elem_of_In, elem_of_map_to_list in Hin. eauto.
  - intros [p Hp]. exists (k, p). split; [reflexivity|].
    apply list_elem_of_In, elem_of_map_to_list. exact Hp.
Qed.

Lemma NoDup_keys_map_to_list (d : gmap string Password) :
  List.NoDup (List.map fst (map_to_list d)).
Proof.
  apply NoDup_ListNoDup.
  replace (List.map fst (map_to_list d)) with ((map_to_list d).*1).
  - apply NoDup_fst_map_to_list.
  - induction (map_to_list d) as [|x l IH]; [reflexivity|].
    rewrite fmap_cons. simpl. congruence.
Qed.

Lemma keys_of_dict_of_rows (rows : list Row) :
  List.NoDup (List.map col_nickname rows) ->
  Permutation (List.map fst (map_to_list (dict_of_rows rows)))
              (List.map col_nickname rows).
Proof.
  intros Hnd. apply Stdlib.Sorting.Permutation.NoDup_Permutation.
  - apply NoDup_keys_map_to_list.
  - exact Hnd.
  - intros k. rewrite In_keys_map_to_list. split.
    + intros Hk.
      destruct (in_dec string_dec k (List.map col_nickname rows)) as [H|H];
        [exact H|].
      apply dict_of_rows_absent in H. rewrite H in Hk.
      destruct Hk as [p Hp]. discriminate.
    + apply dict_of_rows_present.
Qed.

(** X16: on a store whose rows carry distinct nicknames,
    [get_list_of_nicks] is the sorted list of the keys of the dictionary
    that [get_all_password_objects] loads: the list by which the front
    ends number and select the entries. *)
Theorem get_list_of_nicks_sorted_keys (db : PasswordDB) (rows : list Row) :
  conn db = Some rows ->
  List.NoDup (List.map col_nickname rows) ->
  exists d,
    get_all_password_objects db = (Ok d, db)
    /\ get_list_of_nicks db = (Ok (sorted_keys d), db).
Proof.
  intros Hopen Hnd. exists (dict_of_rows rows).
  split; [apply get_all_password_objects_open, Hopen|].
  rewrite (get_list_of_nicks_open db rows Hopen). unfold sorted_keys.
  rewrite (sorted_Permutation _ _ (keys_of_dict_of_rows rows Hnd)).
  reflexivity.
Qed.

Lemma get_list_of_nicks_sorted_keys_witness :
  exists d,
    get_all_password_objects alice_bob_db = (Ok d, alice_bob_db)
    /\ get_list_of_nicks alice_bob_db = (Ok (sorted_keys d), alice_bob_db).
Proof.
  apply (get_list_of_nicks_sorted_keys alice_bob_db
           [row_of_Password bob; row_of_Password alice]).
  - reflexivity.
  - simpl. repeat constructor; simpl; intuition discriminate.
Defined.

(** ** Update under the same nickname *)

(** X17: [update_old_password old e] with [e.nickname == old], for an
    entry that sqlite can store, leaves exactly one row under that
    nickname, the row of [e], placed last, however many rows carried the
    nickname before; the dictionary loaded afterwards holds [e] under
    it. *)
Theorem update_old_password_same_key (db : PasswordDB) (rows : list Row)
        (old : string) (e : Password) :
  conn db = Some rows ->
  nickname e = old ->
  storable e = true ->
  exists db' rows' d,
    update_old_password old e db = (Ok tt, db')
    /\ conn db' = Some rows'
    /\ List.filter (has_nickname old) rows' = [row_of_Password e]
    /\ List.last rows' (row_of_Password e) = row_of_Password e
    /\ get_all_password_objects db' = (Ok d, db')
    /\ d !! old = Some (Password_of_row (row_of_Password e))
    /\ Password_eq (Password_of_row (row_of_Password e)) e = true.
Proof.
  intros Hopen Hsame Hst. eexists _, _, _.
  split; [apply (update_old_password_open db rows Hopen old e Hst)|].
  split; [reflexivity|].
  assert (Hf : List.filter (has_nickname old)
                 (List.filter (fun r => negb (has_nickname old r)) rows
                  ++ [row_of_Password e]) = [row_of_Password e]).
  { rewrite List.filter_app.
    rewrite (filter_nickname_absent _ old (nicknames_after_delete rows old)).
    simpl. unfold has_nickname. simpl. rewrite Hsame, String.eqb_refl.
    reflexivity. }
  split; [exact Hf|].
  split; [apply List.last_last|].
  split; [apply get_all_password_objects_open; reflexivity|].
  split; [|apply Password_eq_stored].
  rewrite dict_of_rows_lookup, Hf. reflexivity.
Qed.

Lemma update_old_password_same_key_witness :
  exists db' rows' d,
    update_old_password "alice" alice2 alice_bob_db = (Ok tt, db')
    /\ conn db' = Some rows'
    /\ List.filter (has_nickname "alice") rows' = [row_of_Password alice2]
    /\ List.last rows' (row_of_Password alice2) = row_of_Password alice2
    /\ get_all_password_objects db' = (Ok d, db')
    /\ d !! "alice" = Some (Password_of_row (row_of_Password alice2))
    /\ Password_eq (Password_of_row (row_of_Password alice2)) alice2 = true.
Proof.
  apply (update_old_password_same_key alice_bob_db
           [row_of_Password bob; row_of_Password alice] "alice" alice2).
  - reflexivity.
  - reflexivity.
  - reflexivity.
Defined.

(** * Properties of the command line *)

(** ** The tests of the command line *)

(** [test_create], [test_create_with_num_error], [test_delete],
    [test_update] and [test_hint] of [cli/tests/test_key_cli.py]. *)
Example test_create :
  let run := create_pass decimal_of_str None (empty_world TEST_CREATE_INPUT) in
  fst run = Done "nick"%string
  /\ pass_dic (snd run) !! "nick"
     = Some (mkPassword "nick" "user" "host" (PyBool true) 32 1 "hint" 0 20)
  /\ fst (get_list_of_nicks (pass_db (snd run))) = Ok ["nick"%string]
  /\ stdin (snd run) = [].
Proof. vm_compute. tauto. Qed.

Example test_create_with_num_error :
  let run := create_pass decimal_of_str None
                         (empty_world TEST_CREATE_INPUT_WITH_ERR) in
  fst run = Done "nick"%string
  /\ pass_dic (snd run) !! "nick"
     = Some (mkPassword "nick" "user" "host" (PyBool true) 32 1 "hint" 0 20).
Proof. vm_compute. tauto. Qed.

Example test_delete :
  let created :=
    snd (create_pass decimal_of_str None (empty_world TEST_CREATE_INPUT)) in
  let run := delete_pass decimal_of_str (Some "nick"%string) created in
  fst run = Done tt
  /\ pass_dic (snd run) !! "nick" = None
  /\ fst (get_list_of_nicks (pass_db (snd run))) = Ok [].
Proof. vm_compute. tauto. Qed.

Example test_update :
  let created :=
    snd (create_pass decimal_of_str None (empty_world TEST_CREATE_INPUT)) in
  let run := update_pass decimal_of_str (Some "nick"%string)
                         (reading created TEST2_CREATE_INPUT []) in
  fst run = Done "nick2"%string
  /\ pass_dic (snd run) !! "nick" = None
  /\ pass_dic (snd run) !! "nick2"
     = Some (mkPassword "nick2" "user2" "host2" (PyBool true) 32 1 "hint2"
                        5 15)
  /\ fst (get_list_of_nicks (pass_db (snd run))) = Ok ["nick2"%string].
Proof. vm_compute. tauto. Qed.

Example test_hint :
  let created :=
    snd (create_pass decimal_of_str None (empty_world TEST_CREATE_INPUT)) in
  let run := hint_pass decimal_of_str (Some "nick"%string)
                       (reading created [] []) in
  fst run = Done tt
  /\ List.last (output (snd run)) (Print "") = Print "Hint: hint".
Proof. vm_compute. tauto. Qed.

(** The proto-passwords of the tests: a mismatch, then a match. *)
Example test_get :
  let created :=
    snd (create_pass decimal_of_str None (empty_world TEST_CREATE_INPUT)) in
  let run := get_pass decimal_of_str (Some "nick"%string)
               (mkWorld [] (DevTty ["pass"; "qass"; "pass"; "pass"]%string) []
                        (pass_db created) (pass_dic created)) in
  fst run = Done tt
  /\ output (snd run)
     = [PromptTty _MSG_ENTER_PROTO_PW_1; PromptTty _MSG_ENTER_PROTO_PW_2;
        PrintErr _MSG_PROTO_PW_MISMATCH;
        PromptTty _MSG_ENTER_PROTO_PW_1; PromptTty _MSG_ENTER_PROTO_PW_2;
        Print ("Password: " +:+
               match calculate_password
                       (mkPassword "nick" "user" "host" (PyBool true) 32 1
                                   "hint" 0 20) "pass" with
               | Ok s => s
               | Raise _ => ""
               end)].
Proof. vm_compute. tauto. Qed.

(** An iteration of twenty digits is read, and refused by sqlite: the
    entry is in the dictionary and not in the table, and, when an entry
    was to be replaced, that entry is gone. *)
Example create_pass_refused :
  let run := create_pass decimal_of_str None
               (empty_world ["nick"; "user"; "host"; "y"; "";
                             "9223372036854775808"; "hint"; ""; "20"]%string) in
  fst run = Fail (Lib OverflowError)
  /\ is_Some (pass_dic (snd run) !! "nick")
  /\ pass_db (snd run) = PasswordDB_init [] true.
Proof. vm_compute. eauto. Qed.

Example update_pass_refused :
  let run := update_pass decimal_of_str (Some "nick"%string)
               (test_world ["nick2"; "user2"; "host2"; "y"; "";
                            "9223372036854775808"; "hint2"; "5"; "15"]%string
                           []) in
  fst run = Fail (Lib OverflowError)
  /\ pass_dic (snd run) !! "nick" = None
  /\ is_Some (pass_dic (snd run) !! "nick2")
  /\ pass_db (snd run) = mkDB [] (Some []).
Proof. vm_compute. eauto. Qed.

Section CommandLineProperties.

Variable int_of_str : string -> option Z.

(** ** Reading lines *)

Lemma input_line (prompt line : string) (rest : list string) (w : world) :
  stdin w = line :: rest ->
  input prompt w = (Done line, reading w rest [Prompt prompt]).
Proof.
  intros H. unfold input, bindC, emit, reading. simpl. rewrite H. reflexivity.
Qed.

Lemma input_eof (prompt : string) (w : world) :
  stdin w = [] ->
  input prompt w = (Fail EOFError, reading w [] [Prompt prompt]).
Proof.
  intros H. unfold input, bindC, emit, reading. simpl. rewrite H. reflexivity.
Qed.

Lemma reading_reading (w : world) (l l' : list string) (e e' : list event) :
  reading (reading w l e) l' e' = reading w l' (e ++ e').
Proof. unfold reading. simpl. rewrite app_assoc. reflexivity. Qed.

Lemma reading_nil (w : world) : reading w (stdin w) [] = w.
Proof. destruct w. unfold reading. simpl. rewrite app_nil_r. reflexivity. Qed.

Lemma read_loop_skip (prompt : string) (default : option Z)
      (skipped : list string) :
  forall (k : nat) (w : world) (tail : list string),
    stdin w = skipped ++ tail ->
    Forall (fun l => int_or_default int_of_str default l = None) skipped ->
    read_default_int_loop int_of_str (List.length skipped + S k) prompt
                          default w
    = read_default_int_loop int_of_str (S k) prompt default
        (reading w tail (repeat (Prompt prompt) (List.length skipped))).
Proof.
  induction skipped as [|l skipped IH]; intros k w tail Hin Hrej.
  - simpl in Hin. rewrite <- Hin, reading_nil. reflexivity.
  - apply Forall_cons_1 in Hrej as [Hl Hrej].
    change (List.length (l :: skipped) + S k)%nat
      with (S (List.length skipped + S k)).
    cbn [read_default_int_loop]. unfold bindC at 1.
    rewrite (input_line prompt l (skipped ++ tail) w Hin).
    unfold int_or_default in Hl. rewrite Hl.
    rewrite (IH k (reading w (skipped ++ tail) [Prompt prompt]) tail
                eq_refl Hrej), reading_reading.
    reflexivity.
Qed.

Lemma read_default_int_spec (prompt : string) (default : option Z)
        (w : world) (skipped tail : list string) :
  stdin w = skipped ++ tail ->
  Forall (fun l => int_or_default int_of_str default l = None) skipped ->
  (forall line, head tail = Some line ->
                is_Some (int_or_default int_of_str default line)) ->
  _read_default_int int_of_str prompt default w
  = (match head tail ≫= int_or_default int_of_str default with
     | Some n => Done n
     | None => Fail EOFError
     end,
     reading w (List.tl tail)
             (repeat (Prompt prompt) (S (List.length skipped)))).
Proof.
  intros Hin Hrej Hacc. unfold _read_default_int.
  rewrite Hin, length_app.
  replace (S (List.length skipped + List.length tail))
    with (List.length skipped + S (List.length tail))%nat by lia.
  rewrite (read_loop_skip prompt default skipped _ w tail Hin Hrej).
  cbn [read_default_int_loop]. unfold bindC at 1.
  replace (repeat (Prompt prompt) (S (List.length skipped)))
    with (repeat (Prompt prompt) (List.length skipped) ++ [Prompt prompt])
    by (rewrite <- repeat_cons; reflexivity).
  destruct tail as [|line rest].
  - rewrite input_eof by reflexivity. rewrite reading_reading. reflexivity.
  - rewrite (input_line prompt line rest) by reflexivity.
    rewrite reading_reading. simpl.
    destruct (Hacc line eq_refl) as [n Hn].
    unfold int_or_default in Hn. rewrite Hn. simpl.
    unfold int_or_default. rewrite Hn. reflexivity.
Qed.

(** X18: [_read_default_int] skips the lines that are neither empty (or
    empty, when there is no default) nor convertible to an integer, with
    one prompt for each, and returns for the first other line the default
    or the integer; when no such line is left it ends with [EOFError].
    It touches nothing but the input and the output. *)
Theorem read_default_int_returns (prompt : string) (default : option Z)
        (w : world) (skipped tail : list string) :
  stdin w = skipped ++ tail ->
  Forall (fun l => int_or_default int_of_str default l = None) skipped ->
  (forall line, head tail = Some line ->
                is_Some (int_or_default int_of_str default line)) ->
  _read_default_int int_of_str prompt default w
  = (match head tail ≫= int_or_default int_of_str default with
     | Some n => Done n
     | None => Fail EOFError
     end,
     reading w (List.tl tail)
             (repeat (Prompt prompt) (S (List.length skipped)))).
Proof. apply read_default_int_spec. Qed.

End CommandLineProperties.

Lemma read_default_int_returns_witness :
  _read_default_int decimal_of_str "Base ([32]/64): " (Some 32)
                    (empty_world ["abcd"; ""; "7"]%string)
  = (Done 32,
     reading (empty_world ["abcd"; ""; "7"]%string) ["7"%string]
             [Prompt "Base ([32]/64): "; Prompt "Base ([32]/64): "]).
Proof.
  apply (read_default_int_returns decimal_of_str "Base ([32]/64): " (Some 32)
           (empty_world ["abcd"; ""; "7"]%string) ["abcd"%string]
           [""; "7"]%string).
  - reflexivity.
  - repeat constructor.
  - intros line [= <-]. eexists. reflexivity.
Defined.

(** ** Steps that leave the database and the dictionary alone *)

Lemma same_store_refl (w : world) : same_store w w.
Proof. split; reflexivity. Qed.

Lemma same_store_trans (w1 w2 w3 : world) :
  same_store w1 w2 -> same_store w2 w3 -> same_store w1 w3.
Proof. unfold same_store. intros [H1 H2] [H3 H4]. split; congruence. Qed.

Lemma keeps_ret {A : Type} (a : A) : keeps (retC a) (fun _ b => b = a).
Proof. intros w. simpl. split; [apply same_store_refl | reflexivity]. Qed.

Lemma keeps_bind {A B : Type} (m : C A) (k : A -> C B)
      (P : gmap string Password -> A -> Prop)
      (Q : A -> gmap string Password -> B -> Prop) :
  keeps m P -> (forall a, keeps (k a) (Q a)) ->
  keeps (bindC m k) (fun d b => exists a, P d a /\ Q a d b).
Proof.
  intros Hm Hk w. unfold bindC. specialize (Hm w).
  destruct (m w) as [[a|e] w1]; [|exact Hm].
  destruct Hm as [Hs HP]. specialize (Hk a w1).
  destruct (k a w1) as [[b|e] w2].
  - destruct Hk as [Hs' HQ]. split; [eapply same_store_trans; eassumption|].
    exists a. split; [exact HP|]. destruct Hs as [_ <-]. exact HQ.
  - destruct Hk as [He Hs']. split; [exact He|].
    eapply same_store_trans; eassumption.
Qed.

Lemma keeps_weaken {A : Type} (m : C A)
      (P Q : gmap string Password -> A -> Prop) :
  keeps m P -> (forall d a, P d a -> Q d a) -> keeps m Q.
Proof.
  intros Hm HPQ w. specialize (Hm w). destruct (m w) as [[a|e] w1]; [|exact Hm].
  destruct Hm as [Hs HP]. split; [exact Hs | apply HPQ, HP].
Qed.

Lemma keeps_emit (e : event) : keeps (emit e) (fun _ _ => True).
Proof. intros w. simpl. repeat split. Qed.

Lemma keeps_input (prompt : string) : keeps (input prompt) (fun _ _ => True).
Proof.
  intros w. unfold input, bindC, emit. simpl.
  destruct (stdin w); simpl; repeat split.
Qed.

Lemma keeps_get_dic : keeps get_dic (fun d a => a = d).
Proof. intros w. simpl. split; [apply same_store_refl | reflexivity]. Qed.

Lemma input_consumes (prompt : string) (w : world) :
  match input prompt w with
  | (Done _, w') => S (List.length (stdin w')) = List.length (stdin w)
  | (Fail _, w') => stdin w' = stdin w
  end.
Proof.
  unfold input, bindC, emit. simpl.
  destruct (stdin w); reflexivity.
Qed.

Section CommandLineStore.

Variable int_of_str : string -> option Z.

Lemma read_loop_post (prompt : string) (default : option Z) (fuel : nat) :
  forall w,
    (List.length (stdin w) < fuel)%nat ->
    match read_default_int_loop int_of_str fuel prompt default w with
    | (Done _, w') =>
        same_store w w'
        /\ (List.length (stdin w') < List.length (stdin w))%nat
    | (Fail e, w') => e = EOFError /\ same_store w w'
    end.
Proof.
  induction fuel as [|fuel IH]; intros w Hlt; [lia|].
  cbn [read_default_int_loop]. unfold bindC at 1.
  pose proof (keeps_input prompt w) as Hk.
  pose proof (input_consumes prompt w) as Hc.
  destruct (input prompt w) as [[line|e] w1]; [|exact Hk].
  destruct Hk as [Hs _].
  destruct (if String.eqb line "" then default else int_of_str line).
  - simpl. split; [exact Hs | lia].
  - specialize (IH w1 ltac:(lia)).
    destruct (read_default_int_loop int_of_str fuel prompt default w1)
      as [[n|e] w2].
    + destruct IH as [Hs' Hlt']. split; [|lia].
      eapply same_store_trans; eassumption.
    + destruct IH as [He Hs']. split; [exact He|].
      eapply same_store_trans; eassumption.
Qed.

Lemma read_default_int_post (prompt : string) (default : option Z)
      (w : world) :
  match _read_default_int int_of_str prompt default w with
  | (Done _, w') =>
      same_store w w' /\ (List.length (stdin w') < List.length (stdin w))%nat
  | (Fail e, w') => e = EOFError /\ same_store w w'
  end.
Proof. unfold _read_default_int. apply read_loop_post. lia. Qed.

Lemma keeps_read_default_int (prompt : string) (default : option Z) :
  keeps (_read_default_int int_of_str prompt default) (fun _ _ => True).
Proof.
  intros w. pose proof (read_default_int_post prompt default w) as H.
  destruct (_read_default_int int_of_str prompt default w) as [[n|e] w'];
    [|exact H].
  destruct H as [Hs _]. split; [exact Hs | exact I].
Qed.

Lemma nick_loop_post (fuel : nat) :
  forall (nick : string) (w : world),
    (List.length (stdin w) < fuel)%nat ->
    match nick_in_use_loop fuel nick w with
    | (Done n, w') => same_store w w' /\ pass_dic w !! n = None
    | (Fail e, w') => e = EOFError /\ same_store w w'
    end.
Proof.
  induction fuel as [|fuel IH]; intros nick w Hlt; [lia|].
  cbn [nick_in_use_loop]. unfold bindC at 1, get_dic.
  destruct (pass_dic w !! nick) eqn:Hnick.
  - unfold bindC at 1, print_err, emit.
    set (w0 := mkWorld (stdin w) (tty w)
                       (output w ++ [PrintErr _MSG_NICK_IN_USE])
                       (pass_db w) (pass_dic w)).
    unfold bindC.
    pose proof (keeps_input "Nickname: " w0) as Hk.
    pose proof (input_consumes "Nickname: " w0) as Hc.
    destruct (input "Nickname: " w0) as [[nick'|e] w1]; [|exact Hk].
    destruct Hk as [Hs _]. simpl in Hc.
    specialize (IH nick' w1 ltac:(lia)).
    destruct (nick_in_use_loop fuel nick' w1) as [[n|e] w2].
    + destruct IH as [Hs' Hn]. split.
      * eapply same_store_trans; [exact Hs | exact Hs'].
      * destruct Hs as [_ Hd]. rewrite Hd in Hn. exact Hn.
    + destruct IH as [He Hs']. split; [exact He|].
      eapply same_store_trans; [exact Hs | exact Hs'].
  - simpl. split; [apply same_store_refl | exact Hnick].
Qed.

Lemma keeps_create_pass_get_nick (nick : option string) :
  keeps (_create_pass_get_nick nick) (fun d n => d !! n = None).
Proof.
  intros w. unfold _create_pass_get_nick, bindC.
  destruct nick as [nick|].
  - exact (nick_loop_post (S (List.length (stdin w))) nick w ltac:(lia)).
  - pose proof (keeps_input "Nickname: " w) as Hk.
    destruct (input "Nickname: " w) as [[nick|e] w1]; [|exact Hk].
    destruct Hk as [Hs _].
    pose proof (nick_loop_post (S (List.length (stdin w1))) nick w1
                  ltac:(lia)) as Hl.
    destruct (nick_in_use_loop (S (List.length (stdin w1))) nick w1)
      as [[n|e] w2].
    + destruct Hl as [Hs' Hn]. split.
      * eapply same_store_trans; eassumption.
      * destruct Hs as [_ Hd]. rewrite Hd in Hn. exact Hn.
    + destruct Hl as [He Hs']. split; [exact He|].
      eapply same_store_trans; eassumption.
Qed.

(** X19: [_create_pass_get_nick] returns only a nickname that is not a
    key of the dictionary, whether it was given or typed; it asks again
    for as long as the nickname is in use, fails with [EOFError] only,
    and leaves the database and the dictionary untouched. *)
Theorem create_pass_get_nick_unused (nick : option string) (w : world) :
  match _create_pass_get_nick nick w with
  | (Done n, w') =>
      pass_dic w !! n = None
      /\ pass_db w' = pass_db w /\ pass_dic w' = pass_dic w
  | (Fail e, w') =>
      e = EOFError /\ pass_db w' = pass_db w /\ pass_dic w' = pass_dic w
  end.
Proof.
  pose proof (keeps_create_pass_get_nick nick w) as H.
  destruct (_create_pass_get_nick nick w) as [[n|e] w'].
  - destruct H as [[H1 H2] H3]. auto.
  - destruct H as [He [H1 H2]]. auto.
Qed.

Lemma keeps_create_pass_get_new_pass (nick : option string) :
  keeps (_create_pass_get_new_pass int_of_str nick)
        (fun d p => d !! nickname p = None
                    /\ exists b, special_char p = PyBool b).
Proof.
  unfold _create_pass_get_new_pass.
  eapply keeps_weaken.
  - eapply keeps_bind; [apply keeps_create_pass_get_nick | intros n].
    eapply keeps_bind; [apply keeps_input | intros username].
    eapply keeps_bind; [apply keeps_input | intros hostname].
    eapply keeps_bind; [apply keeps_input | intros answer].
    eapply keeps_bind; [apply keeps_read_default_int | intros base].
    eapply keeps_bind; [apply keeps_read_default_int | intros iteration].
    eapply keeps_bind; [apply keeps_input | intros hint].
    eapply keeps_bind; [apply keeps_read_default_int | intros start_char].
    eapply keeps_bind; [apply keeps_read_default_int | intros end_char].
    apply keeps_ret.
  - intros d p (n & Hn & u & _ & h & _ & a & _ & b & _ & i & _ & hi & _
                  & s & _ & e & _ & ->).
    simpl. split; [exact Hn | eauto].
Qed.

End CommandLineStore.

(** ** The dictionary and the store *)

Lemma dict_of_rows_nickname (rows : list Row) (k : string) (q : Password) :
  dict_of_rows rows !! k = Some q -> nickname q = k.
Proof.
  rewrite dict_of_rows_lookup.
  destruct (last (List.filter (has_nickname k) rows)) as [r|] eqn:Hl;
    [|discriminate].
  intros [= <-]. simpl.
  apply last_Some_elem_of, list_elem_of_In, List.filter_In in Hl.
  apply has_nickname_true. tauto.
Qed.

Lemma consistent_same_store (w w' : world) :
  same_store w w' -> consistent w -> consistent w'.
Proof.
  intros [Hdb Hdic] (rows & Hopen & Hnd & Hall).
  exists rows. rewrite Hdb, Hdic. auto.
Qed.

Lemma consistent_present (w : world) (rows : list Row) (k : string)
      (p : Password) :
  conn (pass_db w) = Some rows ->
  (forall k, match pass_dic w !! k, dict_of_rows rows !! k with
             | Some p, Some q => Password_eq p q = true
             | None, None => True
             | _, _ => False
             end) ->
  pass_dic w !! k = Some p ->
  nickname p = k /\ In k (List.map col_nickname rows).
Proof.
  intros Hopen Hall Hp. specialize (Hall k). rewrite Hp in Hall.
  destruct (dict_of_rows rows !! k) as [q|] eqn:Hq; [|contradiction].
  apply Password_eq_true in Hall as (Hn & _).
  apply dict_of_rows_nickname in Hq as Hk. split; [congruence|].
  destruct (in_dec string_dec k (List.map col_nickname rows)) as [H|H];
    [exact H|].
  apply dict_of_rows_absent in H. congruence.
Qed.

Lemma consistent_absent (w : world) (rows : list Row) (k : string) :
  (forall k, match pass_dic w !! k, dict_of_rows rows !! k with
             | Some p, Some q => Password_eq p q = true
             | None, None => True
             | _, _ => False
             end) ->
  pass_dic w !! k = None ->
  ~ In k (List.map col_nickname rows).
Proof.
  intros Hall Hk Hin. specialize (Hall k). rewrite Hk in Hall.
  destruct (dict_of_rows_present rows k Hin) as [q Hq].
  rewrite Hq in Hall. exact Hall.
Qed.

Lemma Password_eq_sym (p q : Password) :
  Password_eq p q = true -> Password_eq q p = true.
Proof.
  intros H. apply Password_eq_true in H. apply Password_eq_true.
  intuition congruence.
Qed.

(** The state after [pass_dic[p.nickname] = p] and
    [pass_db.create_new_password(p)]. *)
Lemma consistent_created (w : world) (p : Password) (rows : list Row)
      (i : list string) (t : terminal) (o : list event) :
  conn (pass_db w) = Some rows ->
  consistent w ->
  pass_dic w !! nickname p = None ->
  consistent (mkWorld i t o
                (mkDB (rows ++ [row_of_Password p])
                      (Some (rows ++ [row_of_Password p])))
                (<[nickname p := p]> (pass_dic w))).
Proof.
  intros Hopen (rows' & Hopen' & Hnd & Hall) Hfresh.
  assert (rows' = rows) by congruence. subst rows'.
  exists (rows ++ [row_of_Password p]). simpl.
  split; [reflexivity|]. split.
  - apply NoDup_snoc_nicknames; [exact Hnd|].
    apply (consistent_absent w rows _ Hall Hfresh).
  - intros k. rewrite dict_of_rows_snoc. simpl.
    destruct (decide (nickname p = k)) as [<- | Hne].
    + rewrite !lookup_insert_eq. apply Password_eq_sym, Password_eq_stored.
    + rewrite !lookup_insert_ne by exact Hne. apply Hall.
Qed.

(** The state after [pass_db.delete_password(k)] and [del pass_dic[k]]. *)
Lemma consistent_deleted (w : world) (k : string) (rows : list Row)
      (i : list string) (t : terminal) (o : list event) :
  conn (pass_db w) = Some rows ->
  consistent w ->
  consistent (mkWorld i t o
                (mkDB (List.filter (fun r => negb (has_nickname k r)) rows)
                      (Some (List.filter (fun r => negb (has_nickname k r))
                                         rows)))
                (delete k (pass_dic w))).
Proof.
  intros Hopen (rows' & Hopen' & Hnd & Hall).
  assert (rows' = rows) by congruence. subst rows'.
  eexists. simpl. split; [reflexivity|].
  split; [apply NoDup_filter_nicknames, Hnd|].
  intros j. destruct (decide (k = j)) as [<- | Hne].
  - rewrite lookup_delete_eq.
    rewrite (dict_of_rows_absent _ k (nicknames_after_delete rows k)).
    exact I.
  - rewrite lookup_delete_ne by exact Hne.
    rewrite dict_of_rows_delete_other by congruence. apply Hall.
Qed.

(** ** Selecting an entry *)

Lemma In_sorted_keys (d : gmap string Password) (k : string) :
  In k (sorted_keys d) -> is_Some (d !! k).
Proof.
  intros H. apply In_keys_map_to_list.
  eapply Permutation_in; [apply sorted_perm | exact H].
Qed.

Lemma keeps_print_numbered (items : list (string * Password)) :
  forall i, keeps (print_numbered i items) (fun _ _ => True).
Proof.
  induction items as [|x items IH]; intros i.
  - intros w. simpl. repeat split.
  - cbn [print_numbered]. eapply keeps_weaken.
    + eapply keeps_bind; [apply keeps_emit | intros ?; apply IH].
    + auto.
Qed.

Lemma keeps_list_pass (orig_nick : option string) :
  keeps (list_pass orig_nick) (fun _ _ => True).
Proof.
  unfold list_pass. eapply keeps_weaken.
  - eapply keeps_bind; [apply keeps_get_dic | intros d].
    instantiate (1 := fun _ _ _ => True).
    destruct orig_nick as [n|]; [|apply keeps_print_numbered].
    destruct (d !! n); apply keeps_emit.
  - auto.
Qed.

Section Selecting.

Variable int_of_str : string -> option Z.

Lemma select_pos_loop_post (keys : list string) (fuel : nat) :
  forall w,
    (List.length (stdin w) < fuel)%nat ->
    match select_pos_loop int_of_str fuel keys w with
    | (Done pos, w') =>
        same_store w w' /\ 0 <= pos - 1 < Z.of_nat (List.length keys)
    | (Fail e, w') => e = EOFError /\ same_store w w'
    end.
Proof.
  induction fuel as [|fuel IH]; intros w Hlt; [lia|].
  cbn [select_pos_loop]. unfold bindC.
  pose proof (read_default_int_post int_of_str _MSG_SELECT_NICK None w) as Hr.
  destruct (_read_default_int int_of_str _MSG_SELECT_NICK None w)
    as [[pos|e] w1]; [|exact Hr].
  destruct Hr as [Hs Hlt1].
  destruct ((0 <=? pos - 1) && (pos - 1 <? Z.of_nat (List.length keys)))
    eqn:Hrange.
  - simpl. split; [exact Hs|].
    apply andb_true_iff in Hrange as [H1 H2].
    apply Z.leb_le in H1. apply Z.ltb_lt in H2. lia.
  - specialize (IH w1 ltac:(lia)).
    destruct (select_pos_loop int_of_str fuel keys w1) as [[pos'|e] w2].
    + destruct IH as [Hs' Hr']. split; [|exact Hr'].
      eapply same_store_trans; eassumption.
    + destruct IH as [He Hs']. split; [exact He|].
      eapply same_store_trans; eassumption.
Qed.

Lemma select_pos_loop_empty (fuel : nat) :
  forall w,
    (List.length (stdin w) < fuel)%nat ->
    fst (select_pos_loop int_of_str fuel [] w) = Fail EOFError.
Proof.
  induction fuel as [|fuel IH]; intros w Hlt; [lia|].
  cbn [select_pos_loop]. unfold bindC.
  pose proof (read_default_int_post int_of_str _MSG_SELECT_NICK None w) as Hr.
  destruct (_read_default_int int_of_str _MSG_SELECT_NICK None w)
    as [[pos|e] w1].
  - destruct Hr as [_ Hlt1].
    replace ((0 <=? pos - 1) && (pos - 1 <? Z.of_nat (@List.length string [])))
      with false.
    + apply IH. lia.
    + symmetry. apply andb_false_iff. simpl.
      destruct (0 <=? pos - 1) eqn:H; [right | left; reflexivity].
      apply Z.leb_le in H. apply Z.ltb_ge. lia.
  - destruct Hr as [-> _]. reflexivity.
Qed.

Lemma keeps_select_from_list :
  keeps (select_from_list int_of_str)
        (fun d p => exists k, d !! k = Some p).
Proof.
  intros w. unfold select_from_list, bindC.
  pose proof (keeps_list_pass None w) as Hl.
  destruct (list_pass None w) as [[[]|e] w1]; [|exact Hl].
  destruct Hl as [Hs1 _]. unfold get_dic.
  pose proof (select_pos_loop_post (sorted_keys (pass_dic w1))
                (S (List.length (stdin w1))) w1 ltac:(lia)) as Hp.
  destruct (select_pos_loop int_of_str (S (List.length (stdin w1)))
                            (sorted_keys (pass_dic w1)) w1)
    as [[pos|e] w2].
  - destruct Hp as [Hs2 Hrange].
    destruct (nth_error (sorted_keys (pass_dic w1)) (Z.to_nat (pos - 1)))
      as [key|] eqn:Hnth.
    + apply nth_error_In, In_sorted_keys in Hnth as [p Hp].
      unfold dic_get. destruct Hs2 as [Hdb2 Hdic2]. rewrite Hdic2, Hp.
      split.
      * eapply same_store_trans; [exact Hs1 | split; assumption].
      * exists key. destruct Hs1 as [_ Hdic1]. rewrite <- Hdic1. exact Hp.
    + apply nth_error_None in Hnth. lia.
  - destruct Hp as [He Hs2]. split; [exact He|].
    eapply same_store_trans; eassumption.
Qed.

Lemma keeps_select_pass (nick : option string) :
  keeps (_select_pass int_of_str nick)
        (fun d p => exists k, d !! k = Some p).
Proof.
  destruct nick as [n|]; [|apply keeps_select_from_list].
  intros w. unfold _select_pass, bindC, get_dic.
  destruct (pass_dic w !! n) as [p|] eqn:Hn.
  - simpl. split; [apply same_store_refl | eauto].
  - unfold print_err, emit.
    set (w0 := mkWorld _ _ _ _ _).
    pose proof (keeps_select_from_list w0) as H.
    destruct (select_from_list int_of_str w0) as [[p|e] w1]; exact H.
Qed.

(** X20: on an empty dictionary nothing can be selected: [_select_pass]
    and with it [hint_pass], [delete_pass], [update_pass] and [get_pass]
    end with [EOFError], whatever nickname is given and whatever is
    typed. *)
Theorem select_from_empty_dictionary (nick : option string) (w : world) :
  pass_dic w = ∅ ->
  fst (_select_pass int_of_str nick w) = Fail EOFError
  /\ fst (hint_pass int_of_str nick w) = Fail EOFError
  /\ fst (delete_pass int_of_str nick w) = Fail EOFError
  /\ fst (update_pass int_of_str nick w) = Fail EOFError
  /\ fst (get_pass int_of_str nick w) = Fail EOFError.
Proof.
  intros Hempty.
  assert (Hlist : forall w0, pass_dic w0 = ∅ ->
                    fst (select_from_list int_of_str w0) = Fail EOFError).
  { intros w0 H0.
    assert (Hkeys : sorted_keys (∅ : gmap string Password) = []).
    { unfold sorted_keys. rewrite map_to_list_empty. reflexivity. }
    unfold select_from_list, list_pass, get_dic, bindC. cbv beta.
    rewrite H0. unfold sorted_items. rewrite Hkeys. cbn [omap list_omap
      print_numbered retC].
    rewrite H0, Hkeys.
    pose proof (select_pos_loop_empty (S (List.length (stdin w0))) w0
                  ltac:(lia)) as Hloop.
    destruct (select_pos_loop int_of_str (S (List.length (stdin w0))) [] w0)
      as [[pos|e] w1]; simpl in Hloop; [discriminate|].
    simpl. injection Hloop as ->. reflexivity. }
  assert (Hsel : fst (_select_pass int_of_str nick w) = Fail EOFError).
  { destruct nick as [n|]; [|apply Hlist, Hempty].
    unfold _select_pass, bindC, get_dic. cbv beta.
    rewrite Hempty, lookup_empty.
    unfold print_err, emit. apply Hlist. exact Hempty. }
  split; [exact Hsel|].
  unfold hint_pass, delete_pass, update_pass, get_pass, bindC.
  destruct (_select_pass int_of_str nick w) as [[p|e] w1]; simpl in Hsel;
    [discriminate|].
  injection Hsel as ->. repeat split.
Qed.

End Selecting.

Lemma select_from_empty_dictionary_witness :
  fst (_select_pass decimal_of_str (Some "nick"%string)
                    (empty_world ["1"; "2"; ""]%string))
  = Fail EOFError.
Proof.
  apply (select_from_empty_dictionary decimal_of_str (Some "nick"%string)
           (empty_world ["1"; "2"; ""]%string)).
  reflexivity.
Defined.

(** ** Creating, deleting, updating *)

Lemma stored_nicknames_open (db : PasswordDB) (rows : list Row) :
  conn db = Some rows -> stored_nicknames db = List.map col_nickname rows.
Proof. intros H. unfold stored_nicknames. rewrite H. reflexivity. Qed.

Lemma consistent_empty (lines : list string) : consistent (empty_world lines).
Proof.
  exists []. simpl. split; [reflexivity|]. split; [constructor|].
  intros k. rewrite lookup_empty. exact I.
Qed.

(** [pass_db.delete_password(p)] then [del pass_dic[p.nickname]], for an
    entry [p] of the dictionary. *)
Lemma delete_steps (w : world) (k : string) (p : Password) (rows : list Row) :
  pass_dic w !! k = Some p ->
  nickname p = k ->
  conn (pass_db w) = Some rows ->
  (on_db (delete_password (ByPassword p)) ;;~ dic_del (nickname p)) w
  = (Done tt,
     mkWorld (stdin w) (tty w) (output w)
             (mkDB (List.filter (fun r => negb (has_nickname k r)) rows)
                   (Some (List.filter (fun r => negb (has_nickname k r))
                                      rows)))
             (delete k (pass_dic w))).
Proof.
  intros Hp Hk Hopen. unfold bindC, on_db.
  rewrite (delete_password_open (pass_db w) rows Hopen (ByPassword p)).
  cbv zeta. unfold dic_del. simpl. rewrite Hk, Hp. reflexivity.
Qed.

Section Changing.

Variable int_of_str : string -> option Z.

(** X21: from a state in which the dictionary agrees with the store,
    [create_pass] ends in one of three ways.  It returns a nickname that
    was in neither, after adding the new entry to both, appended to the
    table, so that they agree again.  Or it ends with [EOFError] (the
    input ran out) and has changed neither.  Or the entry that was read
    is one that sqlite refuses (an integer beyond 64 bits, text with a
    lone surrogate): the dictionary is written first, so [create_pass]
    ends with the error of the insert, the entry in the dictionary and
    not in the store. *)
Theorem create_pass_keeps_consistent (nick : option string) (w : world) :
  consistent w ->
  match create_pass int_of_str nick w with
  | (Done n, w') =>
      consistent w'
      /\ pass_dic w !! n = None
      /\ ~ In n (stored_nicknames (pass_db w))
      /\ stored_nicknames (pass_db w') = stored_nicknames (pass_db w) ++ [n]
      /\ exists p, nickname p = n /\ storable p = true
                   /\ pass_dic w' = <[n := p]> (pass_dic w)
  | (Fail e, w') =>
      (e = EOFError /\ pass_db w' = pass_db w /\ pass_dic w' = pass_dic w)
      \/ exists p x,
           e = Lib x /\ (x = UnicodeEncodeError \/ x = OverflowError)
           /\ storable p = false
           /\ pass_dic w !! nickname p = None
           /\ pass_db w' = pass_db w
           /\ pass_dic w' = <[nickname p := p]> (pass_dic w)
  end.
Proof.
  intros Hc. unfold create_pass. unfold bindC at 1.
  pose proof (keeps_create_pass_get_new_pass int_of_str nick w) as Hk.
  destruct (_create_pass_get_new_pass int_of_str nick w) as [[p|e] w1];
    [|destruct Hk as [He [Hdb Hdic]]; auto].
  destruct Hk as [Hs [Hfresh _]].
  pose proof (consistent_same_store w w1 Hs Hc) as Hc1.
  destruct Hs as [Hdb Hdic]. pose proof Hc as Hc0.
  destruct Hc as (rows & Hopen & Hnd & Hall).
  assert (Hopen1 : conn (pass_db w1) = Some rows) by congruence.
  unfold bindC, dic_set, on_db. cbn [pass_db pass_dic stdin tty output].
  destruct (storable p) eqn:Hst.
  - rewrite (create_new_password_open (pass_db w1) rows Hopen1 p Hst).
    unfold retC. split; [|split; [|split; [|split]]].
    + rewrite Hdic. apply consistent_created; assumption.
    + exact Hfresh.
    + rewrite (stored_nicknames_open _ rows Hopen).
      apply (consistent_absent w rows _ Hall Hfresh).
    + rewrite (stored_nicknames_open _ rows Hopen).
      unfold stored_nicknames. simpl. rewrite List.map_app. reflexivity.
    + exists p. rewrite Hdic. auto.
  - destruct (not_storable_refused p Hst) as (x & Hx & Hor).
    rewrite (create_new_password_refused (pass_db w1) rows Hopen1 p x Hx).
    right. exists p, x. cbn [pass_db pass_dic]. rewrite Hdic.
    repeat split; assumption.
Qed.

(** X22: from a state in which the dictionary agrees with the store,
    [delete_pass] either removes one key of the dictionary, and the rows
    with that nickname from the table, so that they agree again (the
    given nickname, when the dictionary holds it); or it ends with
    [EOFError] and has changed neither.  It raises no [KeyError]. *)
Theorem delete_pass_keeps_consistent (nick : option string) (w : world) :
  consistent w ->
  match delete_pass int_of_str nick w with
  | (Done _, w') =>
      consistent w'
      /\ exists n,
           is_Some (pass_dic w !! n)
           /\ pass_dic w' = delete n (pass_dic w)
           /\ ~ In n (stored_nicknames (pass_db w'))
           /\ match nick with
              | Some n0 => is_Some (pass_dic w !! n0) -> n = n0
              | None => True
              end
  | (Fail e, w') =>
      e = EOFError /\ pass_db w' = pass_db w /\ pass_dic w' = pass_dic w
  end.
Proof.
  intros Hc. unfold delete_pass. unfold bindC at 1.
  pose proof (keeps_select_pass int_of_str nick w) as Hk.
  assert (Hgiven : forall n0 p w1,
            nick = Some n0 -> is_Some (pass_dic w !! n0) ->
            _select_pass int_of_str nick w = (Done p, w1) ->
            pass_dic w !! n0 = Some p).
  { intros n0 p w1 -> [q Hq]. unfold _select_pass, bindC, get_dic.
    rewrite Hq. intros [= <- _]. reflexivity. }
  destruct (_select_pass int_of_str nick w) as [[p|e] w1] eqn:Hsel.
  - destruct Hk as [Hs [k Hp]].
    pose proof (consistent_same_store w w1 Hs Hc) as Hc1.
    destruct Hs as [Hdb Hdic]. pose proof Hc as Hc0.
    destruct Hc as (rows & Hopen & Hnd & Hall).
    destruct (consistent_present w rows k p Hopen Hall Hp) as [Hnk Hin].
    rewrite (delete_steps w1 k p rows) by congruence.
    split.
    + rewrite Hdic. apply consistent_deleted; assumption.
    + exists k. split; [eauto|]. split; [simpl; congruence|].
      split; [apply nicknames_after_delete|].
      destruct nick as [n0|]; [|exact I].
      intros Hn0. specialize (Hgiven n0 p w1 eq_refl Hn0 eq_refl).
      destruct (consistent_present w rows n0 p Hopen Hall Hgiven) as [Hnk' _].
      congruence.
  - destruct Hk as [He [Hdb Hdic]]. auto.
Qed.

(** X23: from a state in which the dictionary agrees with the store,
    [update_pass] ends in one of three ways.  It replaces one entry by a
    new one, in both, so that they agree again, and the new nickname is
    one that the dictionary did not hold before, hence never the old one.
    Or it ends with [EOFError] and has changed neither: the old entry is
    deleted only after the new one has been read in full.  Or the new
    entry is one that sqlite refuses (an integer beyond 64 bits, text
    with a lone surrogate): the old entry is deleted from both, and
    committed, and the dictionary is written before the insert raises, so
    [update_pass] ends with the error of the insert, the old entry gone
    and the new one in the dictionary only. *)
Theorem update_pass_keeps_consistent (nick : option string) (w : world) :
  consistent w ->
  match update_pass int_of_str nick w with
  | (Done n, w') =>
      consistent w'
      /\ pass_dic w !! n = None
      /\ exists old p,
           is_Some (pass_dic w !! old)
           /\ nickname p = n /\ storable p = true
           /\ pass_dic w' = <[n := p]> (delete old (pass_dic w))
  | (Fail e, w') =>
      (e = EOFError /\ pass_db w' = pass_db w /\ pass_dic w' = pass_dic w)
      \/ exists old p x,
           e = Lib x /\ (x = UnicodeEncodeError \/ x = OverflowError)
           /\ storable p = false
           /\ is_Some (pass_dic w !! old)
           /\ pass_dic w !! nickname p = None
           /\ pass_dic w' = <[nickname p := p]> (delete old (pass_dic w))
           /\ ~ In old (stored_nicknames (pass_db w'))
           /\ ~ In (nickname p) (stored_nicknames (pass_db w'))
           /\ conn (pass_db w') = Some (disk (pass_db w'))
  end.
Proof.
  intros Hc. unfold update_pass. unfold bindC at 1.
  pose proof (keeps_select_pass int_of_str nick w) as Hk.
  destruct (_select_pass int_of_str nick w) as [[old_pw|e] w1];
    [|destruct Hk as [He [Hdb Hdic]]; auto].
  destruct Hk as [Hs1 [k Hold]].
  unfold bindC at 1, print, emit. unfold bindC at 1.
  set (w2 := mkWorld _ _ _ _ _).
  assert (Hs2 : same_store w w2) by (destruct Hs1; split; assumption).
  pose proof (keeps_list_pass (Some (nickname old_pw)) w2) as Hl.
  destruct (list_pass (Some (nickname old_pw)) w2) as [[[]|e] w3];
    [|destruct Hl as [He Hs3];
      destruct (same_store_trans _ _ _ Hs2 Hs3); auto].
  destruct Hl as [Hs3 _].
  unfold bindC at 1. unfold bindC at 1.
  set (w4 := mkWorld _ _ _ _ _).
  assert (Hs4 : same_store w w4).
  { eapply same_store_trans; [exact Hs2|].
    destruct Hs3. split; assumption. }
  pose proof (keeps_create_pass_get_new_pass int_of_str nick w4) as Hn.
  destruct (_create_pass_get_new_pass int_of_str nick w4) as [[p|e] w5];
    [|destruct Hn as [He Hs5];
      destruct (same_store_trans _ _ _ Hs4 Hs5); auto].
  destruct Hn as [Hs5 [Hfresh _]].
  pose proof (same_store_trans _ _ _ Hs4 Hs5) as Hs.
  pose proof (consistent_same_store w w5 Hs Hc) as Hc5.
  destruct Hs as [Hdb Hdic]. destruct Hs4 as [_ Hdic4].
  rewrite Hdic4 in Hfresh.
  destruct Hc as (rows & Hopen & Hnd & Hall).
  destruct (consistent_present w rows k old_pw Hopen Hall Hold) as [Hnk Hin].
  (* the old entry is found at once *)
  unfold bindC at 1, delete_pass. unfold bindC at 1.
  unfold _select_pass at 1. unfold bindC at 1, get_dic.
  rewrite Hdic, Hnk, Hold. unfold retC at 1.
  rewrite (delete_steps w5 k old_pw rows) by congruence.
  set (rows1 := List.filter (fun r => negb (has_nickname k r)) rows).
  unfold bindC, dic_set, on_db. cbn [pass_db pass_dic stdin tty output].
  assert (Hfresh1 : ~ In (nickname p) (List.map col_nickname rows1)).
  { intros Hin1. apply (consistent_absent w rows _ Hall Hfresh).
    eapply In_filter_nicknames, Hin1. }
  destruct (storable p) eqn:Hst.
  - rewrite (create_new_password_open (mkDB rows1 (Some rows1)) rows1
               eq_refl p Hst).
    unfold retC. split; [|split].
    + set (w6 := mkWorld (stdin w5) (tty w5) (output w5)
                         (mkDB rows1 (Some rows1)) (delete k (pass_dic w))).
      assert (Hc6 : consistent w6).
      { apply (consistent_deleted w k rows); [exact Hopen|].
        exists rows. auto. }
      assert (Hfresh6 : pass_dic w6 !! nickname p = None).
      { simpl. destruct (decide (k = nickname p)) as [<- | Hne].
        - apply lookup_delete_eq.
        - rewrite lookup_delete_ne by exact Hne. exact Hfresh. }
      pose proof (consistent_created w6 p rows1 (stdin w5) (tty w5)
                    (output w5) eq_refl Hc6 Hfresh6) as H6.
      simpl in H6. rewrite Hdic. exact H6.
    + exact Hfresh.
    + exists k, p. rewrite Hdic. eauto.
  - destruct (not_storable_refused p Hst) as (x & Hx & Hor).
    rewrite (create_new_password_refused (mkDB rows1 (Some rows1)) rows1
               eq_refl p x Hx).
    right. exists k, p, x. cbn [pass_db pass_dic]. rewrite Hdic.
    unfold stored_nicknames. cbn [conn disk].
    split; [reflexivity|]. split; [exact Hor|]. split; [exact Hst|].
    split; [eauto|]. split; [exact Hfresh|]. split; [reflexivity|].
    split; [apply nicknames_after_delete|]. split; [exact Hfresh1|].
    reflexivity.
Qed.

End Changing.

Lemma create_pass_keeps_consistent_witness :
  match create_pass decimal_of_str None (empty_world TEST_CREATE_INPUT) with
  | (Done n, w') =>
      consistent w'
      /\ pass_dic (empty_world TEST_CREATE_INPUT) !! n = None
      /\ ~ In n (stored_nicknames (pass_db (empty_world TEST_CREATE_INPUT)))
      /\ stored_nicknames (pass_db w')
         = stored_nicknames (pass_db (empty_world TEST_CREATE_INPUT)) ++ [n]
      /\ exists p, nickname p = n /\ storable p = true
                   /\ pass_dic w'
                      = <[n := p]> (pass_dic (empty_world TEST_CREATE_INPUT))
  | (Fail e, w') =>
      (e = EOFError
       /\ pass_db w' = pass_db (empty_world TEST_CREATE_INPUT)
       /\ pass_dic w' = pass_dic (empty_world TEST_CREATE_INPUT))
      \/ exists p x,
           e = Lib x /\ (x = UnicodeEncodeError \/ x = OverflowError)
           /\ storable p = false
           /\ pass_dic (empty_world TEST_CREATE_INPUT) !! nickname p = None
           /\ pass_db w' = pass_db (empty_world TEST_CREATE_INPUT)
           /\ pass_dic w'
              = <[nickname p := p]>
                  (pass_dic (empty_world TEST_CREATE_INPUT))
  end.
Proof.
  apply (create_pass_keeps_consistent decimal_of_str None
           (empty_world TEST_CREATE_INPUT)).
  apply consistent_empty.
Defined.

Lemma consistent_test_world (lines typed : list string) :
  consistent (test_world lines typed).
Proof.
  apply (consistent_created (empty_world []) test_password [] lines
           (DevTty typed) []
           eq_refl (consistent_empty []) (lookup_empty _)).
Qed.

Lemma delete_pass_keeps_consistent_witness :
  match delete_pass decimal_of_str (Some "nick"%string) (test_world [] []) with
  | (Done _, w') =>
      consistent w'
      /\ exists n,
           is_Some (pass_dic (test_world [] []) !! n)
           /\ pass_dic w' = delete n (pass_dic (test_world [] []))
           /\ ~ In n (stored_nicknames (pass_db w'))
           /\ (is_Some (pass_dic (test_world [] []) !! "nick") ->
               n = "nick"%string)
  | (Fail e, w') =>
      e = EOFError
      /\ pass_db w' = pass_db (test_world [] [])
      /\ pass_dic w' = pass_dic (test_world [] [])
  end.
Proof.
  apply (delete_pass_keeps_consistent decimal_of_str (Some "nick"%string)
           (test_world [] [])).
  apply consistent_test_world.
Defined.

Lemma update_pass_keeps_consistent_witness :
  match update_pass decimal_of_str (Some "nick"%string)
                    (test_world TEST2_CREATE_INPUT []) with
  | (Done n, w') =>
      consistent w'
      /\ pass_dic (test_world TEST2_CREATE_INPUT []) !! n = None
      /\ exists old p,
           is_Some (pass_dic (test_world TEST2_CREATE_INPUT []) !! old)
           /\ nickname p = n /\ storable p = true
           /\ pass_dic w'
              = <[n := p]>
                  (delete old (pass_dic (test_world TEST2_CREATE_INPUT [])))
  | (Fail e, w') =>
      (e = EOFError
       /\ pass_db w' = pass_db (test_world TEST2_CREATE_INPUT [])
       /\ pass_dic w' = pass_dic (test_world TEST2_CREATE_INPUT []))
      \/ exists old p x,
           e = Lib x /\ (x = UnicodeEncodeError \/ x = OverflowError)
           /\ storable p = false
           /\ is_Some (pass_dic (test_world TEST2_CREATE_INPUT []) !! old)
           /\ pass_dic (test_world TEST2_CREATE_INPUT []) !! nickname p = None
           /\ pass_dic w'
              = <[nickname p := p]>
                  (delete old (pass_dic (test_world TEST2_CREATE_INPUT [])))
           /\ ~ In old (stored_nicknames (pass_db w'))
           /\ ~ In (nickname p) (stored_nicknames (pass_db w'))
           /\ conn (pass_db w') = Some (disk (pass_db w'))
  end.
Proof.
  apply (update_pass_keeps_consistent decimal_of_str (Some "nick"%string)
           (test_world TEST2_CREATE_INPUT [])).
  apply consistent_test_world.
Defined.

(** ** Asking for the proto-password *)

Lemma getpass_line (prompt line : string) (rest : list string) (w : world) :
  secret_lines w = line :: rest ->
  getpass prompt w
  = (Done line, secret_read w rest (getpass_events (tty w) prompt)).
Proof.
  unfold secret_lines, getpass, secret_read.
  destruct w as [i t o db dic]. cbn [stdin tty output pass_db pass_dic].
  destruct t as [typed | [|]]; intros H.
  - subst typed. reflexivity.
  - unfold bindC, retC, emit, read_line.
    cbn [stdin tty output pass_db pass_dic]. rewrite H. reflexivity.
  - unfold bindC, retC, emit, print_err, emit, read_line.
    cbn [stdin tty output pass_db pass_dic]. rewrite H.
    rewrite <- !app_assoc. reflexivity.
Qed.

Lemma secret_lines_read (w : world) (left : list string)
      (events : list event) :
  secret_lines (secret_read w left events) = left.
Proof. unfold secret_lines, secret_read. destruct (tty w); reflexivity. Qed.

Lemma getpass_events_read (w : world) (left : list string)
      (events : list event) (prompt : string) :
  getpass_events (tty (secret_read w left events)) prompt
  = getpass_events (tty w) prompt.
Proof. unfold secret_read. destruct (tty w) as [|[|]]; reflexivity. Qed.

Lemma ask_events_read (w : world) (left : list string)
      (events : list event) :
  ask_events (tty (secret_read w left events)) = ask_events (tty w).
Proof. unfold ask_events. rewrite !getpass_events_read. reflexivity. Qed.

Lemma retry_events_read (w : world) (left : list string)
      (events : list event) (attempts : list (string * string)) :
  retry_events (tty (secret_read w left events)) attempts
  = retry_events (tty w) attempts.
Proof. unfold retry_events. rewrite ask_events_read. reflexivity. Qed.

Lemma secret_read_read (w : world) (l1 l2 : list string)
      (e1 e2 : list event) :
  secret_read (secret_read w l1 e1) l2 e2 = secret_read w l2 (e1 ++ e2).
Proof.
  unfold secret_read. destruct (tty w); cbn [stdin tty output pass_db pass_dic];
    rewrite <- app_assoc; reflexivity.
Qed.

Lemma secret_read_emit (w : world) (left : list string) (e1 : list event)
      (e : event) :
  mkWorld (stdin (secret_read w left e1)) (tty (secret_read w left e1))
          (output (secret_read w left e1) ++ [e])
          (pass_db (secret_read w left e1)) (pass_dic (secret_read w left e1))
  = secret_read w left (e1 ++ [e]).
Proof.
  unfold secret_read. destruct (tty w); cbn [stdin tty output pass_db pass_dic];
    rewrite <- app_assoc; reflexivity.
Qed.

Lemma emit_secret_read (w : world) (left : list string) (e : event)
      (e2 : list event) :
  secret_read (mkWorld (stdin w) (tty w) (output w ++ [e])
                       (pass_db w) (pass_dic w)) left e2
  = secret_read w left (e :: e2).
Proof.
  unfold secret_read. cbn [stdin tty output pass_db pass_dic].
  destruct (tty w); rewrite <- app_assoc; reflexivity.
Qed.

Lemma get_proto_password_pair (a b : string) (rest : list string)
      (w : world) :
  secret_lines w = a :: b :: rest ->
  _get_proto_password w
  = (Done (if String.eqb a b then Some a else None),
     secret_read w rest (ask_events (tty w))).
Proof.
  intros H. unfold _get_proto_password, bindC.
  rewrite (getpass_line _ a (b :: rest) w H).
  rewrite (getpass_line _ b rest) by apply secret_lines_read.
  rewrite getpass_events_read, secret_read_read. reflexivity.
Qed.

Lemma retry_events_length (t : terminal) (l1 l2 : list (string * string)) :
  List.length l1 = List.length l2 -> retry_events t l1 = retry_events t l2.
Proof.
  revert l2. induction l1 as [|x l1 IH]; intros [|y l2] H;
    try discriminate; [reflexivity|].
  unfold retry_events. cbn [flat_map]. f_equal.
  apply IH. simpl in H. lia.
Qed.

Lemma retry_events_cons (t : terminal) (ab : string * string)
      (attempts : list (string * string)) :
  retry_events t (ab :: attempts)
  = PrintErr _MSG_PROTO_PW_MISMATCH :: ask_events t ++ retry_events t attempts.
Proof. reflexivity. Qed.

Lemma proto_pw_loop_retries (pw : string) (rest : list string)
      (attempts : list (string * string)) :
  forall (fuel : nat) (w : world),
    secret_lines w = typed_pairs attempts ++ pw :: pw :: rest ->
    Forall (fun ab => fst ab <> snd ab) attempts ->
    (List.length attempts + 2 <= fuel)%nat ->
    proto_pw_loop fuel None w
    = (Done pw,
       secret_read w rest (retry_events (tty w) (attempts ++ [(pw, pw)]))).
Proof.
  induction attempts as [|[a b] attempts IH]; intros fuel w Htty Hne Hfuel.
  - change (secret_lines w = pw :: pw :: rest) in Htty.
    destruct fuel as [|[|fuel]]; try (simpl in Hfuel; lia).
    cbn [proto_pw_loop]. unfold bindC, print_err, emit.
    erewrite get_proto_password_pair by exact Htty.
    rewrite String.eqb_refl. unfold retC.
    cbn [stdin tty output pass_db pass_dic]. rewrite emit_secret_read.
    cbn [app]. rewrite retry_events_cons. cbn [retry_events flat_map].
    rewrite app_nil_r. reflexivity.
  - change (secret_lines w
            = a :: b :: typed_pairs attempts ++ pw :: pw :: rest) in Htty.
    apply Forall_cons_1 in Hne as [Hab Hne]. simpl in Hab.
    destruct fuel as [|fuel]; [simpl in Hfuel; lia|].
    cbn [proto_pw_loop]. unfold bindC at 1, print_err, emit.
    unfold bindC at 1.
    erewrite get_proto_password_pair by exact Htty.
    apply String.eqb_neq in Hab. rewrite Hab.
    cbn [stdin tty output pass_db pass_dic]. rewrite emit_secret_read.
    rewrite (IH fuel);
      [| apply secret_lines_read | exact Hne | simpl in Hfuel; lia].
    rewrite secret_read_read, retry_events_read.
    cbn [app]. rewrite retry_events_cons. reflexivity.
Qed.

Section Getting.

Variable int_of_str : string -> option Z.

(** X24: for an entry that the dictionary holds, [get_pass] asks for the
    proto-password twice, reports a mismatch and asks again for as long
    as the two entries differ, and prints the password derived from the
    first pair of equal entries.  The entries are read where [getpass]
    reads: on the controlling terminal when there is one, and then
    nothing is read from the standard input; on the standard input
    otherwise.  Neither the database nor the dictionary changes. *)
Theorem get_pass_prints (n pw s : string) (p : Password)
        (attempts : list (string * string)) (rest : list string)
        (w : world) :
  pass_dic w !! n = Some p ->
  secret_lines w = typed_pairs attempts ++ pw :: pw :: rest ->
  Forall (fun ab => fst ab <> snd ab) attempts ->
  calculate_password p pw = Ok s ->
  get_pass int_of_str (Some n) w
  = (Done tt,
     secret_read w rest
       (ask_events (tty w) ++ retry_events (tty w) attempts
        ++ [Print ("Password: " +:+ s)]))
  /\ (forall typed, tty w = DevTty typed ->
      stdin (snd (get_pass int_of_str (Some n) w)) = stdin w).
Proof.
  intros Hp Htty Hne Hs.
  assert (Hrun : get_pass int_of_str (Some n) w
                 = (Done tt,
                    secret_read w rest
                      (ask_events (tty w) ++ retry_events (tty w) attempts
                       ++ [Print ("Password: " +:+ s)]))).
  { unfold get_pass. unfold bindC at 1.
    unfold _select_pass, bindC at 1, get_dic. rewrite Hp. unfold retC at 1.
    unfold bindC at 1.
    destruct attempts as [|[a b] attempts].
    - change (secret_lines w = pw :: pw :: rest) in Htty.
      erewrite get_proto_password_pair by exact Htty.
      rewrite String.eqb_refl. unfold bindC at 1.
      cbn [proto_pw_loop retC]. unfold bindC. rewrite Hs.
      unfold of_result, retC, print, emit.
      rewrite secret_read_emit. reflexivity.
    - change (secret_lines w
              = a :: b :: typed_pairs attempts ++ pw :: pw :: rest) in Htty.
      apply Forall_cons_1 in Hne as [Hab Hne]. simpl in Hab.
      erewrite get_proto_password_pair by exact Htty.
      apply String.eqb_neq in Hab. rewrite Hab. unfold bindC at 1.
      erewrite (proto_pw_loop_retries pw rest attempts);
        [| apply secret_lines_read | exact Hne |].
      + unfold bindC. rewrite Hs.
        rewrite (retry_events_length _ (attempts ++ [(pw, pw)])
                                     ((a, b) :: attempts))
          by (rewrite length_app; simpl; lia).
        unfold of_result, retC, print, emit.
        rewrite secret_read_read, secret_read_emit, retry_events_read.
        rewrite <- app_assoc. reflexivity.
      + rewrite secret_lines_read. rewrite length_app. unfold typed_pairs.
        rewrite (flat_map_constant_length (c := 2%nat)) by reflexivity.
        simpl. lia. }
  split; [exact Hrun|].
  intros typed Ht. rewrite Hrun. unfold secret_read. rewrite Ht. reflexivity.
Qed.

End Getting.

Lemma get_pass_prints_witness :
  get_pass decimal_of_str (Some "nick"%string)
           (mkWorld ["pass"; "qass"; "pass"; "pass"]%string (NoTty false) []
                    (pass_db (test_world [] [])) (pass_dic (test_world [] [])))
  = (Done tt,
     mkWorld [] (NoTty false)
             ([Warn _GETPASS_WARN; PrintErr _GETPASS_ECHOED;
               PromptErr _MSG_ENTER_PROTO_PW_1;
               Warn _GETPASS_WARN; PrintErr _GETPASS_ECHOED;
               PromptErr _MSG_ENTER_PROTO_PW_2;
               PrintErr _MSG_PROTO_PW_MISMATCH;
               Warn _GETPASS_WARN; PrintErr _GETPASS_ECHOED;
               PromptErr _MSG_ENTER_PROTO_PW_1;
               Warn _GETPASS_WARN; PrintErr _GETPASS_ECHOED;
               PromptErr _MSG_ENTER_PROTO_PW_2;
               Print ("Password: " +:+ "4x@ymyy7pivt$xhyi77@2")])
             (pass_db (test_world [] []))
             (pass_dic (test_world [] []))).
Proof.
  apply (get_pass_prints decimal_of_str "nick" "pass" "4x@ymyy7pivt$xhyi77@2"
           test_password [("pass", "qass")]%string []
           (mkWorld ["pass"; "qass"; "pass"; "pass"]%string (NoTty false) []
                    (pass_db (test_world [] []))
                    (pass_dic (test_world [] [])))).
  - reflexivity.
  - reflexivity.
  - repeat constructor. discriminate.
  - vm_compute. reflexivity.
Defined.

(** ** Selecting by number *)

Lemma print_numbered_output (items : list (string * Password)) :
  forall (i : Z) (w : world),
    print_numbered i items w
    = (Done tt, reading w (stdin w) (numbered_lines i items)).
Proof.
  induction items as [|x items IH]; intros i w.
  - simpl. rewrite reading_nil. reflexivity.
  - cbn [print_numbered numbered_lines]. unfold bindC, print, emit.
    rewrite IH. unfold reading. simpl. rewrite <- app_assoc. reflexivity.
Qed.

Lemma numbered_lines_nth (items : list (string * Password)) :
  forall (i : Z) (j : nat) (item : string * Password),
    nth_error items j = Some item ->
    In (Print (Py.str_of_int (i + Z.of_nat j + 1) +:+ ": "
               +:+ Password_repr (snd item)))
       (numbered_lines i items).
Proof.
  induction items as [|x items IH]; intros i j item Hj.
  - destruct j; discriminate.
  - destruct j as [|j]; simpl in Hj.
    + injection Hj as <-. left. f_equal. f_equal. f_equal. lia.
    + right. specialize (IH (i + 1) j item Hj).
      replace (i + Z.of_nat (S j) + 1) with (i + 1 + Z.of_nat j + 1) by lia.
      exact IH.
Qed.

Lemma sorted_items_nth (d : gmap string Password) (j : nat) (k : string) :
  nth_error (sorted_keys d) j = Some k ->
  exists p, d !! k = Some p /\ nth_error (sorted_items d) j = Some (k, p).
Proof.
  unfold sorted_items.
  assert (H : forall keys,
             (forall k, In k keys -> is_Some (d !! k)) ->
             forall j k, nth_error keys j = Some k ->
               exists p, d !! k = Some p
                 /\ nth_error
                      (omap (fun k => (fun p => (k, p)) <$> d !! k) keys) j
                    = Some (k, p)).
  { clear j k. induction keys as [|x keys IH]; intros Hall j k Hj.
    - destruct j; discriminate.
    - destruct (Hall x (or_introl eq_refl)) as [px Hpx].
      cbn [omap list_omap]. rewrite Hpx. simpl.
      destruct j as [|j]; simpl in Hj.
      + injection Hj as <-. exists px. auto.
      + apply IH; [|exact Hj]. intros k' Hk'. apply Hall. right. exact Hk'. }
  apply H. intros k'. apply In_sorted_keys.
Qed.

Section SelectingByNumber.

Variable int_of_str : string -> option Z.

(** X25: when no nickname is given, the number typed selects the entry
    that [list_pass] has just printed under that number: the entries are
    numbered from 1 in the order of their sorted nicknames. *)
Theorem select_pass_by_number (w : world) (line : string)
        (rest : list string) (pos : Z) :
  stdin w = line :: rest ->
  line <> ""%string ->
  int_of_str line = Some pos ->
  1 <= pos <= Z.of_nat (List.length (sorted_keys (pass_dic w))) ->
  exists k p,
    nth_error (sorted_items (pass_dic w)) (Z.to_nat (pos - 1)) = Some (k, p)
    /\ pass_dic w !! k = Some p
    /\ _select_pass int_of_str None w
       = (Done p,
          reading w rest
                  (numbered_lines 0 (sorted_items (pass_dic w))
                   ++ [Prompt _MSG_SELECT_NICK]))
    /\ In (Print (Py.str_of_int pos +:+ ": " +:+ Password_repr p))
          (numbered_lines 0 (sorted_items (pass_dic w))).
Proof.
  intros Hin Hline Hpos Hrange.
  destruct (nth_error (sorted_keys (pass_dic w)) (Z.to_nat (pos - 1)))
    as [k|] eqn:Hk; [|apply nth_error_None in Hk; lia].
  destruct (sorted_items_nth _ _ _ Hk) as (p & Hp & Hitem).
  exists k, p. split; [exact Hitem|]. split; [exact Hp|]. split.
  - unfold _select_pass, select_from_list, list_pass.
    unfold bindC at 1. unfold bindC at 1. unfold get_dic at 1.
    rewrite print_numbered_output. unfold bindC at 1, get_dic.
    cbn [pass_dic reading stdin]. unfold bindC at 1.
    set (w1 := reading w (stdin w) _).
    assert (H1 : stdin w1 = line :: rest) by exact Hin.
    rewrite H1. cbn [List.length select_pos_loop]. unfold bindC at 1.
    rewrite (read_default_int_spec int_of_str _MSG_SELECT_NICK None w1
               [] (line :: rest) H1 (List.Forall_nil _)).
    + simpl. unfold int_or_default.
      apply String.eqb_neq in Hline. rewrite Hline, Hpos.
      replace ((0 <=? pos - 1)
               && (pos - 1 <? Z.of_nat (List.length (sorted_keys (pass_dic w)))))
        with true by (symmetry; apply andb_true_iff; split;
                      [apply Z.leb_le | apply Z.ltb_lt]; lia).
      cbn [retC]. rewrite Hk. unfold dic_get. simpl. rewrite Hp.
      unfold w1, reading. simpl. rewrite <- app_assoc. reflexivity.
    + intros l [= <-]. unfold int_or_default.
      apply String.eqb_neq in Hline. rewrite Hline, Hpos. eauto.
  - pose proof (numbered_lines_nth _ 0 _ _ Hitem) as H. simpl in H.
    replace (0 + Z.of_nat (Z.to_nat (pos - 1)) + 1) with pos in H by lia.
    exact H.
Qed.

End SelectingByNumber.

Lemma select_pass_by_number_witness :
  exists k p,
    nth_error (sorted_items (pass_dic (test_world ["1"%string] [])))
              (Z.to_nat (1 - 1)) = Some (k, p)
    /\ pass_dic (test_world ["1"%string] []) !! k = Some p
    /\ _select_pass decimal_of_str None (test_world ["1"%string] [])
       = (Done p,
          reading (test_world ["1"%string] []) []
                  (numbered_lines 0
                     (sorted_items (pass_dic (test_world ["1"%string] [])))
                   ++ [Prompt _MSG_SELECT_NICK]))
    /\ In (Print (Py.str_of_int 1 +:+ ": " +:+ Password_repr p))
          (numbered_lines 0
             (sorted_items (pass_dic (test_world ["1"%string] [])))).
Proof.
  apply (select_pass_by_number decimal_of_str (test_world ["1"%string] [])
           "1" [] 1).
  - reflexivity.
  - discriminate.
  - reflexivity.
  - vm_compute. split; intros H; discriminate H.
Defined.

(** * Properties of [get_data] *)

Lemma answered_yes_starts_with_y (line : string) :
  answered_yes line = starts_with_y line.
Proof.
  destruct line as [|c t]; [reflexivity|].
  unfold answered_yes, starts_with_y.
  change (str_lower (String c t +:+ "n"))
    with (String (Py.ascii_of_byte (Py.lower_byte (Py.byte_of_ascii c)))
                 (str_lower (t +:+ "n"))).
  cbn [String.get].
  destruct c as [[] [] [] [] [] [] [] []]; reflexivity.
Qed.

(** ** Paths *)

Lemma length_upto_basename (p : string) :
  (String.length (upto_last_slash p) + String.length (basename p)
   = String.length p)%nat.
Proof.
  induction p as [|c t IH]; [reflexivity|].
  cbn [upto_last_slash basename].
  destruct (upto_last_slash t) as [|x r] eqn:Hu.
  - destruct (Ascii.eqb c "/"); simpl in *; lia.
  - simpl in *. lia.
Qed.

Lemma length_rstrip_slashes (p : string) :
  (String.length (rstrip_slashes p) <= String.length p)%nat.
Proof.
  induction p as [|c t IH]; [reflexivity|].
  cbn [rstrip_slashes].
  destruct (rstrip_slashes t) as [|x r].
  - destruct (Ascii.eqb c "/"); simpl in *; lia.
  - simpl in *. lia.
Qed.

Lemma length_dirname (p : string) :
  (String.length (dirname p) + String.length (basename p)
   <= String.length p)%nat.
Proof.
  pose proof (length_upto_basename p) as H. unfold dirname.
  destruct (negb (String.eqb (upto_last_slash p) "")
            && negb (all_slashes (upto_last_slash p))); [|lia].
  pose proof (length_rstrip_slashes (upto_last_slash p)). lia.
Qed.

Lemma is_name_length (name : string) :
  is_name name = true -> (0 < String.length name)%nat.
Proof. destruct name; [discriminate | simpl; lia]. Qed.

Lemma is_name_not_dotdot (name : string) :
  is_name name = true -> String.eqb name ".." = false.
Proof.
  unfold is_name. intros H. apply andb_true_iff in H as [_ H].
  apply negb_true_iff, H.
Qed.

Lemma ancestors_length (fuel : nat) (p a : string) :
  In a (ancestors fuel p) ->
  (String.length a <= String.length (dirname p))%nat.
Proof.
  revert p. induction fuel as [|fuel IH]; intros p; [intros []|].
  cbn [ancestors].
  destruct (String.eqb (dirname p) "" || String.eqb (dirname p) p);
    [intros []|].
  intros [<- | Hin]; [lia|].
  apply IH in Hin. pose proof (length_dirname (dirname p)). lia.
Qed.

Lemma dirs_above_shorter (p a : string) :
  is_name (basename p) = true -> In a (dirs_above p) ->
  (String.length a < String.length p)%nat.
Proof.
  intros Hname Hin. apply is_name_length in Hname.
  pose proof (length_dirname p) as Hp.
  destruct Hin as [<- | Hin]; [lia|].
  apply ancestors_length in Hin.
  pose proof (length_dirname (dirname p)). lia.
Qed.

Lemma upto_last_slash_slash (t : string) :
  upto_last_slash (String "/" t) <> ""%string.
Proof. cbn [upto_last_slash]. destruct (upto_last_slash t); discriminate. Qed.

Lemma basename_all_slashes (p : string) :
  all_slashes p = true -> basename p = ""%string.
Proof.
  induction p as [|c t IH]; [reflexivity|].
  cbn [all_slashes basename]. intros H. apply andb_true_iff in H as [Hc Ht].
  apply Ascii.eqb_eq in Hc. subst c.
  destruct t as [|c' t']; [reflexivity|].
  pose proof Ht as Ht'. cbn [all_slashes] in Ht'.
  apply andb_true_iff in Ht' as [Hc' _]. apply Ascii.eqb_eq in Hc'. subst c'.
  destruct (upto_last_slash (String "/" t')) eqn:Hu;
    [exfalso; exact (upto_last_slash_slash t' Hu)|].
  apply IH, Ht.
Qed.

(** What a plain path gives: a file name at its end, and above it a
    directory path that does not end in "..". *)
Lemma plain_path_name (p : string) :
  plain_path p = true ->
  is_name (basename p) = true
  /\ (dirname p <> ""%string ->
      String.eqb (basename (dirname p)) ".." = false).
Proof.
  unfold plain_path. destruct (String.length p) as [|n]; [discriminate|].
  cbn [plain]. intros H. apply andb_true_iff in H as [Hname Hup].
  split; [exact Hname|]. intros Hd.
  apply orb_true_iff in Hup as [Hup | Hup].
  - apply orb_true_iff in Hup as [Hup | Hup].
    + apply String.eqb_eq in Hup. contradiction.
    + rewrite (basename_all_slashes _ Hup). reflexivity.
  - destruct n as [|n]; [discriminate|]. cbn [plain] in Hup.
    apply andb_true_iff in Hup as [Hup _]. apply is_name_not_dotdot, Hup.
Qed.

(** ** The nodes of the file system *)

Lemma elem_of_fs_paths (fs : filesystem) (p : string) :
  p ∈ fs_paths fs <-> is_Some (fs_nodes fs !! p).
Proof. unfold fs_paths. apply elem_of_dom. Qed.

Lemma lookup_fs_tables (fs : filesystem) (p : string) (stored : list Row) :
  fs_tables fs !! p = Some stored
  <-> fs_nodes fs !! p = Some (File (Some stored)).
Proof.
  unfold fs_tables. rewrite lookup_omap.
  destruct (fs_nodes fs !! p) as [[|[t|]]|]; simpl; split; congruence.
Qed.

Lemma add_dirs_lookup_in (dirs : list string) (fs : filesystem) (p : string) :
  In p dirs -> fs_nodes (add_dirs dirs fs) !! p = Some Dir.
Proof.
  unfold add_dirs. cbn [fs_nodes].
  induction dirs as [|d dirs IH]; [intros []|]. cbn [fold_right].
  intros [-> | Hin]; [apply lookup_insert_eq|].
  destruct (decide (d = p)) as [-> | Hne]; [apply lookup_insert_eq|].
  rewrite lookup_insert_ne by exact Hne. apply IH, Hin.
Qed.

Lemma add_dirs_lookup_other (dirs : list string) (fs : filesystem)
      (p : string) :
  ~ In p dirs -> fs_nodes (add_dirs dirs fs) !! p = fs_nodes fs !! p.
Proof.
  unfold add_dirs. cbn [fs_nodes].
  induction dirs as [|d dirs IH]; [reflexivity|]. cbn [fold_right].
  intros Hnot. rewrite lookup_insert_ne by (intros ->; apply Hnot; left;
                                            reflexivity).
  apply IH. intros Hin. apply Hnot. right. exact Hin.
Qed.

Lemma missing_above_dirs (fs : filesystem) (above : list string) :
  Forall (fun a => a ∈ fs_paths fs -> is_dir fs a = true) above ->
  exists dirs,
    missing_above fs above = Some dirs
    /\ forall d, In d dirs -> In d above /\ fs_nodes fs !! d = None.
Proof.
  induction 1 as [|a above Ha _ IH].
  - exists []. split; [reflexivity | intros d []].
  - cbn [missing_above]. unfold is_dir in Ha.
    destruct (fs_nodes fs !! a) as [[|t]|] eqn:Hnode.
    + exists []. split; [reflexivity | intros d []].
    + exfalso. assert (Hin : a ∈ fs_paths fs).
      { apply elem_of_fs_paths. rewrite Hnode. eauto. }
      specialize (Ha Hin). discriminate Ha.
    + destruct IH as (dirs & -> & Hdirs). exists (a :: dirs).
      split; [reflexivity|].
      intros d [<- | Hd]; [split; [left; reflexivity | exact Hnode]|].
      destruct (Hdirs d Hd). split; [right|]; assumption.
Qed.

Section GetDataProperties.

Context {U : Type}.
Variable ask : U -> outcome bool * U.
Variable err : U -> outcome unit * U.

Lemma path_exists_true (path : string) (fs : filesystem) (u : U) :
  path <> ""%string -> path ∈ fs_paths fs ->
  path_exists path (fs, u) = (Done true, (fs, u)).
Proof.
  intros Hne Hin. unfold path_exists. simpl.
  apply String.eqb_neq in Hne. rewrite Hne.
  rewrite bool_decide_eq_true_2 by exact Hin. reflexivity.
Qed.

Lemma path_exists_false (path : string) (fs : filesystem) (u : U) :
  path ∉ fs_paths fs ->
  path_exists path (fs, u) = (Done false, (fs, u)).
Proof.
  intros Hin. unfold path_exists. simpl.
  rewrite bool_decide_eq_false_2 by exact Hin.
  rewrite andb_false_r. reflexivity.
Qed.

(** X26: when the file exists and holds the table, [get_data] opens it
    without asking anything and without touching the file system, and
    returns the object together with the dictionary of the stored rows,
    the last row of a nickname winning. *)
Theorem get_data_existing (db_name : string) (stored : list Row)
        (fs : filesystem) (u : U) :
  db_name <> ""%string ->
  db_name ∈ fs_paths fs ->
  fs_tables fs !! db_name = Some stored ->
  get_data ask err db_name (fs, u)
  = (Done (Some (mkDB stored (Some stored), dict_of_rows stored)), (fs, u)).
Proof.
  intros Hne Hin Htab. pose proof Htab as Hnode.
  apply lookup_fs_tables in Hnode.
  unfold get_data. unfold bindG at 1.
  rewrite (path_exists_true db_name fs u Hne Hin).
  unfold PasswordDB_new. unfold bindG, connect. cbn [fst snd].
  rewrite Hnode. cbn [fst snd]. rewrite Htab.
  unfold retG at 1. cbv beta iota.
  rewrite (get_all_password_objects_open (PasswordDB_init stored false) stored)
    by reflexivity.
  reflexivity.
Qed.

(** The directory of the database after [os.makedirs], when it was
    missing. *)
Lemma makedirs_made (root : string) (fs : filesystem) (u : U) :
  root <> ""%string ->
  root ∉ fs_paths fs ->
  String.eqb (basename root) ".." = false ->
  Forall (fun a => a ∈ fs_paths fs -> is_dir fs a = true)
         (ancestors (String.length root) root) ->
  exists dirs,
    makedirs root (fs, u) = (Done tt, (add_dirs (root :: dirs) fs, u))
    /\ forall d, In d dirs ->
                 In d (ancestors (String.length root) root)
                 /\ fs_nodes fs !! d = None.
Proof.
  intros Hne Hnew Hdots Habove.
  destruct (missing_above_dirs fs _ Habove) as (dirs & Hmiss & Hdirs).
  exists dirs. split; [|exact Hdirs].
  unfold makedirs. cbn [fst snd].
  apply String.eqb_neq in Hne. rewrite Hne.
  rewrite bool_decide_eq_false_2 by exact Hnew.
  rewrite Hmiss, Hdots. reflexivity.
Qed.

(** Creating the database in a directory that exists. *)
Lemma PasswordDB_new_created (db_name : string) (fs : filesystem) (u : U) :
  fs_nodes fs !! db_name = None ->
  is_name (basename db_name) = true ->
  is_dir fs (dirname db_name) = true ->
  PasswordDB_new db_name true (fs, u)
  = (Done (PasswordDB_init [] true),
     (mkFs (<[db_name := File (Some [])]>
              (<[db_name := File None]> (fs_nodes fs))), u)).
Proof.
  intros Hnone Hname Hdir. unfold PasswordDB_new, bindG, connect, parent_is_dir.
  cbn [fst snd]. rewrite Hnone, Hname, Hdir, !orb_true_r. reflexivity.
Qed.

(** X27: when the file does not exist, the user agrees, the path is
    written plainly with a directory part, and no directory above it is
    a file, [get_data] makes the directory unless it exists, creates the
    file with an empty table and returns an empty dictionary; what
    existed before is left as it was. *)
Theorem get_data_created (db_name : string) (fs : filesystem) (u u1 : U) :
  db_name ∉ fs_paths fs ->
  ask u = (Done true, u1) ->
  dirname db_name <> ""%string ->
  plain_path db_name = true ->
  no_file_above fs db_name ->
  exists fs1,
    get_data ask err db_name (fs, u)
    = (Done (Some (mkDB [] (Some []), ∅)), (fs1, u1))
    /\ fs_nodes fs1 !! db_name = Some (File (Some []))
    /\ is_dir fs1 (dirname db_name) = true
    /\ fs_tables fs1 !! db_name = Some []
    /\ forall p n, fs_nodes fs !! p = Some n -> fs_nodes fs1 !! p = Some n.
Proof.
  intros Hnew Hask Hdir Hplain Habove.
  destruct (plain_path_name db_name Hplain) as [Hname Hdots].
  specialize (Hdots Hdir).
  assert (Hnone : fs_nodes fs !! db_name = None).
  { destruct (fs_nodes fs !! db_name) eqn:E; [|reflexivity].
    exfalso. apply Hnew, elem_of_fs_paths. rewrite E. eauto. }
  unfold no_file_above, dirs_above in Habove. cbv zeta in Habove.
  apply Forall_cons_1 in Habove as [Hroot Habove].
  unfold get_data. unfold bindG at 1.
  rewrite (path_exists_false db_name fs u Hnew).
  unfold bindG at 1. unfold bindG at 1. unfold callback at 1.
  cbn [fst snd]. rewrite Hask. unfold bindG at 1.
  destruct (decide (dirname db_name ∈ fs_paths fs)) as [Hin | Hout].
  - rewrite (path_exists_true _ fs u1 Hdir Hin). cbn [negb].
    unfold bindG at 1. unfold retG at 1. unfold bindG at 1.
    rewrite (PasswordDB_new_created db_name fs u1 Hnone Hname (Hroot Hin)).
    unfold retG. eexists. split; [reflexivity|]. cbn [fs_nodes].
    split; [apply lookup_insert_eq|].
    assert (Hother : dirname db_name <> db_name).
    { intros E. rewrite E in Hin. contradiction. }
    split.
    { unfold is_dir. cbn [fs_nodes].
      rewrite !lookup_insert_ne by congruence. apply (Hroot Hin). }
    split; [apply lookup_fs_tables; cbn [fs_nodes]; apply lookup_insert_eq|].
    intros p n Hp. rewrite !lookup_insert_ne by congruence. exact Hp.
  - rewrite (path_exists_false _ fs u1 Hout). cbn [negb].
    destruct (makedirs_made (dirname db_name) fs u1 Hdir Hout Hdots Habove)
      as (dirs & Hmade & Hdirs).
    unfold bindG at 1. rewrite Hmade. unfold bindG at 1.
    set (fs' := add_dirs (dirname db_name :: dirs) fs).
    assert (Hmissing : forall d, In d (dirname db_name :: dirs) ->
                                 fs_nodes fs !! d = None).
    { intros d [<- | Hd]; [|apply Hdirs, Hd].
      destruct (fs_nodes fs !! dirname db_name) eqn:E; [|reflexivity].
      exfalso. apply Hout, elem_of_fs_paths. rewrite E. eauto. }
    assert (Hnot : ~ In db_name (dirname db_name :: dirs)).
    { intros Hin.
      assert (Hin' : In db_name (dirs_above db_name)).
      { destruct Hin as [E | Hin]; [left; exact E|].
        right. apply Hdirs, Hin. }
      pose proof (dirs_above_shorter db_name db_name Hname Hin'). lia. }
    assert (Hnone' : fs_nodes fs' !! db_name = None).
    { unfold fs'. rewrite add_dirs_lookup_other by exact Hnot. exact Hnone. }
    assert (Hdir' : is_dir fs' (dirname db_name) = true).
    { unfold is_dir, fs'. rewrite add_dirs_lookup_in by (left; reflexivity).
      reflexivity. }
    rewrite (PasswordDB_new_created db_name fs' u1 Hnone' Hname Hdir').
    unfold retG. eexists. split; [reflexivity|]. cbn [fs_nodes].
    split; [apply lookup_insert_eq|].
    assert (Hother : dirname db_name <> db_name).
    { intros E. apply Hnot. left. exact E. }
    split.
    { unfold is_dir. cbn [fs_nodes].
      rewrite !lookup_insert_ne by congruence.
      unfold fs'. rewrite add_dirs_lookup_in by (left; reflexivity).
      reflexivity. }
    split; [apply lookup_fs_tables; cbn [fs_nodes]; apply lookup_insert_eq|].
    intros p n Hp. rewrite !lookup_insert_ne by congruence.
    unfold fs'. rewrite add_dirs_lookup_other; [exact Hp|].
    intros Hin. apply Hmissing in Hin. congruence.
Qed.

(** X28: when the file does not exist, the user agrees and the path has
    no directory part (a bare file name), [get_data] ends with the
    [FileNotFoundError] of [os.makedirs("")]: nothing is created. *)
Theorem get_data_bare_name (db_name : string) (fs : filesystem) (u u1 : U) :
  db_name ∉ fs_paths fs ->
  ask u = (Done true, u1) ->
  dirname db_name = ""%string ->
  get_data ask err db_name (fs, u) = (Fail FileNotFoundError, (fs, u1)).
Proof.
  intros Hnew Hask Hdir. unfold get_data. unfold bindG at 1.
  rewrite (path_exists_false db_name fs u Hnew).
  unfold bindG at 1. unfold bindG at 1. unfold callback at 1. simpl.
  rewrite Hask, Hdir. reflexivity.
Qed.

(** X29: [error_getting_db_func] is never called: the constructor does
    not return [None], so [get_data] does the same whatever this
    callback is. *)
Theorem get_data_never_reports (err' : U -> outcome unit * U)
        (db_name : string) (x : filesystem * U) :
  get_data ask err db_name x = get_data ask err' db_name x.
Proof.
  unfold get_data, bindG.
  destruct (path_exists db_name x) as [[[|]|e] x1]; [| |reflexivity].
  - destruct (PasswordDB_new db_name false x1) as [[db|e] x2]; reflexivity.
  - destruct (callback ask x1) as [[[|]|e] x2]; [| reflexivity | reflexivity].
    destruct (path_exists (dirname db_name) x2) as [[b|e] x3]; [|reflexivity].
    destruct ((if negb b then makedirs (dirname db_name) else retG tt) x3)
      as [[[]|e] x4]; [|reflexivity].
    destruct (PasswordDB_new db_name true x4) as [[db|e] x5]; reflexivity.
Qed.

End GetDataProperties.

(** X30: at the command line a database that does not exist is created
    only when the answer starts with y or Y; on any other answer, the
    empty one included, [_get_data] returns no database and no
    dictionary and leaves the file system as it is. *)
Theorem get_data_declined (db_path line : string) (rest : list string)
        (fs : filesystem) (w : world) :
  db_path ∉ fs_paths fs ->
  stdin w = line :: rest ->
  starts_with_y line = false ->
  _get_data db_path (fs, w)
  = (Done None,
     (fs, reading w rest [Print _MSG_NO_PASS_DB; Prompt _MSG_CREATE_NEW])).
Proof.
  intros Hnew Hin Hno. unfold _get_data, get_data. unfold bindG at 1.
  rewrite (path_exists_false db_path fs w Hnew).
  unfold bindG at 1. unfold bindG at 1. unfold callback at 1.
  cbn [fst snd].
  assert (Hask : ask_to_create_new w
                 = (Done false,
                    reading w rest
                            [Print _MSG_NO_PASS_DB; Prompt _MSG_CREATE_NEW])).
  { unfold ask_to_create_new, bindC, print, emit.
    erewrite input_line by exact Hin.
    rewrite answered_yes_starts_with_y, Hno.
    unfold retC, reading. simpl. rewrite <- app_assoc. reflexivity. }
  rewrite Hask. reflexivity.
Qed.

(** A file system with one database, and the console of the examples. *)
Lemma get_data_existing_witness :
  get_data ask_to_create_new error_getting_db "/home/u/.config/keymaster/.passwords.db"
    (mkFs {["/home/u/.config/keymaster/.passwords.db"%string
            := File (Some [row_of_Password alice])]},
     empty_world [])
  = (Done (Some (mkDB [row_of_Password alice] (Some [row_of_Password alice]),
                 dict_of_rows [row_of_Password alice])),
     (mkFs {["/home/u/.config/keymaster/.passwords.db"%string
             := File (Some [row_of_Password alice])]},
      empty_world [])).
Proof.
  apply (get_data_existing ask_to_create_new error_getting_db
           "/home/u/.config/keymaster/.passwords.db" [row_of_Password alice]).
  - discriminate.
  - apply elem_of_fs_paths. cbn [fs_nodes].
    rewrite lookup_singleton_eq. eauto.
  - apply lookup_fs_tables. apply lookup_singleton_eq.
Defined.

Lemma get_data_created_witness :
  exists fs1,
    get_data ask_to_create_new error_getting_db "conf/keymaster/p.db"
             (mkFs {["conf"%string := Dir]}, empty_world ["y"%string])
    = (Done (Some (mkDB [] (Some []), ∅)),
       (fs1, reading (empty_world ["y"%string]) []
                     [Print _MSG_NO_PASS_DB; Prompt _MSG_CREATE_NEW]))
    /\ fs_nodes fs1 !! "conf/keymaster/p.db" = Some (File (Some []))
    /\ is_dir fs1 (dirname "conf/keymaster/p.db") = true
    /\ fs_tables fs1 !! "conf/keymaster/p.db" = Some []
    /\ forall p n, fs_nodes (mkFs {["conf"%string := Dir]}) !! p = Some n ->
                   fs_nodes fs1 !! p = Some n.
Proof.
  apply (get_data_created ask_to_create_new error_getting_db
           "conf/keymaster/p.db" (mkFs {["conf"%string := Dir]})
           (empty_world ["y"%string])).
  - intros H. apply elem_of_fs_paths in H as [n H]. cbn [fs_nodes] in H.
    rewrite lookup_singleton_ne in H by discriminate. discriminate H.
  - reflexivity.
  - discriminate.
  - reflexivity.
  - unfold no_file_above. repeat constructor.
    intros H. apply elem_of_fs_paths in H as [n H]. cbn [fs_nodes] in H.
    rewrite lookup_singleton_ne in H by discriminate. discriminate H.
Defined.

(** A path that ends with a slash names no file: the directory is made,
    and then the database cannot be opened. *)
Example get_data_directory_name :
  get_data ask_to_create_new error_getting_db "conf/"
           (mkFs ∅, empty_world ["y"%string])
  = (Fail OperationalError,
     (mkFs {["conf"%string := Dir]},
      reading (empty_world ["y"%string]) []
              [Print _MSG_NO_PASS_DB; Prompt _MSG_CREATE_NEW])).
Proof. vm_compute. reflexivity. Qed.

Lemma get_data_bare_name_witness :
  get_data ask_to_create_new error_getting_db "passwords.db"
           (mkFs ∅, empty_world ["y"%string])
  = (Fail FileNotFoundError,
     (mkFs ∅, reading (empty_world ["y"%string]) []
                        [Print _MSG_NO_PASS_DB; Prompt _MSG_CREATE_NEW])).
Proof.
  apply (get_data_bare_name ask_to_create_new error_getting_db
           "passwords.db" (mkFs ∅) (empty_world ["y"%string])).
  - unfold fs_paths. cbn [fs_nodes]. set_solver.
  - reflexivity.
  - reflexivity.
Defined.

Lemma get_data_declined_witness :
  _get_data "conf/keymaster/p.db" (mkFs ∅, empty_world [""%string])
  = (Done None,
     (mkFs ∅, reading (empty_world [""%string]) []
                        [Print _MSG_NO_PASS_DB; Prompt _MSG_CREATE_NEW])).
Proof.
  apply (get_data_declined "conf/keymaster/p.db" "" [] (mkFs ∅)
           (empty_world [""%string])).
  - unfold fs_paths. cbn [fs_nodes]. set_solver.
  - reflexivity.
  - reflexivity.
Defined.
